(** * clout.py: a shallow embedding and its verified properties

    The development follows [src/clout/clout.py].  Python values are
    modelled as the script uses them:

    - a [str] is a list of Unicode code points (so [len] counts characters,
      not bytes); literals are written as UTF-8 text and decoded;
    - the built-in string operations the script calls ([in], [split],
      [replace], [strip], [join], slicing) are functions of module [Py];
    - the network, the search service, the language model and the
      spreadsheet file are external: their answers are read from an
      explicit [World], indexed by the number of external calls made so
      far, and the spreadsheet file is part of the threaded state;
    - exceptions are values of [exn]; a computation returns [Ok] or
      [Raise].

    Console output and [time.sleep] are not modelled. *)

From Stdlib Require Import String Ascii.
From Stdlib Require Import List NArith ZArith Bool Lia Arith Sorted.
Import ListNotations.

Set Warnings "-register-all".

(* ================================================================= *)
(** * Python strings and their built-in operations *)
(* ================================================================= *)

Module Py.

(** A character is a Unicode code point. *)
Definition char := N.
Definition str := list char.

Definition byte_of_ascii (a : ascii) : N := N_of_ascii a.

(** UTF-8 decoding of a well-formed byte sequence (source literals). *)
Fixpoint utf8_decode (bs : list N) : str :=
  match bs with
  | [] => []
  | b :: r =>
      if (b <? 128)%N then b :: utf8_decode r
      else if (b <? 224)%N then
        match r with
        | c1 :: r' => ((b - 192) * 64 + (c1 - 128))%N :: utf8_decode r'
        | _ => []
        end
      else if (b <? 240)%N then
        match r with
        | c1 :: c2 :: r' =>
            ((b - 224) * 4096 + (c1 - 128) * 64 + (c2 - 128))%N :: utf8_decode r'
        | _ => []
        end
      else
        match r with
        | c1 :: c2 :: c3 :: r' =>
            ((b - 240) * 262144 + (c1 - 128) * 4096 + (c2 - 128) * 64 + (c3 - 128))%N
              :: utf8_decode r'
        | _ => []
        end
  end.

(** [u "..."] is the Python string written by the literal. *)
Definition u (s : string) : str :=
  utf8_decode (map byte_of_ascii (list_ascii_of_string s)).
Arguments u s%_string.

Definition eqb (a b : str) : bool :=
  if list_eq_dec N.eq_dec a b then true else false.

(** [len(s)] *)
Definition len (s : str) : Z := Z.of_nat (length s).

(** [s[:n]] for an integer [n]; a negative [n] counts from the end. *)
Definition slice_to {A} (s : list A) (n : Z) : list A :=
  if (0 <=? n)%Z then firstn (Z.to_nat n) s
  else firstn (length s - Z.to_nat (- n)) s.

(** [s.startswith(p)] *)
Fixpoint startswith (p s : str) : bool :=
  match p, s with
  | [], _ => true
  | _ :: _, [] => false
  | a :: p', b :: s' => (a =? b)%N && startswith p' s'
  end.

(** [s.find(sub)]: index of the leftmost occurrence, [None] for -1. *)
Fixpoint find (sub s : str) : option nat :=
  if startswith sub s then Some 0
  else match s with
       | [] => None
       | _ :: t => option_map S (find sub t)
       end.

(** [sub in s] *)
Definition contains (sub s : str) : bool :=
  match find sub s with Some _ => true | None => false end.

(** [s.split(sep, 1)] for a non-empty separator. *)
Definition split1 (sep s : str) : list str :=
  match find sep s with
  | Some i => [firstn i s; skipn (i + length sep) s]
  | None => [s]
  end.

(** [s.replace(old, new)] for a non-empty [old]: occurrences are found
    left to right, each search resuming after the previous occurrence. *)
Fixpoint replace_from (fuel : nat) (old new s : str) : str :=
  match fuel with
  | O => s
  | S f =>
      match find old s with
      | None => s
      | Some i => firstn i s ++ new ++ replace_from f old new (skipn (i + length old) s)
      end
  end.

Definition replace (old new s : str) : str :=
  replace_from (length s) old new s.

(** [c.isspace()], the characters removed by [strip()]. *)
Definition isspace (c : char) : bool :=
  ((9 <=? c) && (c <=? 13) || (28 <=? c) && (c <=? 32)
   || (c =? 133) || (c =? 160) || (c =? 5760)
   || (8192 <=? c) && (c <=? 8202)
   || (c =? 8232) || (c =? 8233) || (c =? 8239) || (c =? 8287)
   || (c =? 12288))%N.

Fixpoint lstrip (s : str) : str :=
  match s with
  | c :: t => if isspace c then lstrip t else s
  | [] => []
  end.

Definition rstrip (s : str) : str := rev (lstrip (rev s)).

(** [s.strip()] *)
Definition strip (s : str) : str := rstrip (lstrip s).

(** [sep.join(l)] *)
Fixpoint join (sep : str) (l : list str) : str :=
  match l with
  | [] => []
  | [x] => x
  | x :: r => x ++ sep ++ join sep r
  end.

End Py.

Import Py.


(* ================================================================= *)
(** * Regular expressions ([re.findall]) *)
(* ================================================================= *)

Module Re.

(** The fragment of [re] syntax the script uses.  A character class is a
    list of inclusive code-point ranges. *)
Inductive regex :=
| Class (ranges : list (N * N))      (* [a-z...] *)
| Lit (c : char)                     (* a literal character *)
| Seq (r1 r2 : regex)                (* r1 r2 *)
| Star (r : regex)                   (* r*, greedy *)
| WordB.                             (* \b *)

(** [r+] and [r{2,}] *)
Definition Plus (r : regex) : regex := Seq r (Star r).
Definition AtLeast2 (r : regex) : regex := Seq r (Seq r (Star r)).

Definition in_class (ranges : list (N * N)) (c : char) : bool :=
  existsb (fun '(lo, hi) => (lo <=? c) && (c <=? hi))%N ranges.

Section Matcher.

(** [str.isalnum] on the code points above ASCII (Python's Unicode
    database); [\w] and hence [\b] depend on it. *)
Variable unicode_alnum : char -> bool.

(** [\w] for a [str] pattern. *)
Definition is_word (c : char) : bool :=
  if (c <? 128)%N
  then in_class [(48, 57); (65, 90); (97, 122); (95, 95)]%N c
  else unicode_alnum c.

Definition is_word_opt (c : option char) : bool :=
  match c with Some x => is_word x | None => false end.

(** Backtracking matcher in continuation-passing style.  [prev] is the
    character before the current position, [s] the text from the current
    position on; [k] receives the position after the match.  Alternatives
    are tried in the order of Python's engine: a greedy star tries one more
    iteration before it tries to stop.  An iteration of a star must consume
    a character, so [length s] iterations are the most there can be. *)
Fixpoint rmatch (r : regex) (prev : option char) (s : str)
         (k : option char -> str -> option str) {struct r} : option str :=
  match r with
  | Class ranges =>
      match s with
      | c :: t => if in_class ranges c then k (Some c) t else None
      | [] => None
      end
  | Lit a =>
      match s with
      | c :: t => if (c =? a)%N then k (Some c) t else None
      | [] => None
      end
  | Seq r1 r2 => rmatch r1 prev s (fun p' s' => rmatch r2 p' s' k)
  | Star r1 =>
      (fix loop (n : nat) (prev : option char) (s : str) : option str :=
         match n with
         | O => k prev s
         | S n' =>
             match rmatch r1 prev s
                     (fun p' s' => if length s' <? length s then loop n' p' s' else None) with
             | Some res => Some res
             | None => k prev s
             end
         end) (length s) prev s
  | WordB =>
      if xorb (is_word_opt prev) (is_word_opt (hd_error s)) then k prev s else None
  end.

(** The text left after the leftmost-first match of [r] at this position. *)
Definition match_here (r : regex) (prev : option char) (s : str) : option str :=
  rmatch r prev s (fun _ rest => Some rest).

(** Scan left to right; after a match the scan resumes where it ended
    ([skip] counts the characters of the current match still to pass). *)
Fixpoint findall_aux (r : regex) (skip : nat) (prev : option char) (s : str) : list str :=
  match s with
  | [] =>
      match match_here r prev [] with
      | Some _ => [[]]
      | None => []
      end
  | c :: t =>
      match skip with
      | S k => findall_aux r k (Some c) t
      | O =>
          match match_here r prev s with
          | Some rest =>
              let n := length s - length rest in
              firstn n s :: findall_aux r (n - 1) (Some c) t
          | None => findall_aux r 0 (Some c) t
          end
      end
  end.

(** [re.findall(r, text)] for a pattern without capturing groups. *)
Definition findall (r : regex) (text : str) : list str :=
  findall_aux r 0 None text.

End Matcher.

End Re.

(* ================================================================= *)
(** * [sorted(set(...))] on strings *)
(* ================================================================= *)

Module PySort.

(** [a < b] on [str]: lexicographic by code point. *)
Fixpoint ltb (a b : str) : bool :=
  match a, b with
  | [], [] => false
  | [], _ :: _ => true
  | _ :: _, [] => false
  | x :: a', y :: b' =>
      if (x <? y)%N then true
      else if (x =? y)%N then ltb a' b' else false
  end.

Definition mem (x : str) (l : list str) : bool := existsb (Py.eqb x) l.

(** [set(l)]: each distinct element once. *)
Fixpoint set (l : list str) : list str :=
  match l with
  | [] => []
  | x :: r => if mem x r then set r else x :: set r
  end.

Fixpoint insert (x : str) (l : list str) : list str :=
  match l with
  | [] => [x]
  | y :: r => if ltb y x then y :: insert x r else x :: l
  end.

(** [sorted(l)] *)
Fixpoint sorted (l : list str) : list str :=
  match l with
  | [] => []
  | x :: r => insert x (sorted r)
  end.

End PySort.

(* ================================================================= *)
(** * The script *)
(* ================================================================= *)

(** ** Exceptions and computations *)

Inductive exn :=
| ValueError
| TypeError
| AttributeError
| KeyError
| FileNotFoundError
| RuntimeError
| Timeout
| ConnectionError
| TooManyRedirects
| HTTPError
| JSONDecodeError
| ParserRejectedMarkup
| IllegalCharacterError.

(** [isinstance(e, ValueError)], the test of [except ValueError]. *)
Definition is_ValueError (e : exn) : bool :=
  match e with
  | ValueError => true
  | JSONDecodeError => true      (* a subclass of ValueError *)
  | _ => false
  end.

Inductive result (A : Type) :=
| Ok (a : A)
| Raise (e : exn).
Arguments Ok {A} a.
Arguments Raise {A} e.

(** ** Configuration (lines 32-53) *)

Definition BLOG_URLS : list str :=
  [ u "https://pallavighxsh.wordpress.com/2025/01/28/ai-tone-consistency-in-brand-aligned-communication/";
    u "https://pallavighxsh.wordpress.com/2024/10/22/tone-it-down-can-ai-really-get-your-brand-voices-vibe/";
    u "https://pallavighxsh.wordpress.com/2024/07/08/on-generative-ai/" ].

Definition VARIANTS : list (str * str) :=
  [ (u "Thought Leadership",
     u "Write a senior thought-leadership piece: big-picture insights, implications, frameworks.");
    (u "Story Narrative",
     u "Write a story-driven narrative: open with a concise anecdote or scene, then connect to insights.");
    (u "Actionable / Framework",
     u "Write an actionable post with a clear framework or 3–5 tactical steps the reader can apply.") ].

(** ** The prompt of [generate_one_variant] (lines 126-171)

    The f-string is the concatenation of four literal pieces and the three
    interpolated values; the last piece is given in two parts, the text
    that closes the background block and the output-structure instruction. *)

Definition NLNL : str := [10; 10]%N.   (* "\n\n" *)

Definition PROMPT_1 : str := u "
You are a senior editorial content strategist who writes high-impact, human, long-form LinkedIn posts.

Variant: ".

Definition PROMPT_2 : str := u "
Style Instruction: ".

Definition PROMPT_3 : str := u "

Write a polished, original, human-sounding LinkedIn post of **700–1000 words** (aim for ~800 words).
This must NOT summarize the blog. Instead, it must:
- Expand on the ideas, frameworks, insights, and themes found in the blog content.
- Integrate and synthesize insights from BOTH the blog and the SERP-scraped external pages.
- Show intellectual depth, critical thinking, and editorial expertise.
- Use **long, flowing, high-quality paragraphs** (5–7 sentences each), not bullet points.
- Use a **LinkedIn-appropriate tone**: engaging, reflective, and expert — not academic or robotic.
- Use narrative openings, transitions, and emotional or strategic framing.
- Offer a clear perspective, interpretation, or actionable direction.
- Avoid lists unless absolutely necessary; rely on narrative explanation and analysis.
- DO NOT repeat the same sentence structures or rephrase the blog.
- DO NOT mention that you're combining sources.

Use this combined text ONLY as background knowledge to enrich arguments, examples, frameworks, and narrative:
========
".

Definition PROMPT_4_CLOSE : str := u "
========

".

Definition PROMPT_4_ENVELOPE : str := u "Follow this EXACT output structure — this is mandatory:

###
HEADLINE:
<one compelling headline, 5–12 words>

POST:
<full LinkedIn post, 700–1000 words, long paragraphs, deeply synthesizing blog + SERP insights>
###

Do NOT place anything before HEADLINE:
Do NOT place anything after the final ###.
".

Definition PROMPT_4 : str := PROMPT_4_CLOSE ++ PROMPT_4_ENVELOPE.

Definition final_trim_prompt (prompt : str) (max_chars : Z) : str :=
  if (len prompt <=? max_chars)%Z then prompt
  else slice_to prompt max_chars.

(** Lines 126-167: the prompt before the final trim. *)
Definition compose_prompt (variant_label variant_instr blog_text serp_text : str) : str :=
  let blog_text := slice_to blog_text 5000 in
  let serp_text := slice_to serp_text 7000 in
  let combined := blog_text ++ NLNL ++ serp_text in
  PROMPT_1 ++ variant_label ++ PROMPT_2 ++ variant_instr ++ PROMPT_3
    ++ combined ++ PROMPT_4.

(** Lines 126-171: the prompt passed to the model. *)
Definition build_prompt (variant_label variant_instr blog_text serp_text : str) : str :=
  final_trim_prompt (compose_prompt variant_label variant_instr blog_text serp_text) 7000.

(** ** Entity extraction (lines 90-94) *)

(** [[A-Za-z0-9._%+-]+@[A-Za-z0-9.-]+\.[A-Za-z]{2,}] *)
Definition EMAIL_RE : Re.regex :=
  Re.Seq (Re.Plus (Re.Class [(65, 90); (97, 122); (48, 57); (46, 46); (95, 95);
                             (37, 37); (43, 43); (45, 45)]%N))
 (Re.Seq (Re.Lit 64%N)
 (Re.Seq (Re.Plus (Re.Class [(65, 90); (97, 122); (48, 57); (46, 46); (45, 45)]%N))
 (Re.Seq (Re.Lit 46%N)
         (Re.AtLeast2 (Re.Class [(65, 90); (97, 122)]%N))))).

(** [[A-Z][a-z]+] *)
Definition CAP_WORD : Re.regex :=
  Re.Seq (Re.Class [(65, 90)]%N) (Re.Plus (Re.Class [(97, 122)]%N)).

(** [\b[A-Z][a-z]+(?: [A-Z][a-z]+)*\b] *)
Definition PROPER_NOUN_RE : Re.regex :=
  Re.Seq Re.WordB
 (Re.Seq CAP_WORD
 (Re.Seq (Re.Star (Re.Seq (Re.Lit 32%N) CAP_WORD))
         Re.WordB)).

Record entities := { emails : list str; proper_nouns : list str }.

Definition extract_entities (unicode_alnum : char -> bool) (text : str) : entities :=
  let emails := Re.findall unicode_alnum EMAIL_RE text in
  let proper_nouns := Re.findall unicode_alnum PROPER_NOUN_RE text in
  {| emails := PySort.sorted (PySort.set emails);
     proper_nouns := PySort.sorted (PySort.set proper_nouns) |}.

(** ** Parsing the generated text (lines 196-206) *)

Record post := { headline : str; body : str }.

Definition POST_MARK : str := u "POST:".
Definition HEADLINE_MARK : str := u "HEADLINE:".

Definition parse_generation (full_text : str) : result post :=
  if contains POST_MARK full_text then
    match split1 POST_MARK full_text with
    | [head_part; post_part] =>
        Ok {| headline := strip (replace HEADLINE_MARK [] head_part);
              body := strip post_part |}
    | _ => Raise ValueError          (* the unpacking of a list that has not two items *)
    end
  else
    Ok {| headline := u "LinkedIn Post"; body := strip full_text |}.

(** ** External collaborators *)

(** A [<p>] element of a parsed page: its text strings, in document order. *)
Definition ptag := list str.

(** What [requests.get(url, headers=HEADERS, timeout=20)] does: it raises,
    or returns a response.  [page] is what
    [BeautifulSoup(r.text, "html.parser").find_all("p")] gives for the body
    of the response, [None] when the parser rejects the markup. *)
Inductive http_outcome :=
| HttpRaise (e : exn)
| HttpResponse (status_code : Z) (page : option (list ptag)).

(** A decoded JSON value.  Numbers are integers here: of a number only its
    truthiness is looked at.  The members of an object have distinct keys. *)
Inductive json :=
| JNull
| JBool (b : bool)
| JNum (z : Z)
| JStr (s : str)
| JArr (items : list json)
| JObj (members : list (str * json)).

(** What the request to the search service does: it raises, or returns a
    response whose [r.json()] is a value ([None] when decoding raises). *)
Inductive serp_outcome :=
| SerpRaise (e : exn)
| SerpResponse (data : option json).

(** A streamed chunk, as far as the loop of lines 183-188 inspects it. *)
Inductive choices_value :=
| ChoicesMissing                            (* no "choices" key *)
| ChoicesNotList                            (* some value that is not a list *)
| ChoicesList (texts : list (option str)).  (* per choice, its "text" if any *)

Inductive chunk :=
| ChunkNotDict
| ChunkDict (choices : choices_value).

(** A call of the model with [stream=True]: the chunks it yields and the
    exception that ends the stream, if one does. *)
Record llm_outcome := { llm_chunks : list chunk; llm_error : option exn }.

Inductive Llama := LlamaHandle.

(** The answers of the outside world; the first argument is the number of
    external calls made before this one. *)
Record World := {
  http_get : nat -> str -> http_outcome;
  serp_get : nat -> str -> str -> Z -> serp_outcome;
  llama_new : nat -> str -> result Llama;
  llm_call : nat -> str -> llm_outcome;
  (** [validators.url] on a string is truthy *)
  validators_url : str -> bool;
  (** [validators.url] raises on a value that is not a string (otherwise it
      returns a falsy failure object) *)
  validators_url_raises_on_nonstr : bool;
  (** [str.isalnum] above ASCII *)
  unicode_alnum : char -> bool
}.

(** The process environment and the file system the script looks at. *)
Record Env := {
  SERPAPI_KEY : option str;
  LLAMA_MODEL_PATH : option str;
  path_exists : str -> bool;
  llama_cpp_imported : bool
}.

(** ** The spreadsheet *)

Definition row := list str.
Definition sheet := (str * list row)%type.
Definition workbook := list sheet.

Definition sheetnames (wb : workbook) : list str := map fst wb.

(** [wb[name]] *)
Fixpoint wb_getitem (name : str) (wb : workbook) : option (list row) :=
  match wb with
  | [] => None
  | (n, rows) :: rest => if Py.eqb n name then Some rows else wb_getitem name rest
  end.

(** [wb[name].append(r)] for a row of cells that passed [check_row] *)
Fixpoint ws_append (name : str) (r : row) (wb : workbook) : workbook :=
  match wb with
  | [] => []
  | (n, rows) :: rest =>
      if Py.eqb n name then (n, rows ++ [r]) :: rest
      else (n, rows) :: ws_append name r rest
  end.

(** [wb.create_sheet(name)], called for a name the workbook does not have. *)
Definition create_sheet (name : str) (wb : workbook) : workbook := wb ++ [(name, [])].

(** [Workbook()]: one empty sheet, which is the active one. *)
Definition Workbook_new : workbook := [(u "Sheet", [])].

(** [wb.active.title = name] *)
Definition set_active_title (name : str) (wb : workbook) : workbook :=
  match wb with
  | [] => []
  | (_, rows) :: rest => (name, rows) :: rest
  end.

Definition LINKEDIN : str := u "linkedin".
Definition SERP_DEBUG : str := u "serp_debug".

Definition LINKEDIN_HEADER : row :=
  [u "source_url"; u "variant"; u "headline"; u "body";
   u "serp_emails"; u "serp_proper_nouns"; u "serp_links"].

Definition SERP_DEBUG_HEADER : row :=
  [u "source_url"; u "serp_links"; u "serp_text"].

(** The characters openpyxl refuses in a cell: U+0000 to U+0008, U+000B,
    U+000C and U+000E to U+001F. *)
Definition is_illegal (c : char) : bool :=
  ((c <=? 8) || (11 <=? c) && (c <=? 12) || (14 <=? c) && (c <=? 31))%N.

(** The text a cell keeps of a string: its first 32767 characters. *)
Definition cell_text (value : str) : str := slice_to value 32767.

(** What openpyxl does with a string given to a cell: it cuts the string to
    32767 characters and raises [IllegalCharacterError] if a refused
    character is left. *)
Definition check_string (value : str) : result str :=
  let value := cell_text value in
  if existsb is_illegal value then Raise IllegalCharacterError else Ok value.

(** The cells of [ws.append(r)], made in the order of the row; the first
    refused string raises. *)
Fixpoint check_row (r : row) : result row :=
  match r with
  | [] => Ok []
  | value :: rest =>
      match check_string value with
      | Raise e => Raise e
      | Ok cell =>
          match check_row rest with
          | Raise e => Raise e
          | Ok cells => Ok (cell :: cells)
          end
      end
  end.

(** ** [json.dumps] of a list of strings (default [ensure_ascii]) *)

Definition hex_digit (n : N) : char :=
  (if n <? 10 then 48 + n else 87 + n)%N.

Definition hex4 (n : N) : str :=
  [hex_digit (n / 4096 mod 16); hex_digit (n / 256 mod 16);
   hex_digit (n / 16 mod 16); hex_digit (n mod 16)]%N.

Definition u_escape (n : N) : str := [92; 117]%N ++ hex4 n.

Definition json_escape_char (c : char) : str :=
  (if c =? 34 then [92; 34]
   else if c =? 92 then [92; 92]
   else if c =? 10 then [92; 110]
   else if c =? 13 then [92; 114]
   else if c =? 9 then [92; 116]
   else if c =? 8 then [92; 98]
   else if c =? 12 then [92; 102]
   else if (32 <=? c) && (c <=? 126) then [c]
   else if c <? 65536 then u_escape c
   else u_escape (55296 + (c - 65536) / 1024) ++ u_escape (56320 + (c - 65536) mod 1024))%N.

Definition json_dumps_str (s : str) : str :=
  [34%N] ++ flat_map json_escape_char s ++ [34%N].

Definition json_dumps (l : list str) : str :=
  u "[" ++ join (u ", ") (map json_dumps_str l) ++ u "]".

(** ** Computations: state and exceptions *)

(** The state threaded through the script: the number of external calls
    made so far, and the spreadsheet file ([None]: it does not exist). *)
Record state := { calls : nat; excel_file : option workbook }.

Definition M (A : Type) : Type := state -> result A * state.

Definition ret {A} (a : A) : M A := fun s => (Ok a, s).

Definition bind {A B} (c : M A) (f : A -> M B) : M B :=
  fun s =>
    match c s with
    | (Ok a, s') => f a s'
    | (Raise e, s') => (Raise e, s')
    end.

Definition raise {A} (e : exn) : M A := fun s => (Raise e, s).

(** [try: c  except: h] *)
Definition try_except {A} (c : M A) (h : exn -> M A) : M A :=
  fun s =>
    match c s with
    | (Ok a, s') => (Ok a, s')
    | (Raise e, s') => h e s'
    end.

Definition lift {A} (r : result A) : M A := fun s => (r, s).

(** The state after one more external call. *)
Definition tick (s : state) : state :=
  {| calls := S (calls s); excel_file := excel_file s |}.

(** An external call: its number is the count of the calls before it. *)
Definition external {A} (f : nat -> A) : M A :=
  fun s => (Ok (f (calls s)), tick s).

Definition read_file : M (option workbook) := fun s => (Ok (excel_file s), s).

(** [wb.save(EXCEL_FILE)] *)
Definition save (wb : workbook) : M unit :=
  fun s => (Ok tt, {| calls := calls s; excel_file := Some wb |}).

(** [load_workbook(EXCEL_FILE)] *)
Definition load_workbook : M workbook :=
  fun s =>
    match excel_file s with
    | Some wb => (Ok wb, s)
    | None => (Raise FileNotFoundError, s)
    end.

Declare Scope clout_scope.
Delimit Scope clout_scope with clout.
Notation "x <- c1 ;; c2" := (bind c1 (fun x => c2))
  (at level 61, c1 at next level, right associativity) : clout_scope.
Notation "c1 ;;; c2" := (bind c1 (fun _ => c2))
  (at level 61, right associativity) : clout_scope.
Open Scope clout_scope.

(** [for x in l: body(x)] *)
Fixpoint for_each {A} (l : list A) (body : A -> M unit) : M unit :=
  match l with
  | [] => ret tt
  | x :: r => body x ;;; for_each r body
  end.

(** Truthiness of a [str]. *)
Definition truthy_str (s : str) : bool :=
  match s with [] => false | _ => true end.

Section Script.

Variable W : World.
Variable E : Env.

(** ** [scrape_url] (lines 59-67) *)

(** [r.raise_for_status()]: an [HTTPError] for the 4xx and 5xx codes. *)
Definition raise_for_status (status_code : Z) : result unit :=
  if ((400 <=? status_code) && (status_code <? 600))%Z then Raise HTTPError
  else Ok tt.

(** [p.get_text(sep, strip=True)]: the strings of the element, each
    stripped, the empty ones dropped, joined by [sep]. *)
Definition get_text (sep : str) (p : ptag) : str :=
  join sep (filter truthy_str (map strip p)).

Definition scrape_url (url : str) : M str :=
  r <- try_except
         (r <- external (fun n => http_get W n url) ;;
          match r with
          | HttpRaise e => raise e
          | HttpResponse status_code page =>
              lift (raise_for_status status_code) ;;;
              ret (Some page)
          end)
         (fun _ => ret None) ;;
  match r with
  | None => ret []                               (* except: return "" *)
  | Some None => raise ParserRejectedMarkup      (* BeautifulSoup(...) raises *)
  | Some (Some soup_p) =>
      let paras :=
        map (get_text (u " ")) (filter (fun p => truthy_str (get_text [] p)) soup_p) in
      ret (join NLNL paras)
  end.

(** ** [serpapi_search] (lines 70-87) *)

(** Truthiness of a decoded JSON value. *)
Definition truthy (v : json) : bool :=
  match v with
  | JNull => false
  | JBool b => b
  | JNum z => negb (z =? 0)%Z
  | JStr s => truthy_str s
  | JArr l => match l with [] => false | _ => true end
  | JObj m => match m with [] => false | _ => true end
  end.

Fixpoint assoc (key : str) (members : list (str * json)) : option json :=
  match members with
  | [] => None
  | (k, v) :: rest => if Py.eqb k key then Some v else assoc key rest
  end.

(** [v.get(key, default)]: only a dict has [get]. *)
Definition json_get (v : json) (key : str) (default : json) : result json :=
  match v with
  | JObj members =>
      match assoc key members with
      | Some x => Ok x
      | None => Ok default
      end
  | _ => Raise AttributeError
  end.

(** [v[:num]]: lists and strings can be sliced. *)
Definition json_slice_to (v : json) (num : Z) : result (list json) :=
  match v with
  | JArr l => Ok (slice_to l num)
  | JStr s => Ok (map (fun c => JStr [c]) (slice_to s num))
  | _ => Raise TypeError
  end.

(** Lines 81-84, the loop over the sliced results. *)
Fixpoint collect_links (items : list json) (links : list str) : result (list str) :=
  match items with
  | [] => Ok links
  | item :: rest =>
      match json_get item (u "link") JNull with
      | Raise e => Raise e
      | Ok link =>
          match link with
          | JStr s =>
              if truthy_str s && validators_url W s
              then collect_links rest (links ++ [s])
              else collect_links rest links
          | _ =>
              if truthy link && validators_url_raises_on_nonstr W
              then Raise TypeError
              else collect_links rest links
          end
      end
  end.

(** [not SERPAPI_KEY] *)
Definition serpapi_key : option str :=
  match SERPAPI_KEY E with
  | Some k => if truthy_str k then Some k else None
  | None => None
  end.

Definition serpapi_search (query : str) (num : Z) : M (list str) :=
  match serpapi_key with
  | None => ret []
  | Some key =>
      try_except
        (r <- external (fun n => serp_get W n query key num) ;;
         match r with
         | SerpRaise e => raise e
         | SerpResponse None => raise JSONDecodeError
         | SerpResponse (Some data) =>
             organic <- lift (json_get data (u "organic_results") (JArr [])) ;;
             items <- lift (json_slice_to organic num) ;;
             lift (collect_links items [])
         end)
        (fun _ => ret [])
  end.

(** ** [load_llm] (lines 100-114) *)

Definition load_llm : M (option Llama) :=
  match LLAMA_MODEL_PATH E with
  | None => ret None
  | Some path =>
      if negb (truthy_str path) || negb (path_exists E path) then ret None
      else if negb (llama_cpp_imported E) then ret None
      else
        r <- external (fun n => llama_new W n path) ;;
        llm <- lift r ;;
        ret (Some llm)
  end.

(** ** [generate_one_variant] (lines 124-206) *)

(** Lines 184-187: what one chunk adds to [full_text]. *)
Definition chunk_token (c : chunk) : str :=
  match c with
  | ChunkDict (ChoicesList (Some text :: _)) => text
  | _ => []
  end.

Definition ERROR_POST : post := {| headline := u "ERROR"; body := [] |}.

Definition generate_one_variant (llm : Llama) (variant_label variant_instr
                                 blog_text serp_text : str) : M post :=
  let prompt := build_prompt variant_label variant_instr blog_text serp_text in
  out <- external (fun n => llm_call W n prompt) ;;
  let full_text := fold_left (fun acc c => acc ++ chunk_token c) (llm_chunks out) [] in
  match llm_error out with
  | Some e =>
      if is_ValueError e then ret ERROR_POST   (* except ValueError *)
      else raise e
  | None => lift (parse_generation full_text)
  end.

(** ** The spreadsheet functions (lines 212-254)

    A row is appended in memory, cell by cell, before the workbook is
    saved: when a cell is refused the call raises and the file is as it
    was.  The two header rows are fixed texts that pass the check. *)

Definition init_excel : M unit :=
  f <- read_file ;;
  match f with
  | None =>
      let wb := Workbook_new in
      let wb := set_active_title LINKEDIN wb in
      let wb := ws_append LINKEDIN LINKEDIN_HEADER wb in
      let wb := create_sheet SERP_DEBUG wb in
      save wb
  | Some _ => ret tt
  end.

Record output_row := {
  source_url : str;
  variant : str;
  row_headline : str;
  row_body : str;
  serp_emails : list str;
  serp_proper_nouns : list str;
  row_serp_links : list str
}.

Definition linkedin_cells (r : output_row) : row :=
  [source_url r; variant r; row_headline r; row_body r;
   join (u ", ") (serp_emails r);
   join (u ", ") (serp_proper_nouns r);
   join (u ", ") (row_serp_links r)].

Definition append_to_excel_row (r : output_row) : M unit :=
  wb <- load_workbook ;;
  match wb_getitem LINKEDIN wb with
  | None => raise KeyError
  | Some _ =>
      cells <- lift (check_row (linkedin_cells r)) ;;
      save (ws_append LINKEDIN cells wb)
  end.

Definition debug_cells (url : str) (serp_links : list str) (serp_text : str) : row :=
  [url; json_dumps serp_links; slice_to serp_text 5000].

Definition save_serp_debug (url : str) (serp_links : list str) (serp_text : str) : M unit :=
  wb <- load_workbook ;;
  let wb :=
    if negb (PySort.mem SERP_DEBUG (sheetnames wb))
    then ws_append SERP_DEBUG SERP_DEBUG_HEADER (create_sheet SERP_DEBUG wb)
    else wb in
  cells <- lift (check_row (debug_cells url serp_links serp_text)) ;;
  save (ws_append SERP_DEBUG cells wb).

(** ** [main] (lines 260-304) *)

(** Lines 277-280: the texts of the result pages, each followed by a
    blank line. *)
Fixpoint scrape_links (serp_links : list str) (serp_text : str) : M str :=
  match serp_links with
  | [] => ret serp_text
  | link :: rest =>
      t <- scrape_url link ;;
      scrape_links rest (serp_text ++ t ++ NLNL)
  end.

(** Lines 290-300: one variant of one blog. *)
Definition generate_and_save (llm : Llama) (url blog_text serp_text : str)
           (serp_links : list str) (ents : entities) (v : str * str) : M unit :=
  let '(variant_label, variant_instr) := v in
  result <- generate_one_variant llm variant_label variant_instr blog_text serp_text ;;
  append_to_excel_row
    {| source_url := url;
       variant := variant_label;
       row_headline := headline result;
       row_body := body result;
       serp_emails := emails ents;
       serp_proper_nouns := proper_nouns ents;
       row_serp_links := serp_links |}.

(** Lines 267-302: the body of the loop over [BLOG_URLS]. *)
Definition process_blog (llm : Llama) (url : str) : M unit :=
  blog_text <- scrape_url url ;;
  if negb (truthy_str blog_text) then ret tt      (* continue *)
  else
    serp_links <- serpapi_search (slice_to blog_text 80) 5 ;;
    serp_text <- scrape_links serp_links [] ;;
    let ents := extract_entities (unicode_alnum W) serp_text in
    save_serp_debug url serp_links serp_text ;;;
    for_each VARIANTS (generate_and_save llm url blog_text serp_text serp_links ents).

Definition main : M unit :=
  init_excel ;;;
  llm <- load_llm ;;
  match llm with
  | None => ret tt
  | Some llm => for_each BLOG_URLS (process_blog llm)
  end.

End Script.

(* ================================================================= *)
(** * Sample inputs *)
(* ================================================================= *)

(** A world that gives the same answer to every call of a kind. *)
Definition const_world (h : http_outcome) (sp : serp_outcome) (l : llm_outcome) : World :=
  {| http_get := fun _ _ => h;
     serp_get := fun _ _ _ _ => sp;
     llama_new := fun _ _ => Ok LlamaHandle;
     llm_call := fun _ _ => l;
     validators_url := fun s => startswith (u "http") s;
     validators_url_raises_on_nonstr := false;
     unicode_alnum := fun _ => false |}.

Definition sample_env (key : option str) : Env :=
  {| SERPAPI_KEY := key;
     LLAMA_MODEL_PATH := Some (u "model.gguf");
     path_exists := fun _ => true;
     llama_cpp_imported := true |}.

Definition fresh_state : state := {| calls := 0; excel_file := None |}.

(** A page with one paragraph. *)
Definition hello_page : option (list ptag) := Some [[u "Hello"]].

(** A model answer in the requested envelope, streamed in two chunks. *)
Definition enveloped_text : str := u "###
HEADLINE:
My Title

POST:
Body text
###".

Definition enveloped_answer : llm_outcome :=
  {| llm_chunks := [ChunkDict (ChoicesList [Some (u "###
HEADLINE:
My Title

PO")]);
                    ChunkDict (ChoicesList [Some (u "ST:
Body text
###")])];
     llm_error := None |}.

(** A search answer with seven results: valid links, a result without
    link, and a link that is no URL. *)
Definition sample_results : json :=
  JObj [(u "search_metadata", JObj [(u "status", JStr (u "Success"))]);
        (u "organic_results",
         JArr [JObj [(u "position", JNum 1); (u "link", JStr (u "https://a.example/1"))];
               JObj [(u "position", JNum 2)];
               JObj [(u "position", JNum 3); (u "link", JStr (u "ftp-like text"))];
               JObj [(u "position", JNum 4); (u "link", JStr (u "https://a.example/4"))];
               JObj [(u "position", JNum 5); (u "link", JStr (u "https://a.example/5"))];
               JObj [(u "position", JNum 6); (u "link", JStr (u "https://a.example/6"))];
               JObj [(u "position", JNum 7); (u "link", JStr (u "https://a.example/7"))]])].

(** A model answer whose body holds a form feed (U+000C) between two
    pages. *)
Definition form_feed_text : str :=
  u "HEADLINE: Notes POST: page one" ++ [12%N] ++ u "page two".

Definition form_feed_answer : llm_outcome :=
  {| llm_chunks := [ChunkDict (ChoicesList [Some form_feed_text])];
     llm_error := None |}.

(** Pages answer 200 with one paragraph, the search works, the model
    answers in the envelope. *)
Definition good_world : World :=
  const_world (HttpResponse 200 hello_page) (SerpResponse (Some sample_results))
    enveloped_answer.

(** As [good_world], but the model's answers hold a form feed. *)
Definition form_feed_world : World :=
  const_world (HttpResponse 200 hello_page) (SerpResponse (Some sample_results))
    form_feed_answer.

(** Every page answers "300 Multiple Choices" with a body. *)
Definition multiple_choices_world : World :=
  const_world (HttpResponse 300 hello_page) (SerpRaise ConnectionError) enveloped_answer.

(** The model raises a [ValueError] (the prompt exceeds the context window). *)
Definition overflow_world : World :=
  const_world (HttpResponse 200 hello_page) (SerpRaise ConnectionError)
    {| llm_chunks := []; llm_error := Some ValueError |}.

(** The model raises a [RuntimeError] while decoding. *)
Definition decode_error_world : World :=
  const_world (HttpResponse 200 hello_page) (SerpRaise ConnectionError)
    {| llm_chunks := [ChunkDict (ChoicesList [Some (u "###")])];
       llm_error := Some RuntimeError |}.

Definition sample_url : str := u "https://blog.example/post".

(** The first blog times out; every other page answers 200. *)
Definition flaky_world : World :=
  {| http_get := fun _ url =>
       if Py.eqb url (hd [] BLOG_URLS) then HttpRaise Timeout
       else HttpResponse 200 hello_page;
     serp_get := fun _ _ _ _ => SerpResponse (Some sample_results);
     llama_new := fun _ _ => Ok LlamaHandle;
     llm_call := fun _ _ => enveloped_answer;
     validators_url := fun s => startswith (u "http") s;
     validators_url_raises_on_nonstr := false;
     unicode_alnum := fun _ => false |}.

(** A text of [n] characters. *)
Definition long_text (n : Z) : str := repeat 97%N (Z.to_nat n).

Definition sample_label : str := u "Thought Leadership".
Definition sample_instr : str :=
  u "Write a senior thought-leadership piece: big-picture insights, implications, frameworks.".

(* ================================================================= *)
(** * Vocabulary of the statements *)
(* ================================================================= *)

(** [s] occurs in [t]. *)
Definition occurs (sub t : str) : Prop := exists a b, t = a ++ sub ++ b.

(** [t] splits at the first occurrence of [sub] into [a] and [b]. *)
Definition first_split (sub t a b : str) : Prop :=
  t = a ++ sub ++ b /\ forall a' b', t = a' ++ sub ++ b' -> length a <= length a'.

Definition all_space (s : str) : Prop := Forall (fun c => isspace c = true) s.

(** No whitespace at either end. *)
Definition trimmed (s : str) : Prop :=
  match s with [] => True | c :: _ => isspace c = false end /\
  match rev s with [] => True | c :: _ => isspace c = false end.

(** [t] is [s] without its leading and trailing whitespace. *)
Definition is_strip_of (s t : str) : Prop :=
  exists l r, s = l ++ t ++ r /\ all_space l /\ all_space r /\ trimmed t.

(** [a < b] *)
Definition str_lt (a b : str) : Prop := PySort.ltb a b = true.

(** The rows of a sheet of the spreadsheet file, if there is one. *)
Definition rows_of (name : str) (s : state) : option (list row) :=
  match excel_file s with
  | Some wb => wb_getitem name wb
  | None => None
  end.

(** The rows of the "linkedin" sheet. *)
Definition linkedin_rows (s : state) : list row :=
  match rows_of LINKEDIN s with Some rows => rows | None => [] end.

(** The rows of the "serp_debug" sheet; a workbook without the sheet counts
    as one whose sheet has the header only, which is what the first
    [save_serp_debug] makes of it. *)
Definition serp_debug_rows (s : state) : list row :=
  match rows_of SERP_DEBUG s with Some rows => rows | None => [SERP_DEBUG_HEADER] end.

(** The row of the "linkedin" sheet for a variant and its generated post:
    its cells as the sheet keeps them. *)
Definition output_record (url : str) (serp_links : list str) (ents : entities)
           (vp : (str * str) * post) : row :=
  map cell_text
    (linkedin_cells
       {| source_url := url;
          variant := fst (fst vp);
          row_headline := headline (snd vp);
          row_body := body (snd vp);
          serp_emails := emails ents;
          serp_proper_nouns := proper_nouns ents;
          row_serp_links := serp_links |}).

(** The row of the "serp_debug" sheet for an item. *)
Definition debug_record (url : str) (serp_links : list str) (serp_text : str) : row :=
  map cell_text (debug_cells url serp_links serp_text).

(** The results of the blog fetches of a run of the loop over [urls] from
    state [s], one per item reached. *)
Fixpoint blog_fetches (W : World) (E : Env) (llm : Llama) (urls : list str) (s : state)
  : list (result str) :=
  match urls with
  | [] => []
  | url :: rest =>
      fst (scrape_url W url s)
        :: match process_blog W E llm url s with
           | (Ok _, s') => blog_fetches W E llm rest s'
           | (Raise _, _) => []
           end
  end.

Definition fetched_text (r : result str) : bool :=
  match r with Ok t => truthy_str t | Raise _ => false end.

(** How many of the fetches returned a non-empty text. *)
Definition count_fetched (l : list (result str)) : nat :=
  length (filter fetched_text l).

(** What an iteration of the loop that ended normally in [s'] has written:
    nothing if the blog fetch gave the empty text; otherwise one row of
    "serp_debug" and one row of "linkedin" per variant, in the order of
    [VARIANTS]. *)
Definition item_rows (W : World) (E : Env) (llm : Llama) (url : str) (s s' : state) : Prop :=
  exists text,
    fst (scrape_url W url s) = Ok text
    /\ (text = [] ->
        linkedin_rows s' = linkedin_rows s
        /\ serp_debug_rows s' = serp_debug_rows s
        /\ excel_file s' = excel_file s)
    /\ (text <> [] ->
        exists serp_links serp_text posts,
          length posts = length VARIANTS
          /\ linkedin_rows s' =
               linkedin_rows s
                 ++ map (output_record url serp_links
                           (extract_entities (unicode_alnum W) serp_text))
                        (combine VARIANTS posts)
          /\ serp_debug_rows s' =
               serp_debug_rows s ++ [debug_record url serp_links serp_text]).

(** What a loop over [urls] from [s] that ended normally in [s'] has
    written: every item was reached, and per fetch with a non-empty text
    there are one new row of "serp_debug" and [length VARIANTS] new rows of
    "linkedin". *)
Definition loop_rows (W : World) (E : Env) (llm : Llama) (urls : list str)
           (s s' : state) : Prop :=
  let fetches := blog_fetches W E llm urls s in
  length fetches = length urls
  /\ exists new_linkedin new_debug,
       linkedin_rows s' = linkedin_rows s ++ new_linkedin
       /\ length new_linkedin = length VARIANTS * count_fetched fetches
       /\ serp_debug_rows s' = serp_debug_rows s ++ new_debug
       /\ length new_debug = count_fetched fetches.

(** What a run of [main] from [s0] that ended normally in [s_end] has
    written after the initialization: nothing if the model did not load,
    and otherwise the rows of the loop over [BLOG_URLS]. *)
Definition run_rows (W : World) (E : Env) (s0 s_end : state) : Prop :=
  exists s1,
    init_excel s0 = (Ok tt, s1)
    /\ ((exists s2, load_llm W E s1 = (Ok None, s2) /\ s_end = s2
                    /\ excel_file s_end = excel_file s1)
        \/ (exists llm s2,
               load_llm W E s1 = (Ok (Some llm), s2)
               /\ excel_file s2 = excel_file s1
               /\ loop_rows W E llm BLOG_URLS s2 s_end)).

(** A row openpyxl does not take: one of its cells, cut to the length of
    a cell, holds a refused character. *)
Definition refused (r : row) : Prop :=
  exists value c, In value r /\ In c (cell_text value) /\ is_illegal c = true.

(** The "linkedin" sheet is there. *)
Definition has_linkedin (s : state) : Prop :=
  exists rows, rows_of LINKEDIN s = Some rows.

(** [q] is a prefix of [p]. *)
Definition prefix_of (q p : str) : Prop := exists rest, p = q ++ rest.

(** ** Vocabulary of the further properties *)

(** The shape of a row the script may append to the sheet [name]: seven
    cells in "linkedin"; three cells, the last of at most 5000 characters,
    in "serp_debug"; no row at all in another sheet. *)
Definition ok_row (name : str) (r : row) : Prop :=
  if Py.eqb name LINKEDIN then length r = 7
  else if Py.eqb name SERP_DEBUG
       then length r = 3 /\ (len (nth 2 r []) <= 5000)%Z
       else False.

(** From [s] to [s'] every sheet has kept its rows, in their order, and has
    only gained rows of the shape of its kind at the end. *)
Definition grows (s s' : state) : Prop :=
  forall name rows,
    rows_of name s = Some rows ->
    exists extra, rows_of name s' = Some (rows ++ extra) /\ Forall (ok_row name) extra.

(** The model cannot be loaded: no path, an empty path, a path that does
    not exist, or no [llama_cpp]. *)
Definition no_model (E : Env) : Prop :=
  match LLAMA_MODEL_PATH E with
  | None => True
  | Some path =>
      path = [] \/ path_exists E path = false \/ llama_cpp_imported E = false
  end.

(** A sample workbook of an earlier version: no "serp_debug" sheet, and a
    sheet of the user's own. *)
Definition legacy_workbook : workbook :=
  [(LINKEDIN, [LINKEDIN_HEADER]); (u "notes", [[u "keep me"]])].

Definition legacy_state : state := {| calls := 0; excel_file := Some legacy_workbook |}.

(** A row whose body holds a form feed (U+000C). *)
Definition form_feed_row : output_row :=
  {| source_url := sample_url;
     variant := sample_label;
     row_headline := u "Notes";
     row_body := u "page one" ++ [12%N] ++ u "page two";
     serp_emails := [];
     serp_proper_nouns := [];
     row_serp_links := [] |}.

(** The texts a pattern can match, a word boundary read as the empty
    text. *)
Inductive denotes : Re.regex -> str -> Prop :=
| den_class ranges c : Re.in_class ranges c = true -> denotes (Re.Class ranges) [c]
| den_lit c : denotes (Re.Lit c) [c]
| den_seq r1 r2 m1 m2 :
    denotes r1 m1 -> denotes r2 m2 -> denotes (Re.Seq r1 r2) (m1 ++ m2)
| den_star_nil r : denotes (Re.Star r) []
| den_star_cons r m ms :
    denotes r m -> denotes (Re.Star r) ms -> denotes (Re.Star r) (m ++ ms)
| den_wordb : denotes Re.WordB [].

Definition is_upper (c : char) : bool := ((65 <=? c) && (c <=? 90))%N.
Definition is_lower (c : char) : bool := ((97 <=? c) && (c <=? 122))%N.
Definition is_digit (c : char) : bool := ((48 <=? c) && (c <=? 57))%N.
Definition is_letter (c : char) : bool := is_upper c || is_lower c.

(** The characters of the local part and of the domain of an e-mail. *)
Definition is_local_char (c : char) : bool :=
  is_letter c || is_digit c
  || (c =? 46)%N || (c =? 95)%N || (c =? 37)%N || (c =? 43)%N || (c =? 45)%N.
Definition is_domain_char (c : char) : bool :=
  is_letter c || is_digit c || (c =? 46)%N || (c =? 45)%N.

(** [x] is [local@domain.tld]: non-empty local part and domain of the
    allowed characters, at least two letters after the last dot. *)
Definition email_shape (x : str) : Prop :=
  exists local domain tld,
    x = local ++ [64%N] ++ domain ++ [46%N] ++ tld
    /\ local <> [] /\ Forall (fun c => is_local_char c = true) local
    /\ domain <> [] /\ Forall (fun c => is_domain_char c = true) domain
    /\ 2 <= length tld /\ Forall (fun c => is_letter c = true) tld.

(** An upper-case letter followed by one or more lower-case letters. *)
Definition cap_word (w : str) : Prop :=
  exists c rest,
    w = c :: rest /\ is_upper c = true
    /\ rest <> [] /\ Forall (fun c => is_lower c = true) rest.

(** One or more capitalized words separated by single spaces. *)
Definition proper_noun_shape (x : str) : Prop :=
  exists w ws, x = join [32%N] (w :: ws) /\ Forall cap_word (w :: ws).

(** The link of a search result, if it is a string. *)
Definition link_of (item : json) : list str :=
  match item with
  | JObj members =>
      match assoc (u "link") members with
      | Some (JStr x) => [x]
      | _ => []
      end
  | _ => []
  end.

(** A search result the loop of [serpapi_search] passes without raising:
    an object whose link is absent, a string, falsy, or a truthy value
    that [validators.url] rejects without raising. *)
Definition harmless (W : World) (item : json) : bool :=
  match item with
  | JObj members =>
      match assoc (u "link") members with
      | None => true
      | Some (JStr _) => true
      | Some v => negb (truthy v && validators_url_raises_on_nonstr W)
      end
  | _ => false
  end.

(** Search results with a repeated link, a result without link and an
    empty link. *)
Definition tidy_list : list json :=
  [JObj [(u "link", JStr (u "https://a.example/1"))];
   JObj [(u "title", JStr (u "no link"))];
   JObj [(u "link", JStr [])];
   JObj [(u "link", JStr (u "https://a.example/1"))]].

Definition tidy_world : World :=
  const_world (HttpResponse 200 hello_page)
    (SerpResponse (Some (JObj [(u "organic_results", JArr tidy_list)])))
    enveloped_answer.

(** Search results of which the third is [null]. *)
Definition broken_list : list json :=
  [JObj [(u "link", JStr (u "https://a.example/1"))];
   JObj [(u "link", JStr (u "https://a.example/2"))];
   JNull].

Definition broken_world : World :=
  const_world (HttpResponse 200 hello_page)
    (SerpResponse (Some (JObj [(u "organic_results", JArr broken_list)])))
    enveloped_answer.

(** A model answer with the text of [enveloped_answer] in one chunk, among
    chunks the loop passes over. *)
Definition noisy_answer : llm_outcome :=
  {| llm_chunks :=
       [ChunkNotDict;
        ChunkDict ChoicesMissing;
        ChunkDict ChoicesNotList;
        ChunkDict (ChoicesList []);
        ChunkDict (ChoicesList [None; Some (u "never read")]);
        ChunkDict (ChoicesList [Some enveloped_text; Some (u "second choice")])];
     llm_error := None |}.

Definition noisy_world : World :=
  const_world (HttpResponse 200 hello_page) (SerpRaise ConnectionError) noisy_answer.

(** From [s] to [s'] a workbook that has the "serp_debug" sheet keeps its
    sheets and their order. *)
Definition same_sheets (s s' : state) : Prop :=
  forall wb,
    excel_file s = Some wb ->
    PySort.mem SERP_DEBUG (sheetnames wb) = true ->
    exists wb', excel_file s' = Some wb' /\ sheetnames wb' = sheetnames wb.

(** The workbook [init_excel] writes. *)
Definition new_workbook : workbook := [(LINKEDIN, [LINKEDIN_HEADER]); (SERP_DEBUG, [])].

(** An environment without a model path. *)
Definition env_without_model : Env :=
  {| SERPAPI_KEY := Some (u "secret");
     LLAMA_MODEL_PATH := None;
     path_exists := fun _ => true;
     llama_cpp_imported := true |}.

(** The measure [m] of the state does not decrease from [s] to [s'] and
    increases by at most [k]. *)
Definition within (m : state -> nat) (k : nat) (s s' : state) : Prop :=
  m s <= m s' <= m s + k.

(** Numbers of rows of the two sheets. *)
Definition n_linkedin (s : state) : nat := length (linkedin_rows s).
Definition n_serp_debug (s : state) : nat := length (serp_debug_rows s).

(** From [s] to [s'] no row was lost, and per new row of "serp_debug"
    there are at most three new rows of "linkedin". *)
Definition debug_first (s s' : state) : Prop :=
  n_serp_debug s <= n_serp_debug s'
  /\ n_linkedin s <= n_linkedin s'
  /\ n_linkedin s' - n_linkedin s <= 3 * (n_serp_debug s' - n_serp_debug s).

(* ================================================================= *)
(** * Facts about the string operations *)
(* ================================================================= *)

Lemma eqb_eq a b : Py.eqb a b = true <-> a = b.
Proof. unfold Py.eqb; destruct (list_eq_dec N.eq_dec a b); split; congruence. Qed.

Lemma eqb_neq a b : Py.eqb a b = false <-> a <> b.
Proof. unfold Py.eqb; destruct (list_eq_dec N.eq_dec a b); split; congruence. Qed.

Lemma slice_to_nonneg {A} (s : list A) (n : Z) :
  (0 <= n)%Z -> slice_to s n = firstn (Z.to_nat n) s.
Proof. intros H; unfold slice_to; destruct (Z.leb_spec 0 n); [reflexivity | lia]. Qed.

Lemma len_app a b : len (a ++ b) = (len a + len b)%Z.
Proof. unfold len; rewrite length_app; lia. Qed.

Lemma len_nonneg a : (0 <= len a)%Z.
Proof. unfold len; lia. Qed.

Lemma len_slice_to (s : str) (n : Z) :
  (0 <= n)%Z -> len (slice_to s n) = Z.min n (len s).
Proof.
  intros H; rewrite slice_to_nonneg by assumption.
  unfold len; rewrite length_firstn; lia.
Qed.

Lemma slice_to_prefix (s : str) (n : Z) : prefix_of (slice_to s n) s.
Proof.
  unfold slice_to; destruct (0 <=? n)%Z;
    eexists; symmetry; apply firstn_skipn.
Qed.

Lemma slice_to_slice_to (s : str) (n : Z) :
  (0 <= n)%Z -> slice_to (slice_to s n) n = slice_to s n.
Proof.
  intros H; rewrite !slice_to_nonneg by assumption.
  rewrite firstn_firstn; f_equal; lia.
Qed.

Lemma startswith_app p r : startswith p (p ++ r) = true.
Proof. induction p as [|a p IH]; simpl; [reflexivity|]. now rewrite N.eqb_refl. Qed.

Lemma startswith_elim p s : startswith p s = true -> exists r, s = p ++ r.
Proof.
  revert s; induction p as [|a p IH]; intros s H; simpl in *.
  - now exists s.
  - destruct s as [|b s]; [discriminate|].
    apply andb_true_iff in H; destruct H as [Hab H].
    apply N.eqb_eq in Hab; subst b.
    destruct (IH _ H) as [r ->]. now exists r.
Qed.

Lemma find_eq sub s :
  find sub s =
  if startswith sub s then Some 0
  else match s with [] => None | _ :: t => option_map S (find sub t) end.
Proof. destruct s; reflexivity. Qed.

Lemma find_Some sub s i :
  find sub s = Some i -> s = firstn i s ++ sub ++ skipn (i + length sub) s.
Proof.
  revert i; induction s as [|c t IH]; intros i H; rewrite find_eq in H.
  - destruct (startswith sub []) eqn:Hs; [|discriminate].
    injection H as <-. apply startswith_elim in Hs; destruct Hs as [r Hr].
    simpl. rewrite Hr at 1. f_equal.
    rewrite Hr. now rewrite skipn_app, skipn_all, Nat.sub_diag.
  - destruct (startswith sub (c :: t)) eqn:Hs.
    + injection H as <-. apply startswith_elim in Hs; destruct Hs as [r Hr].
      simpl firstn. simpl app at 1. simpl Nat.add.
      rewrite Hr. now rewrite skipn_app, skipn_all, Nat.sub_diag.
    + destruct (find sub t) as [j|] eqn:Hf; [|discriminate].
      injection H as <-. simpl. f_equal. now apply IH.
Qed.

Lemma find_least sub s i :
  find sub s = Some i -> forall a b, s = a ++ sub ++ b -> i <= length a.
Proof.
  revert i; induction s as [|c t IH]; intros i H a b E; rewrite find_eq in H.
  - destruct (startswith sub []); [injection H as <-; lia | discriminate].
  - destruct (startswith sub (c :: t)) eqn:Hs; [injection H as <-; lia|].
    destruct (find sub t) as [j|] eqn:Hf; [|discriminate]. injection H as <-.
    destruct a as [|x a].
    + simpl in E. rewrite E, startswith_app in Hs. discriminate.
    + simpl in E. injection E as _ E. specialize (IH j eq_refl a b E). simpl; lia.
Qed.

Lemma find_None sub s : find sub s = None -> ~ occurs sub s.
Proof.
  induction s as [|c t IH]; intros H [a [b E]]; rewrite find_eq in H.
  - destruct (startswith sub []) eqn:Hs; [discriminate|].
    destruct a; [|discriminate]. simpl in E. rewrite E, startswith_app in Hs. discriminate.
  - destruct (startswith sub (c :: t)) eqn:Hs; [discriminate|].
    destruct (find sub t) eqn:Hf; [discriminate|].
    destruct a as [|x a].
    + simpl in E. rewrite E, startswith_app in Hs. discriminate.
    + simpl in E. injection E as _ E. apply IH; [reflexivity | now exists a, b].
Qed.

Lemma find_first_split sub s i :
  find sub s = Some i -> first_split sub s (firstn i s) (skipn (i + length sub) s).
Proof.
  intros H; split; [now apply find_Some|].
  intros a' b' E. pose proof (find_least _ _ _ H _ _ E) as L.
  rewrite length_firstn; lia.
Qed.

Lemma contains_occurs sub s : contains sub s = true <-> occurs sub s.
Proof.
  unfold contains; destruct (find sub s) as [i|] eqn:H; split; intros G; try reflexivity.
  - exists (firstn i s), (skipn (i + length sub) s); now apply find_Some.
  - discriminate.
  - exfalso; now apply (find_None _ _ H).
Qed.

Lemma first_split_unique sub t a b a' b' :
  first_split sub t a b -> first_split sub t a' b' -> a = a' /\ b = b'.
Proof.
  intros [E L] [E' L'].
  assert (Hl : length a = length a') by (specialize (L _ _ E'); specialize (L' _ _ E); lia).
  assert (Ha : a = a').
  { rewrite E in E'. apply (f_equal (firstn (length a))) in E'.
    rewrite firstn_app, firstn_all, Nat.sub_diag, firstn_O, app_nil_r in E'.
    rewrite Hl in E'. rewrite firstn_app, firstn_all, Nat.sub_diag, firstn_O, app_nil_r in E'.
    exact E'. }
  split; [exact Ha|]. subst a'. rewrite E in E'.
  apply app_inv_head in E'. now apply app_inv_head in E'.
Qed.

Lemma lstrip_spec s :
  exists l, s = l ++ lstrip s /\ all_space l /\
            match lstrip s with [] => True | c :: _ => isspace c = false end.
Proof.
  induction s as [|c t IH]; simpl.
  - exists []; repeat split; constructor.
  - destruct (isspace c) eqn:Hc.
    + destruct IH as [l [E [Hl Hh]]]. exists (c :: l); repeat split.
      * simpl; now f_equal.
      * now constructor.
      * exact Hh.
    + exists []; repeat split; [constructor | exact Hc].
Qed.

Lemma all_space_rev s : all_space s -> all_space (rev s).
Proof. unfold all_space; apply Forall_rev. Qed.

Lemma strip_spec s : is_strip_of s (strip s).
Proof.
  unfold strip, rstrip.
  destruct (lstrip_spec s) as [l [E [Hl Hh]]].
  destruct (lstrip_spec (rev (lstrip s))) as [r0 [E0 [Hr0 Hh0]]].
  set (t := lstrip s) in *. set (w := lstrip (rev t)) in *.
  assert (Et : t = rev w ++ rev r0).
  { rewrite <- (rev_involutive t), E0. now rewrite rev_app_distr. }
  exists l, (rev r0); repeat split.
  - now rewrite <- Et.
  - exact Hl.
  - now apply all_space_rev.
  - destruct (rev w) as [|c rw] eqn:Hrw; [exact I|].
    rewrite Et in Hh. exact Hh.
  - rewrite rev_involutive. exact Hh0.
Qed.

Lemma join_cons sep x l :
  l <> [] -> join sep (x :: l) = x ++ sep ++ join sep l.
Proof. destruct l; [congruence | reflexivity]. Qed.

Lemma join_nil_concat l : join [] l = concat l.
Proof.
  induction l as [|x l IH]; [reflexivity|].
  destruct l as [|y l]; [simpl; now rewrite app_nil_r|].
  rewrite join_cons by discriminate. rewrite IH. reflexivity.
Qed.

(** [replace] deletes (or replaces) exactly the occurrences of [old] that a
    left-to-right scan meets: the text is the pieces between them joined by
    [old], the result the same pieces joined by [new], and no piece has an
    occurrence of [old] left. *)
Lemma replace_from_pieces old new :
  old <> [] ->
  forall fuel s, length s <= fuel ->
    exists pieces,
      pieces <> [] /\ s = join old pieces /\
      replace_from fuel old new s = join new pieces /\
      Forall (fun p => ~ occurs old p) pieces.
Proof.
  intros Hold. induction fuel as [|f IH]; intros s Hlen.
  - destruct s; [|simpl in Hlen; lia]. simpl.
    exists [[]]; repeat split; try discriminate.
    constructor; [|constructor]. intros [a [b E]].
    destruct a; [|discriminate]. destruct old; [congruence | discriminate].
  - simpl. destruct (find old s) as [i|] eqn:Hf.
    + pose proof (find_Some _ _ _ Hf) as E.
      pose proof (find_least _ _ _ Hf) as L.
      assert (Hold' : 0 < length old) by (destruct old; [congruence | simpl; lia]).
      assert (Hi : i + length old <= length s).
      { pose proof (f_equal (@length _) E) as EL.
        rewrite !length_app, length_firstn, length_skipn in EL. lia. }
      destruct (IH (skipn (i + length old) s)) as [ps [Hne [Ej [Er Hall]]]].
      { rewrite length_skipn. lia. }
      exists (firstn i s :: ps); repeat split.
      * discriminate.
      * rewrite join_cons by assumption. now rewrite <- Ej.
      * rewrite join_cons by assumption. now rewrite <- Er.
      * constructor; [|assumption]. intros [a [b Eab]].
        assert (i <= length a).
        { apply (L a (b ++ old ++ skipn (i + length old) s)).
          rewrite E at 1. rewrite Eab. now rewrite <- !app_assoc. }
        apply (f_equal (@length _)) in Eab. rewrite !length_app, length_firstn in Eab. lia.
    + exists [s]; repeat split; try discriminate.
      constructor; [|constructor]. now apply find_None.
Qed.

Lemma replace_pieces old new s :
  old <> [] ->
  exists pieces,
    s = join old pieces /\ replace old new s = join new pieces /\
    Forall (fun p => ~ occurs old p) pieces.
Proof.
  intros H. destruct (replace_from_pieces old new H (length s) s (le_n _))
    as [ps [_ [E [R F]]]].
  exists ps; auto.
Qed.

Lemma parse_generation_split full_text head_part post_part :
  first_split POST_MARK full_text head_part post_part ->
  parse_generation full_text =
    Ok {| headline := strip (replace HEADLINE_MARK [] head_part);
          body := strip post_part |}.
Proof.
  intros Hs. unfold parse_generation, contains, split1.
  destruct (find POST_MARK full_text) as [i|] eqn:Hf.
  - destruct (first_split_unique _ _ _ _ _ _ Hs (find_first_split _ _ _ Hf)) as [-> ->].
    reflexivity.
  - exfalso. apply (find_None _ _ Hf). destruct Hs as [E _]. now exists head_part, post_part.
Qed.

Lemma parse_generation_fallback full_text :
  ~ occurs POST_MARK full_text ->
  parse_generation full_text =
    Ok {| headline := u "LinkedIn Post"; body := strip full_text |}.
Proof.
  intros Hn. unfold parse_generation.
  destruct (contains POST_MARK full_text) eqn:Hc; [|reflexivity].
  exfalso. apply Hn. now apply contains_occurs.
Qed.

Lemma occurs_first_split sub t :
  occurs sub t -> exists a b, first_split sub t a b.
Proof.
  intros H. destruct (find sub t) as [i|] eqn:Hf.
  - exists (firstn i t), (skipn (i + length sub) t). now apply find_first_split.
  - exfalso. now apply (find_None _ _ Hf).
Qed.

(* ================================================================= *)
(** * The prompt: truncation (C5) and the lost envelope instruction (C10) *)
(* ================================================================= *)

Lemma len_PROMPT_1 : len PROMPT_1 = 114%Z.
Proof. vm_compute. reflexivity. Qed.

Lemma len_PROMPT_2 : len PROMPT_2 = 20%Z.
Proof. vm_compute. reflexivity. Qed.

Lemma len_PROMPT_3 : len PROMPT_3 = 1057%Z.
Proof. vm_compute. reflexivity. Qed.

Lemma len_PROMPT_4_CLOSE : len PROMPT_4_CLOSE = 11%Z.
Proof. vm_compute. reflexivity. Qed.

Lemma len_PROMPT_4_ENVELOPE : len PROMPT_4_ENVELOPE = 299%Z.
Proof. vm_compute. reflexivity. Qed.

Lemma len_NLNL : len NLNL = 2%Z.
Proof. reflexivity. Qed.

(** Lengths of concatenations of template pieces are computed by rewriting. *)
Create Rewrite HintDb prompt_len.
#[local] Hint Rewrite len_app len_PROMPT_1 len_PROMPT_2 len_PROMPT_3
  len_PROMPT_4_CLOSE len_PROMPT_4_ENVELOPE len_NLNL : prompt_len.

Ltac prompt_len := autorewrite with prompt_len; try lia.

Lemma final_trim_prompt_long (p : str) (n : Z) :
  (0 <= n)%Z -> (n < len p)%Z ->
  final_trim_prompt p n = slice_to p n /\
  len (final_trim_prompt p n) = n /\
  prefix_of (final_trim_prompt p n) p.
Proof.
  intros H0 H. unfold final_trim_prompt.
  destruct (Z.leb_spec (len p) n); [lia|].
  repeat split.
  - rewrite len_slice_to by assumption. lia.
  - apply slice_to_prefix.
Qed.

Lemma final_trim_prompt_short (p : str) (n : Z) :
  (len p <= n)%Z -> final_trim_prompt p n = p.
Proof.
  intros H. unfold final_trim_prompt.
  destruct (Z.leb_spec (len p) n); [reflexivity | lia].
Qed.

Lemma compose_prompt_eq label instr blog serp :
  compose_prompt label instr blog serp =
  PROMPT_1 ++ label ++ PROMPT_2 ++ instr ++ PROMPT_3
    ++ (slice_to blog 5000 ++ NLNL ++ slice_to serp 7000) ++ PROMPT_4.
Proof. reflexivity. Qed.

(** C5.  Prompt composition cuts its inputs and its output by characters:
    the composed prompt is the template around the first 5000 characters of
    the blog text and the first 7000 characters of the enrichment text, so
    it is the same for any two inputs that agree on those prefixes; a
    composed prompt (indeed any prompt) longer than 7000 characters is
    trimmed to exactly 7000 characters, a prefix of the untrimmed text; one
    of at most 7000 characters is returned unchanged. *)
Theorem C5_prompt_truncation :
  forall label instr blog serp : str,
    let composed := compose_prompt label instr blog serp in
    let final := build_prompt label instr blog serp in
    composed = PROMPT_1 ++ label ++ PROMPT_2 ++ instr ++ PROMPT_3
                 ++ (slice_to blog 5000 ++ NLNL ++ slice_to serp 7000) ++ PROMPT_4
    /\ (len (slice_to blog 5000) = Z.min 5000 (len blog)
        /\ prefix_of (slice_to blog 5000) blog)
    /\ (len (slice_to serp 7000) = Z.min 7000 (len serp)
        /\ prefix_of (slice_to serp 7000) serp)
    /\ (forall blog' serp',
           slice_to blog' 5000 = slice_to blog 5000 ->
           slice_to serp' 7000 = slice_to serp 7000 ->
           compose_prompt label instr blog' serp' = composed
           /\ build_prompt label instr blog' serp' = final)
    /\ final = final_trim_prompt composed 7000
    /\ (forall p : str,
           ((7000 < len p)%Z ->
              len (final_trim_prompt p 7000) = 7000%Z
              /\ prefix_of (final_trim_prompt p 7000) p)
           /\ ((len p <= 7000)%Z -> final_trim_prompt p 7000 = p)).
Proof.
  intros label instr blog serp composed final.
  split; [apply compose_prompt_eq|].
  split; [split; [apply len_slice_to; lia | apply slice_to_prefix]|].
  split; [split; [apply len_slice_to; lia | apply slice_to_prefix]|].
  split.
  { intros blog' serp' Hb Hs.
    assert (Hc : compose_prompt label instr blog' serp' = composed).
    { unfold composed. rewrite !compose_prompt_eq, Hb, Hs. reflexivity. }
    split; [exact Hc|]. unfold final, build_prompt. now rewrite Hc. }
  split; [reflexivity|].
  intros p; split.
  - intros Hp. destruct (final_trim_prompt_long p 7000) as [_ [Hl Hpre]]; [lia | exact Hp |].
    now split.
  - apply final_trim_prompt_short.
Qed.

Lemma C5_prompt_truncation_witness :
  len (final_trim_prompt
         (compose_prompt sample_label sample_instr (long_text 6000) (long_text 8000)) 7000)
    = 7000%Z
  /\ prefix_of
       (final_trim_prompt
          (compose_prompt sample_label sample_instr (long_text 6000) (long_text 8000)) 7000)
       (compose_prompt sample_label sample_instr (long_text 6000) (long_text 8000)).
Proof.
  destruct (C5_prompt_truncation sample_label sample_instr (long_text 6000) (long_text 8000))
    as (_ & _ & _ & _ & _ & H).
  apply (proj1 (H (compose_prompt sample_label sample_instr (long_text 6000) (long_text 8000)))).
  vm_compute. reflexivity.
Defined.

Lemma len_compose_prompt label instr blog serp :
  len (compose_prompt label instr blog serp) =
  (1501 + len label + len instr
   + len (slice_to blog 5000 ++ NLNL ++ slice_to serp 7000))%Z.
Proof.
  rewrite compose_prompt_eq. unfold PROMPT_4. prompt_len.
Qed.

Lemma slice_to_app_prefix (l1 l2 : str) (n : Z) :
  (0 <= n <= len l1)%Z -> slice_to (l1 ++ l2) n = slice_to l1 n.
Proof.
  intros H. rewrite !slice_to_nonneg by lia. rewrite firstn_app.
  replace (Z.to_nat n - length l1) with 0 by (unfold len in H; lia).
  now rewrite firstn_O, app_nil_r.
Qed.

Lemma envelope_cut label instr blog serp :
  let combined := slice_to blog 5000 ++ NLNL ++ slice_to serp 7000 in
  let before_envelope :=
    PROMPT_1 ++ label ++ PROMPT_2 ++ instr ++ PROMPT_3 ++ combined ++ PROMPT_4_CLOSE in
  (5798 <= len label + len instr + len combined)%Z ->
  (7000 < len (compose_prompt label instr blog serp))%Z
  /\ len (build_prompt label instr blog serp) = 7000%Z
  /\ prefix_of (build_prompt label instr blog serp) before_envelope.
Proof.
  intros combined before_envelope H.
  assert (Hlen : (7000 < len (compose_prompt label instr blog serp))%Z).
  { rewrite len_compose_prompt. fold combined. lia. }
  split; [exact Hlen|].
  destruct (final_trim_prompt_long (compose_prompt label instr blog serp) 7000)
    as [Heq [Hl _]]; [lia | exact Hlen |].
  split; [exact Hl|].
  unfold build_prompt. rewrite Heq.
  assert (Hc : compose_prompt label instr blog serp = before_envelope ++ PROMPT_4_ENVELOPE).
  { rewrite compose_prompt_eq. unfold before_envelope, PROMPT_4. fold combined.
    now rewrite <- !app_assoc. }
  rewrite Hc, slice_to_app_prefix; [apply slice_to_prefix|].
  unfold before_envelope. prompt_len.
Qed.

Lemma VARIANTS_lengths :
  forall v, In v VARIANTS -> (106 <= len (fst v) + len (snd v))%Z.
Proof.
  intros v [<- | [<- | [<- | []]]]; vm_compute; discriminate.
Qed.

(** C10.  The background is embedded in the middle of the template, before
    the output-structure instruction.  The text before that instruction has
    1202 characters plus the label, the style instruction and the
    background; so as soon as label, instruction and background together
    reach 5798 characters (for the three configured variants: as soon as the
    background reaches 5692; always when both inputs fill their budgets,
    the background then having 12002 characters), the composed prompt is
    longer than 7000 characters and the prompt sent to the model, its first
    7000 characters, is a prefix of the text before "Follow this EXACT
    output structure": nothing of the instruction is sent. *)
Theorem C10_envelope_instruction_cut :
  forall label instr blog serp : str,
    let combined := slice_to blog 5000 ++ NLNL ++ slice_to serp 7000 in
    let before_envelope :=
      PROMPT_1 ++ label ++ PROMPT_2 ++ instr ++ PROMPT_3 ++ combined ++ PROMPT_4_CLOSE in
    let cut :=
      (7000 < len (compose_prompt label instr blog serp))%Z
      /\ len (build_prompt label instr blog serp) = 7000%Z
      /\ prefix_of (build_prompt label instr blog serp) before_envelope in
    compose_prompt label instr blog serp = before_envelope ++ PROMPT_4_ENVELOPE
    /\ startswith (u "Follow this EXACT output structure") PROMPT_4_ENVELOPE = true
    /\ len before_envelope = (1202 + len label + len instr + len combined)%Z
    /\ ((5798 <= len label + len instr + len combined)%Z -> cut)
    /\ ((5798 <= len combined)%Z -> cut)
    /\ (In (label, instr) VARIANTS -> (5692 <= len combined)%Z -> cut)
    /\ ((5000 <= len blog)%Z -> (7000 <= len serp)%Z ->
        len combined = 12002%Z /\ cut).
Proof.
  intros label instr blog serp combined before_envelope cut.
  split.
  { rewrite compose_prompt_eq. unfold before_envelope, PROMPT_4. fold combined.
    now rewrite <- !app_assoc. }
  split; [vm_compute; reflexivity|].
  split.
  { unfold before_envelope. prompt_len. }
  split; [apply envelope_cut|].
  split.
  { intros H. apply envelope_cut. fold combined.
    pose proof (len_nonneg label); pose proof (len_nonneg instr). lia. }
  split.
  { intros Hv H. apply envelope_cut. fold combined.
    pose proof (VARIANTS_lengths _ Hv) as L. simpl in L. lia. }
  intros Hb Hs.
  assert (Hc : len combined = 12002%Z).
  { unfold combined. rewrite !len_app, !len_slice_to, len_NLNL by lia. lia. }
  split; [exact Hc|]. apply envelope_cut. fold combined.
  pose proof (len_nonneg label); pose proof (len_nonneg instr). lia.
Qed.

Lemma C10_envelope_instruction_cut_witness :
  len (slice_to (long_text 5000) 5000 ++ NLNL ++ slice_to (long_text 7000) 7000) = 12002%Z
  /\ (7000 < len (compose_prompt sample_label sample_instr (long_text 5000) (long_text 7000)))%Z
  /\ len (build_prompt sample_label sample_instr (long_text 5000) (long_text 7000)) = 7000%Z
  /\ prefix_of
       (build_prompt sample_label sample_instr (long_text 5000) (long_text 7000))
       (PROMPT_1 ++ sample_label ++ PROMPT_2 ++ sample_instr ++ PROMPT_3
          ++ (slice_to (long_text 5000) 5000 ++ NLNL ++ slice_to (long_text 7000) 7000)
          ++ PROMPT_4_CLOSE).
Proof.
  destruct (C10_envelope_instruction_cut sample_label sample_instr
              (long_text 5000) (long_text 7000))
    as (_ & _ & _ & _ & _ & _ & H).
  apply H; vm_compute; discriminate.
Defined.

(* ================================================================= *)
(** * Parsing the generated text (C3, C9) *)
(* ================================================================= *)

(** C3.  A generated text in which "POST:" occurs splits at the first
    occurrence.  The part before it is a sequence of pieces separated by
    "HEADLINE:", none of which has an occurrence of "HEADLINE:" left; the
    headline is the concatenation of the pieces (the part with every
    "HEADLINE:" removed, and nothing else) without the whitespace at its
    two ends, and the body is the part after the first "POST:" without the
    whitespace at its two ends.  A text without "POST:" gives the headline
    "LinkedIn Post" and as body the whole text without the whitespace at
    its two ends. *)
Theorem C3_parse_generation :
  forall full_text : str,
    (occurs POST_MARK full_text ->
       exists head_part post_part, first_split POST_MARK full_text head_part post_part)
    /\ (forall head_part post_part,
          first_split POST_MARK full_text head_part post_part ->
          exists pieces h b,
            parse_generation full_text = Ok {| headline := h; body := b |}
            /\ h = strip (replace HEADLINE_MARK [] head_part)
            /\ b = strip post_part
            /\ head_part = join HEADLINE_MARK pieces
            /\ Forall (fun p => ~ occurs HEADLINE_MARK p) pieces
            /\ is_strip_of (concat pieces) h
            /\ is_strip_of post_part b)
    /\ (~ occurs POST_MARK full_text ->
          exists b,
            parse_generation full_text = Ok {| headline := u "LinkedIn Post"; body := b |}
            /\ b = strip full_text
            /\ is_strip_of full_text b).
Proof.
  intros full_text. split; [|split].
  - apply occurs_first_split.
  - intros head_part post_part Hs.
    destruct (replace_pieces HEADLINE_MARK [] head_part) as [ps [Ej [Er Hall]]];
      [discriminate|].
    exists ps, (strip (replace HEADLINE_MARK [] head_part)), (strip post_part).
    split; [now apply parse_generation_split|].
    split; [reflexivity|]. split; [reflexivity|].
    split; [exact Ej|]. split; [exact Hall|].
    split; [|apply strip_spec].
    rewrite <- join_nil_concat, <- Er. apply strip_spec.
  - intros Hn. exists (strip full_text).
    split; [now apply parse_generation_fallback|].
    split; [reflexivity | apply strip_spec].
Qed.

Lemma C3_parse_generation_witness :
  exists pieces h b,
    parse_generation enveloped_text = Ok {| headline := h; body := b |}
    /\ h = strip (replace HEADLINE_MARK [] (firstn 24 enveloped_text))
    /\ b = strip (skipn (24 + length POST_MARK) enveloped_text)
    /\ firstn 24 enveloped_text = join HEADLINE_MARK pieces
    /\ Forall (fun p => ~ occurs HEADLINE_MARK p) pieces
    /\ is_strip_of (concat pieces) h
    /\ is_strip_of (skipn (24 + length POST_MARK) enveloped_text) b.
Proof.
  apply (proj1 (proj2 (C3_parse_generation enveloped_text))).
  apply find_first_split. reflexivity.
Defined.

(** The model's stream is folded into [full_text] and parsed by
    [parse_generation] when the stream ends without an exception. *)
Lemma generate_one_variant_parses W llm label instr blog serp s :
  let out := llm_call W (calls s) (build_prompt label instr blog serp) in
  llm_error out = None ->
  generate_one_variant W llm label instr blog serp s =
    (parse_generation
       (fold_left (fun acc c => acc ++ chunk_token c) (llm_chunks out) []),
     tick s).
Proof.
  intros out H. unfold generate_one_variant, bind, external. fold out. rewrite H.
  reflexivity.
Qed.

(** C9.  Of the envelope only "HEADLINE:" (on the headline side) and the
    splitting "POST:" are removed.  The part before "POST:" is a sequence
    of pieces separated by "HEADLINE:", none of which has an occurrence of
    "HEADLINE:" left; the headline is the concatenation of all the pieces
    (every occurrence is dropped, and nothing else) without the whitespace
    at its ends, and the body is the part after "POST:" without the
    whitespace at its ends.  So a "###" before "HEADLINE:" stays in the
    headline and the closing "###" stays in the body. *)
Theorem C9_only_markers_removed :
  (forall full_text head_part post_part : str,
      first_split POST_MARK full_text head_part post_part ->
      exists pieces h b,
        parse_generation full_text = Ok {| headline := h; body := b |}
        /\ head_part = join HEADLINE_MARK pieces
        /\ Forall (fun p => ~ occurs HEADLINE_MARK p) pieces
        /\ is_strip_of (concat pieces) h
        /\ is_strip_of post_part b)
  /\ parse_generation enveloped_text =
       Ok {| headline := u "###

My Title";
             body := u "Body text
###" |}
  /\ parse_generation (u "### HEADLINE: A HEADLINE: B ### POST: C ### POST: D ###") =
       Ok {| headline := u "###  A  B ###"; body := u "C ### POST: D ###" |}.
Proof.
  split; [|split; vm_compute; reflexivity].
  intros full_text head_part post_part Hs.
  destruct (replace_pieces HEADLINE_MARK [] head_part) as [ps [Ej [Er Hall]]];
    [discriminate|].
  exists ps, (strip (replace HEADLINE_MARK [] head_part)), (strip post_part).
  split; [now apply parse_generation_split|].
  split; [exact Ej|]. split; [exact Hall|].
  split; [|apply strip_spec].
  rewrite <- join_nil_concat, <- Er. apply strip_spec.
Qed.

Lemma C9_only_markers_removed_witness :
  exists pieces h b,
    parse_generation enveloped_text = Ok {| headline := h; body := b |}
    /\ firstn 24 enveloped_text = join HEADLINE_MARK pieces
    /\ Forall (fun p => ~ occurs HEADLINE_MARK p) pieces
    /\ is_strip_of (concat pieces) h
    /\ is_strip_of (skipn (24 + length POST_MARK) enveloped_text) b.
Proof.
  apply (proj1 C9_only_markers_removed).
  apply find_first_split. reflexivity.
Defined.

(* ================================================================= *)
(** * Entity extraction (C6) *)
(* ================================================================= *)

Lemma ltb_irrefl a : PySort.ltb a a = false.
Proof.
  induction a as [|x a IH]; simpl; [reflexivity|].
  now rewrite N.ltb_irrefl, N.eqb_refl.
Qed.

Lemma ltb_trans a b c :
  PySort.ltb a b = true -> PySort.ltb b c = true -> PySort.ltb a c = true.
Proof.
  revert b c; induction a as [|x a IH]; intros [|y b] [|z c]; simpl; try congruence.
  intros H1 H2.
  destruct (N.lt_trichotomy x y) as [L|[L|L]].
  - destruct (N.lt_trichotomy y z) as [M|[M|M]].
    + rewrite (proj2 (N.ltb_lt x z)) by lia. reflexivity.
    + subst z. rewrite (proj2 (N.ltb_lt x y)) by lia. reflexivity.
    + rewrite (proj2 (N.ltb_ge y z)) in H2 by lia.
      rewrite (proj2 (N.eqb_neq y z)) in H2 by lia. discriminate.
  - subst y. destruct (N.lt_trichotomy x z) as [M|[M|M]].
    + rewrite (proj2 (N.ltb_lt x z)) by lia. reflexivity.
    + subst z. rewrite N.ltb_irrefl, N.eqb_refl in *. now apply (IH b).
    + rewrite (proj2 (N.ltb_ge x z)) in H2 by lia.
      rewrite (proj2 (N.eqb_neq x z)) in H2 by lia. discriminate.
  - rewrite (proj2 (N.ltb_ge x y)) in H1 by lia.
    rewrite (proj2 (N.eqb_neq x y)) in H1 by lia. discriminate.
Qed.

Lemma ltb_total a b :
  PySort.ltb a b = false -> a <> b -> PySort.ltb b a = true.
Proof.
  revert b; induction a as [|x a IH]; intros [|y b]; simpl; try congruence.
  intros H1 Hne.
  destruct (N.lt_trichotomy x y) as [L|[L|L]].
  - rewrite (proj2 (N.ltb_lt x y)) in H1 by lia. discriminate.
  - subst y. rewrite N.ltb_irrefl, N.eqb_refl in *. apply IH; [exact H1 | congruence].
  - rewrite (proj2 (N.ltb_lt y x)) by lia. reflexivity.
Qed.

Lemma mem_In x l : PySort.mem x l = true <-> In x l.
Proof.
  unfold PySort.mem. rewrite existsb_exists. split.
  - intros [y [Hy E]]. apply eqb_eq in E. now subst.
  - intros H. exists x. split; [exact H | now apply eqb_eq].
Qed.

Lemma set_In x l : In x (PySort.set l) <-> In x l.
Proof.
  induction l as [|y l IH]; simpl; [tauto|].
  destruct (PySort.mem y l) eqn:Hm.
  - rewrite IH. apply mem_In in Hm. split; [tauto|]. intros [<- | H]; assumption.
  - simpl. rewrite IH. tauto.
Qed.

Lemma set_NoDup l : NoDup (PySort.set l).
Proof.
  induction l as [|y l IH]; simpl; [constructor|].
  destruct (PySort.mem y l) eqn:Hm; [exact IH|].
  constructor; [|exact IH].
  rewrite set_In. intros H. apply mem_In in H. congruence.
Qed.

Lemma insert_In y x l : In y (PySort.insert x l) <-> y = x \/ In y l.
Proof.
  induction l as [|z l IH]; simpl; [intuition|].
  destruct (PySort.ltb z x); simpl; [rewrite IH|]; intuition.
Qed.

Lemma sorted_In y l : In y (PySort.sorted l) <-> In y l.
Proof.
  induction l as [|x l IH]; simpl; [tauto|].
  rewrite insert_In, IH. intuition.
Qed.

Lemma insert_Sorted x l :
  Sorted.Sorted str_lt l -> ~ In x l -> Sorted.Sorted str_lt (PySort.insert x l).
Proof.
  induction 1 as [|z l Hs IH Hd]; intros Hx; simpl.
  - repeat constructor.
  - destruct (PySort.ltb z x) eqn:Hzx.
    + constructor.
      * apply IH. intros H; apply Hx; now right.
      * destruct l as [|w l]; simpl.
        -- now constructor.
        -- destruct (PySort.ltb w x); constructor; [now inversion Hd | exact Hzx].
    + constructor; [now constructor|]. constructor.
      apply ltb_total; [exact Hzx|]. intros ->. apply Hx. now left.
Qed.

Lemma sorted_Sorted l : NoDup l -> Sorted.Sorted str_lt (PySort.sorted l).
Proof.
  induction 1 as [|x l Hx Hn IH]; simpl; [constructor|].
  apply insert_Sorted; [exact IH|]. now rewrite sorted_In.
Qed.

Lemma sorted_set_strongly l :
  Sorted.StronglySorted str_lt (PySort.sorted (PySort.set l)).
Proof.
  apply Sorted.Sorted_StronglySorted.
  - intros a b c. apply ltb_trans.
  - apply sorted_Sorted, set_NoDup.
Qed.

Lemma StronglySorted_NoDup l : Sorted.StronglySorted str_lt l -> NoDup l.
Proof.
  induction 1 as [|x l Hs IH Hall]; constructor; [|exact IH].
  intros Hin. rewrite Forall_forall in Hall. specialize (Hall _ Hin).
  unfold str_lt in Hall. rewrite ltb_irrefl in Hall. discriminate.
Qed.

(** C6.  For every text (and every Unicode table behind [\b]) the two
    lists are strictly increasing in the order of [str], hence sorted and
    without duplicates, and they hold exactly the matches [re.findall]
    reports.  The extractor is a total function of the text: it cannot fail
    and gives the same result whenever it is applied to the same text.  For
    a text made of "jane.doe@example.com" and "Jane Doe" the result is the
    one-element lists of these two strings. *)
Theorem C6_extract_entities :
  forall (ua : char -> bool),
    (forall text : str,
        let e := extract_entities ua text in
        (Sorted.StronglySorted str_lt (emails e) /\ NoDup (emails e)
         /\ forall x, In x (emails e) <-> In x (Re.findall ua EMAIL_RE text))
        /\ (Sorted.StronglySorted str_lt (proper_nouns e) /\ NoDup (proper_nouns e)
            /\ forall x, In x (proper_nouns e)
                         <-> In x (Re.findall ua PROPER_NOUN_RE text))
        /\ extract_entities ua text = e)
    /\ extract_entities ua (u "jane.doe@example.com Jane Doe") =
         {| emails := [u "jane.doe@example.com"]; proper_nouns := [u "Jane Doe"] |}
    /\ extract_entities ua (u "Jane Doe
jane.doe@example.com") =
         {| emails := [u "jane.doe@example.com"]; proper_nouns := [u "Jane Doe"] |}
    /\ extract_entities ua (u "Jane Doe <jane.doe@example.com>, jane.doe@example.com; Jane Doe") =
         {| emails := [u "jane.doe@example.com"]; proper_nouns := [u "Jane Doe"] |}.
Proof.
  intros ua. split; [|repeat split; vm_compute; reflexivity].
  intros text e. unfold e, extract_entities; simpl emails; simpl proper_nouns.
  repeat split.
  - apply sorted_set_strongly.
  - apply StronglySorted_NoDup, sorted_set_strongly.
  - rewrite sorted_In, set_In. tauto.
  - rewrite sorted_In, set_In. tauto.
  - apply sorted_set_strongly.
  - apply StronglySorted_NoDup, sorted_set_strongly.
  - rewrite sorted_In, set_In. tauto.
  - rewrite sorted_In, set_In. tauto.
Qed.

(* ================================================================= *)
(** * Fetching a page (C7) *)
(* ================================================================= *)

Lemma scrape_url_eq W url s :
  scrape_url W url s =
  match http_get W (calls s) url with
  | HttpRaise _ => (Ok [], tick s)
  | HttpResponse status_code page =>
      if ((400 <=? status_code) && (status_code <? 600))%Z then (Ok [], tick s)
      else match page with
           | None => (Raise ParserRejectedMarkup, tick s)
           | Some soup_p =>
               (Ok (join NLNL
                      (map (get_text (u " "))
                         (filter (fun p => truthy_str (get_text [] p)) soup_p))),
                tick s)
           end
  end.
Proof.
  unfold scrape_url, bind, try_except, external, raise, lift, ret, raise_for_status.
  destruct (http_get W (calls s) url) as [e | code page]; [reflexivity|].
  destruct ((400 <=? code) && (code <? 600))%Z; [reflexivity|].
  destruct page; reflexivity.
Qed.

Lemma trimmed_strip t : trimmed (strip t).
Proof. destruct (strip_spec t) as [l [r [_ [_ [_ H]]]]]. exact H. Qed.

Lemma join_trimmed sep l :
  l <> [] -> Forall (fun t => t <> [] /\ trimmed t) l ->
  join sep l <> [] /\ trimmed (join sep l).
Proof.
  induction l as [|x l IH]; [congruence|]. intros _ Hall.
  inversion Hall as [|? ? [Hx Hxt] Hl]; subst.
  destruct l as [|y l]; [simpl; now split|].
  rewrite join_cons by discriminate.
  destruct IH as [Hj Hjt]; [discriminate | exact Hl |].
  split.
  - destruct x; [congruence | discriminate].
  - destruct Hxt as [Hh _]. destruct Hjt as [_ Ht]. split.
    + destruct x; [congruence | exact Hh].
    + rewrite !rev_app_distr.
      destruct (rev (join sep (y :: l))) as [|c r] eqn:Hr.
      * exfalso. apply Hj. apply (f_equal (@rev _)) in Hr.
        now rewrite rev_involutive in Hr.
      * exact Ht.
Qed.

Lemma stripped_strings p :
  Forall (fun t => t <> [] /\ trimmed t) (filter truthy_str (map strip p)).
Proof.
  apply Forall_forall. intros t Ht. apply filter_In in Ht. destruct Ht as [Hin Htr].
  split; [destruct t; [discriminate | discriminate]|].
  apply in_map_iff in Hin. destruct Hin as [x [<- _]]. apply trimmed_strip.
Qed.

Lemma get_text_trimmed p :
  truthy_str (get_text [] p) = true ->
  get_text (u " ") p <> [] /\ trimmed (get_text (u " ") p).
Proof.
  unfold get_text. intros H. apply join_trimmed; [|apply stripped_strings].
  intros E. rewrite E in H. discriminate.
Qed.

(** C7 (amended).  When the request raises (timeout, transport error, too
    many redirects, ...) or the response has status 400 to 599, the fetcher
    returns the empty string and raises nothing.  For a response of another
    status whose markup the parser reads, it returns the texts of the [<p>]
    elements that have a non-whitespace string, joined by a blank line; the
    text of an element is its stripped non-empty strings joined by one
    space, so it is non-empty and has no whitespace at its ends. *)
Theorem C7_scrape_url :
  forall (W : World) (url : str) (s : state),
    (forall e, http_get W (calls s) url = HttpRaise e ->
               scrape_url W url s = (Ok [], tick s))
    /\ (forall code page,
           http_get W (calls s) url = HttpResponse code page ->
           (400 <= code < 600)%Z ->
           scrape_url W url s = (Ok [], tick s))
    /\ (forall code soup_p,
           http_get W (calls s) url = HttpResponse code (Some soup_p) ->
           ~ (400 <= code < 600)%Z ->
           let paras :=
             map (get_text (u " "))
               (filter (fun p => truthy_str (get_text [] p)) soup_p) in
           scrape_url W url s = (Ok (join NLNL paras), tick s)
           /\ Forall (fun t => t <> [] /\ trimmed t) paras).
Proof.
  intros W url s. repeat split.
  - intros e H. now rewrite scrape_url_eq, H.
  - intros code page H Hc. rewrite scrape_url_eq, H.
    destruct (Z.leb_spec 400 code), (Z.ltb_spec code 600); try lia. reflexivity.
  - rewrite scrape_url_eq, H.
    destruct (Z.leb_spec 400 code), (Z.ltb_spec code 600); try lia; reflexivity.
  - apply Forall_forall. intros t Ht. apply in_map_iff in Ht.
    destruct Ht as [p [<- Hp]]. apply filter_In in Hp. destruct Hp as [_ Hp].
    now apply get_text_trimmed.
Qed.

Lemma C7_scrape_url_witness :
  scrape_url good_world sample_url fresh_state = (Ok (u "Hello"), tick fresh_state)
  /\ Forall (fun t => t <> [] /\ trimmed t) [u "Hello"].
Proof.
  apply (proj2 (proj2 (C7_scrape_url good_world sample_url fresh_state)) 200%Z [[u "Hello"]]).
  - reflexivity.
  - lia.
Defined.

(** The claim fails for a status that is neither 2xx nor 4xx/5xx: a
    "300 Multiple Choices" response with a body is parsed like a success. *)
Lemma C7_counterexample :
  http_get multiple_choices_world (calls fresh_state) sample_url
    = HttpResponse 300 hello_page
  /\ ~ (200 <= 300 < 300)%Z
  /\ scrape_url multiple_choices_world sample_url fresh_state
     = (Ok (u "Hello"), tick fresh_state)
  /\ u "Hello" <> [].
Proof.
  split; [reflexivity|]. split; [lia|]. split; [reflexivity | discriminate].
Qed.

(* ================================================================= *)
(** * The search step (C8) *)
(* ================================================================= *)

Lemma collect_links_spec W items :
  forall links r,
    collect_links W items links = Ok r ->
    exists extra,
      r = links ++ extra /\ length extra <= length items
      /\ Forall (fun l => validators_url W l = true) extra.
Proof.
  induction items as [|item rest IH]; intros links r H; simpl in H.
  - injection H as <-. exists []. rewrite app_nil_r. repeat split; auto.
  - destruct (json_get item (u "link") JNull) as [link|e]; [|discriminate].
    assert (Hskip : collect_links W rest links = Ok r ->
                    exists extra, r = links ++ extra /\ length extra <= length (item :: rest)
                                  /\ Forall (fun l => validators_url W l = true) extra).
    { intros H'. destruct (IH _ _ H') as [extra [E [L F]]].
      exists extra. repeat split; auto. simpl; lia. }
    destruct link;
      try (destruct (_ && validators_url_raises_on_nonstr W); [discriminate | now apply Hskip]).
    destruct (truthy_str s && validators_url W s) eqn:Hv; [|now apply Hskip].
    destruct (IH _ _ H) as [extra [E [L F]]].
    exists (s :: extra). repeat split.
    + rewrite E, <- app_assoc. reflexivity.
    + simpl; lia.
    + constructor; [|exact F]. now apply andb_true_iff in Hv.
Qed.

Lemma json_slice_to_length v num items :
  (0 <= num)%Z -> json_slice_to v num = Ok items ->
  (Z.of_nat (length items) <= num)%Z.
Proof.
  intros Hn H. destruct v; simpl in H; try discriminate; injection H as <-.
  - rewrite length_map, slice_to_nonneg, length_firstn by assumption. lia.
  - rewrite slice_to_nonneg, length_firstn by assumption. lia.
Qed.

(** C8.  The search step never raises.  Without a usable credential it
    returns the empty list without any request; when the request raises or
    its body is no JSON it returns the empty list; in every case the list
    has at most [num] entries (for the [num >= 0] of a result count: 5 by
    default, and in the call of [main]), each a string that
    [validators.url] accepts. *)
Theorem C8_serpapi_search :
  forall (W : World) (E : Env) (query : str) (num : Z) (s : state),
    (0 <= num)%Z ->
    exists links s',
      serpapi_search W E query num s = (Ok links, s')
      /\ (Z.of_nat (length links) <= num)%Z
      /\ Forall (fun l => validators_url W l = true) links
      /\ (serpapi_key E = None -> links = [] /\ s' = s)
      /\ (forall key,
             serpapi_key E = Some key ->
             (forall e, serp_get W (calls s) query key num = SerpRaise e -> links = [])
             /\ (serp_get W (calls s) query key num = SerpResponse None -> links = [])).
Proof.
  intros W E query num s Hn. unfold serpapi_search.
  destruct (serpapi_key E) as [key|].
  2:{ exists [], s. repeat split; auto; try (simpl; lia); discriminate. }
  unfold try_except, bind, external, raise, lift, ret.
  assert (Hnil : forall s1,
             exists links s',
               (Ok (@nil str), s1) = (Ok links, s')
               /\ (Z.of_nat (length links) <= num)%Z
               /\ Forall (fun l => validators_url W l = true) links
               /\ (Some key = None -> links = [] /\ s' = s)
               /\ (forall key0, Some key = Some key0 ->
                     (forall e, serp_get W (calls s) query key0 num = SerpRaise e -> links = [])
                     /\ (serp_get W (calls s) query key0 num = SerpResponse None -> links = []))).
  { intros s1. exists [], s1. repeat split; auto; try (simpl; lia); discriminate. }
  destruct (serp_get W (calls s) query key num) as [e | [data|]] eqn:Hg; try apply Hnil.
  destruct (json_get data (u "organic_results") (JArr [])) as [organic|e]; try apply Hnil.
  destruct (json_slice_to organic num) as [items|e] eqn:Hs; try apply Hnil.
  destruct (collect_links W items []) as [links|e] eqn:Hc; try apply Hnil.
  destruct (collect_links_spec _ _ _ _ Hc) as [extra [-> [L F]]]. simpl.
  pose proof (json_slice_to_length _ _ _ Hn Hs) as Li.
  exists extra, (tick s).
  split; [reflexivity|]. split; [lia|]. split; [exact F|]. split; [discriminate|].
  intros key0 Hk. injection Hk as <-.
  split; [intros e He; congruence | intros He; congruence].
Qed.

Lemma C8_serpapi_search_witness :
  exists links s',
    serpapi_search good_world (sample_env (Some (u "secret"))) (u "Hello") 5 fresh_state
      = (Ok links, s')
    /\ (Z.of_nat (length links) <= 5)%Z
    /\ Forall (fun l => validators_url good_world l = true) links
    /\ (serpapi_key (sample_env (Some (u "secret"))) = None -> links = [] /\ s' = fresh_state)
    /\ (forall key,
           serpapi_key (sample_env (Some (u "secret"))) = Some key ->
           (forall e, serp_get good_world (calls fresh_state) (u "Hello") key 5 = SerpRaise e ->
                      links = [])
           /\ (serp_get good_world (calls fresh_state) (u "Hello") key 5 = SerpResponse None ->
               links = [])).
Proof.
  apply (C8_serpapi_search good_world (sample_env (Some (u "secret"))) (u "Hello") 5
           fresh_state).
  lia.
Defined.

Example serpapi_search_sample :
  serpapi_search good_world (sample_env (Some (u "secret"))) (u "Hello") 5 fresh_state
  = (Ok [u "https://a.example/1"; u "https://a.example/4"; u "https://a.example/5"],
     tick fresh_state).
Proof. vm_compute. reflexivity. Qed.

(* ================================================================= *)
(** * Failures of the model call (C4) *)
(* ================================================================= *)

Lemma generate_one_variant_error W llm label instr blog serp s e :
  llm_error (llm_call W (calls s) (build_prompt label instr blog serp)) = Some e ->
  generate_one_variant W llm label instr blog serp s =
    (if is_ValueError e then Ok ERROR_POST else Raise e, tick s).
Proof.
  intros H. unfold generate_one_variant, bind, external. rewrite H.
  destruct (is_ValueError e); reflexivity.
Qed.

(** C4 (what the code does).  The handler around the model call is
    [except ValueError].  When the call raises a [ValueError] (or an
    exception of a subclass), the driver returns the post with headline
    "ERROR" and empty body and raises nothing, and the caller goes on to
    save that post as the row of the variant.  A failure of another class,
    such as the [RuntimeError] of a failed decode, is not caught: it leaves
    the driver and the caller as it was raised, and nothing is saved for
    the variant. *)
Theorem C4_generation_error :
  forall (W : World) (llm : Llama) (label instr blog serp : str) (s : state) (e : exn),
    llm_error (llm_call W (calls s) (build_prompt label instr blog serp)) = Some e ->
    (is_ValueError e = true ->
       generate_one_variant W llm label instr blog serp s = (Ok ERROR_POST, tick s)
       /\ headline ERROR_POST = u "ERROR" /\ body ERROR_POST = []
       /\ forall url serp_links ents,
            generate_and_save W llm url blog serp serp_links ents (label, instr) s =
            append_to_excel_row
              {| source_url := url; variant := label;
                 row_headline := u "ERROR"; row_body := [];
                 serp_emails := emails ents;
                 serp_proper_nouns := proper_nouns ents;
                 row_serp_links := serp_links |} (tick s))
    /\ (is_ValueError e = false ->
          generate_one_variant W llm label instr blog serp s = (Raise e, tick s)
          /\ forall url serp_links ents,
               generate_and_save W llm url blog serp serp_links ents (label, instr) s =
               (Raise e, tick s)).
Proof.
  intros W llm label instr blog serp s e H.
  pose proof (generate_one_variant_error W llm label instr blog serp s e H) as G.
  split; intros Hv; rewrite Hv in G.
  - split; [exact G|]. split; [reflexivity|]. split; [reflexivity|].
    intros url serp_links ents. unfold generate_and_save, bind. rewrite G. reflexivity.
  - split; [exact G|].
    intros url serp_links ents. unfold generate_and_save, bind. rewrite G. reflexivity.
Qed.

Lemma C4_generation_error_witness :
  generate_one_variant overflow_world LlamaHandle (u "Story Narrative") (u "Write.")
    (u "blog") (u "serp") fresh_state
  = (Ok ERROR_POST, tick fresh_state)
  /\ generate_one_variant decode_error_world LlamaHandle (u "Story Narrative") (u "Write.")
       (u "blog") (u "serp") fresh_state
     = (Raise RuntimeError, tick fresh_state).
Proof.
  split.
  - apply (proj1 (C4_generation_error overflow_world LlamaHandle (u "Story Narrative")
                    (u "Write.") (u "blog") (u "serp") fresh_state ValueError eq_refl)
             eq_refl).
  - apply (proj2 (C4_generation_error decode_error_world LlamaHandle (u "Story Narrative")
                    (u "Write.") (u "blog") (u "serp") fresh_state RuntimeError eq_refl)
             eq_refl).
Defined.

(** The failing input: the [RuntimeError] of a failed decode leaves
    [generate_one_variant], and the run with it. *)
Example generate_one_variant_RuntimeError :
  llm_error (llm_call decode_error_world (calls fresh_state)
               (build_prompt (u "Story Narrative") (u "Write.") (u "blog") (u "serp")))
    = Some RuntimeError
  /\ generate_one_variant decode_error_world LlamaHandle (u "Story Narrative") (u "Write.")
       (u "blog") (u "serp") fresh_state
     = (Raise RuntimeError, tick fresh_state)
  /\ fst (main decode_error_world (sample_env None) fresh_state) = Raise RuntimeError.
Proof. vm_compute. repeat split. Qed.

(* ================================================================= *)
(** * The cells the spreadsheet library takes *)
(* ================================================================= *)

Lemma check_string_Ok value cell :
  check_string value = Ok cell -> cell = cell_text value.
Proof.
  unfold check_string. destruct (existsb is_illegal (cell_text value)); congruence.
Qed.

Lemma check_string_Raise value e :
  check_string value = Raise e -> e = IllegalCharacterError.
Proof.
  unfold check_string. destruct (existsb is_illegal (cell_text value)); congruence.
Qed.

Lemma check_row_Ok r : forall cells, check_row r = Ok cells -> cells = map cell_text r.
Proof.
  induction r as [|value rest IH]; simpl; intros cells H.
  - congruence.
  - destruct (check_string value) as [cell|e] eqn:Hc; [|discriminate].
    destruct (check_row rest) as [cells'|e] eqn:Hr; [|discriminate].
    injection H as <-. rewrite (check_string_Ok _ _ Hc), (IH _ eq_refl). reflexivity.
Qed.

Lemma check_row_Raise r : forall e, check_row r = Raise e -> e = IllegalCharacterError.
Proof.
  induction r as [|value rest IH]; simpl; intros e H.
  - discriminate.
  - destruct (check_string value) as [cell|e1] eqn:Hc.
    + destruct (check_row rest) as [cells'|e2] eqn:Hr; [discriminate|].
      injection H as <-. now apply IH.
    + injection H as <-. now apply check_string_Raise with value.
Qed.

Lemma check_row_refused r :
  refused r <-> check_row r = Raise IllegalCharacterError.
Proof.
  unfold refused. induction r as [|value rest IH]; simpl.
  - split; [intros [v [c [[] _]]] | discriminate].
  - unfold check_string.
    destruct (existsb is_illegal (cell_text value)) eqn:Hx.
    + split; [reflexivity|]. intros _.
      apply existsb_exists in Hx. destruct Hx as [c [Hin Hc]].
      exists value, c. auto.
    + destruct (check_row rest) as [cells|e] eqn:Hr.
      * split; [|discriminate]. intros [v [c [[<-|Hv] [Hin Hc]]]].
        -- assert (existsb is_illegal (cell_text value) = true) as Ht
             by (apply existsb_exists; eauto).
           congruence.
        -- assert (Ok cells = Raise IllegalCharacterError) as Hn
             by (apply IH; eauto).
           discriminate.
      * rewrite (check_row_Raise _ _ Hr) in *. split; [reflexivity|]. intros _.
        destruct (proj2 IH eq_refl) as [v [c [Hv Hc]]]. exists v, c. auto.
Qed.

Lemma check_row_accepted r :
  ~ refused r <-> check_row r = Ok (map cell_text r).
Proof.
  rewrite check_row_refused. destruct (check_row r) as [cells|e] eqn:Hr.
  - rewrite (check_row_Ok _ _ Hr). split; [reflexivity | discriminate].
  - rewrite (check_row_Raise _ _ Hr). split; [intros H; now destruct H | discriminate].
Qed.

Lemma check_row_LINKEDIN_HEADER : check_row LINKEDIN_HEADER = Ok LINKEDIN_HEADER.
Proof. reflexivity. Qed.

Lemma check_row_SERP_DEBUG_HEADER : check_row SERP_DEBUG_HEADER = Ok SERP_DEBUG_HEADER.
Proof. reflexivity. Qed.

(* ================================================================= *)
(** * Creating the spreadsheet (C2) *)
(* ================================================================= *)

Lemma save_serp_debug_fresh n url serp_links serp_text :
  (init_excel ;;; save_serp_debug url serp_links serp_text)
    {| calls := n; excel_file := None |} =
  match check_row (debug_cells url serp_links serp_text) with
  | Ok cells =>
      (Ok tt, {| calls := n;
                 excel_file :=
                   Some [(LINKEDIN, [LINKEDIN_HEADER]); (SERP_DEBUG, [cells])] |})
  | Raise e =>
      (Raise e, {| calls := n;
                   excel_file := Some [(LINKEDIN, [LINKEDIN_HEADER]); (SERP_DEBUG, [])] |})
  end.
Proof.
  unfold bind at 1. change (init_excel {| calls := n; excel_file := None |})
    with (Ok tt, {| calls := n;
                    excel_file := Some [(LINKEDIN, [LINKEDIN_HEADER]); (SERP_DEBUG, [])] |}).
  cbv beta iota. unfold save_serp_debug, bind, load_workbook, save, lift.
  cbn [excel_file calls].
  destruct (check_row (debug_cells url serp_links serp_text)); reflexivity.
Qed.

(** C2 (what the code does).  On a missing file [init_excel] writes a
    workbook with the sheet "linkedin", whose only row is the seven-column
    header, and the sheet "serp_debug" with no row at all: the three-column
    header is not written.  As the sheet now exists, the first
    [save_serp_debug] skips its own header branch: when the library takes
    the row, the first row of "serp_debug" is that data row, and when it
    refuses the row the sheet stays without any row.  On an existing file
    [init_excel] changes nothing. *)
Theorem C2_init_excel :
  (forall n,
      init_excel {| calls := n; excel_file := None |} =
      (Ok tt, {| calls := n;
                 excel_file := Some [(LINKEDIN, [LINKEDIN_HEADER]); (SERP_DEBUG, [])] |}))
  /\ length LINKEDIN_HEADER = 7
  /\ length SERP_DEBUG_HEADER = 3
  /\ (forall n url serp_links serp_text,
         match check_row (debug_cells url serp_links serp_text) with
         | Ok cells =>
             cells = debug_record url serp_links serp_text
             /\ (init_excel ;;; save_serp_debug url serp_links serp_text)
                  {| calls := n; excel_file := None |} =
                (Ok tt, {| calls := n;
                           excel_file :=
                             Some [(LINKEDIN, [LINKEDIN_HEADER]);
                                   (SERP_DEBUG, [cells])] |})
         | Raise e =>
             e = IllegalCharacterError
             /\ refused (debug_cells url serp_links serp_text)
             /\ (init_excel ;;; save_serp_debug url serp_links serp_text)
                  {| calls := n; excel_file := None |} =
                (Raise e, {| calls := n;
                             excel_file :=
                               Some [(LINKEDIN, [LINKEDIN_HEADER]); (SERP_DEBUG, [])] |})
         end)
  /\ (forall n wb,
         init_excel {| calls := n; excel_file := Some wb |} =
         (Ok tt, {| calls := n; excel_file := Some wb |})).
Proof.
  split; [reflexivity|]. split; [reflexivity|]. split; [reflexivity|].
  split; [|reflexivity].
  intros n url serp_links serp_text.
  pose proof (save_serp_debug_fresh n url serp_links serp_text) as H.
  destruct (check_row (debug_cells url serp_links serp_text)) as [cells|e] eqn:Hk.
  - split; [now apply check_row_Ok | exact H].
  - pose proof (check_row_Raise _ _ Hk) as ->.
    split; [reflexivity|]. split; [now apply check_row_refused | exact H].
Qed.

(* ================================================================= *)
(** * Rows written by a run *)
(* ================================================================= *)

Lemma eqb_sym a b : Py.eqb a b = Py.eqb b a.
Proof.
  destruct (Py.eqb a b) eqn:H1, (Py.eqb b a) eqn:H2; try reflexivity.
  - apply eqb_eq in H1. apply eqb_neq in H2. congruence.
  - apply eqb_neq in H1. apply eqb_eq in H2. congruence.
Qed.

Lemma wb_getitem_ws_append_same name r wb :
  wb_getitem name (ws_append name r wb) =
  option_map (fun rows => rows ++ [r]) (wb_getitem name wb).
Proof.
  induction wb as [|[n rows] wb IH]; simpl; [reflexivity|].
  destruct (Py.eqb n name) eqn:H; simpl; rewrite H; [reflexivity | exact IH].
Qed.

Lemma wb_getitem_ws_append_other name other r wb :
  name <> other ->
  wb_getitem other (ws_append name r wb) = wb_getitem other wb.
Proof.
  intros Hne. induction wb as [|[n rows] wb IH]; simpl; [reflexivity|].
  destruct (Py.eqb n name) eqn:H; simpl.
  - apply eqb_eq in H. subst n.
    destruct (Py.eqb name other) eqn:H'; [apply eqb_eq in H'; congruence | reflexivity].
  - destruct (Py.eqb n other); [reflexivity | exact IH].
Qed.

Lemma wb_getitem_create_sheet name other wb :
  wb_getitem other (create_sheet name wb) =
  match wb_getitem other wb with
  | Some rows => Some rows
  | None => if Py.eqb name other then Some [] else None
  end.
Proof.
  unfold create_sheet. induction wb as [|[n rows] wb IH]; simpl; [reflexivity|].
  destruct (Py.eqb n other); [reflexivity | exact IH].
Qed.

Lemma mem_sheetnames name wb :
  PySort.mem name (sheetnames wb) =
  match wb_getitem name wb with Some _ => true | None => false end.
Proof.
  induction wb as [|[n rows] wb IH]; simpl; [reflexivity|].
  rewrite (eqb_sym name n). destruct (Py.eqb n name); [reflexivity | exact IH].
Qed.

Lemma LINKEDIN_neq_SERP_DEBUG : SERP_DEBUG <> LINKEDIN.
Proof. discriminate. Qed.

(** Fetching, searching and generating leave the spreadsheet file alone. *)
Lemma scrape_url_file W url s : excel_file (snd (scrape_url W url s)) = excel_file s.
Proof.
  rewrite scrape_url_eq.
  destruct (http_get W (calls s) url) as [e | code page]; [reflexivity|].
  destruct ((400 <=? code) && (code <? 600))%Z; [reflexivity|].
  destruct page; reflexivity.
Qed.

Lemma serpapi_search_file W E query num s :
  excel_file (snd (serpapi_search W E query num s)) = excel_file s.
Proof.
  unfold serpapi_search. destruct (serpapi_key E) as [key|]; [|reflexivity].
  unfold try_except, bind, external, raise, lift, ret.
  destruct (serp_get W (calls s) query key num) as [e | [data|]]; try reflexivity.
  destruct (json_get data (u "organic_results") (JArr [])) as [organic|e]; try reflexivity.
  destruct (json_slice_to organic num) as [items|e]; try reflexivity.
  destruct (collect_links W items []); reflexivity.
Qed.

Lemma scrape_links_file W links :
  forall text s, excel_file (snd (scrape_links W links text s)) = excel_file s.
Proof.
  induction links as [|link rest IH]; intros text s; simpl; [reflexivity|].
  unfold bind. pose proof (scrape_url_file W link s) as H.
  destruct (scrape_url W link s) as [[t|e] s1]; simpl in H.
  - rewrite IH. exact H.
  - exact H.
Qed.

Lemma generate_one_variant_file W llm label instr blog serp s :
  excel_file (snd (generate_one_variant W llm label instr blog serp s)) = excel_file s.
Proof.
  unfold generate_one_variant, bind, external, lift, ret, raise.
  destruct (llm_error _) as [e|]; [destruct (is_ValueError e)|]; reflexivity.
Qed.

(** ** The two writes, case by case *)

Lemma append_to_excel_row_cases row s :
  match excel_file s with
  | None => append_to_excel_row row s = (Raise FileNotFoundError, s)
  | Some wb =>
      match wb_getitem LINKEDIN wb with
      | None => append_to_excel_row row s = (Raise KeyError, s)
      | Some _ =>
          match check_row (linkedin_cells row) with
          | Raise e => append_to_excel_row row s = (Raise e, s)
          | Ok cells =>
              append_to_excel_row row s =
              (Ok tt, {| calls := calls s;
                         excel_file := Some (ws_append LINKEDIN cells wb) |})
          end
      end
  end.
Proof.
  unfold append_to_excel_row, bind, load_workbook, save, raise, lift.
  destruct (excel_file s) as [wb|]; [|reflexivity].
  destruct (wb_getitem LINKEDIN wb); [|reflexivity].
  destruct (check_row (linkedin_cells row)); reflexivity.
Qed.

Lemma save_serp_debug_cases url links text s :
  match excel_file s with
  | None => save_serp_debug url links text s = (Raise FileNotFoundError, s)
  | Some wb =>
      match check_row (debug_cells url links text) with
      | Raise e => save_serp_debug url links text s = (Raise e, s)
      | Ok cells =>
          save_serp_debug url links text s =
          (Ok tt,
           {| calls := calls s;
              excel_file :=
                Some (ws_append SERP_DEBUG cells
                        (if negb (PySort.mem SERP_DEBUG (sheetnames wb))
                         then ws_append SERP_DEBUG SERP_DEBUG_HEADER
                                (create_sheet SERP_DEBUG wb)
                         else wb)) |})
      end
  end.
Proof.
  unfold save_serp_debug, bind, load_workbook, save, lift.
  destruct (excel_file s) as [wb|]; [|reflexivity].
  destruct (check_row (debug_cells url links text)); reflexivity.
Qed.

Lemma append_to_excel_row_Raise row s e s' :
  append_to_excel_row row s = (Raise e, s') -> s' = s.
Proof.
  pose proof (append_to_excel_row_cases row s) as Hc.
  destruct (excel_file s) as [wb|];
    [destruct (wb_getitem LINKEDIN wb); [destruct (check_row (linkedin_cells row))|]|];
    rewrite Hc; congruence.
Qed.

Lemma save_serp_debug_Raise url links text s e s' :
  save_serp_debug url links text s = (Raise e, s') -> s' = s.
Proof.
  pose proof (save_serp_debug_cases url links text s) as Hc.
  destruct (excel_file s) as [wb|]; [destruct (check_row (debug_cells url links text))|];
    rewrite Hc; congruence.
Qed.

Lemma save_serp_debug_spec url serp_links serp_text s r s' :
  save_serp_debug url serp_links serp_text s = (r, s') ->
  r = Ok tt ->
  exists wb, excel_file s = Some wb
  /\ rows_of LINKEDIN s' = rows_of LINKEDIN s
  /\ serp_debug_rows s' = serp_debug_rows s ++ [debug_record url serp_links serp_text]
  /\ calls s' = calls s.
Proof.
  pose proof (save_serp_debug_cases url serp_links serp_text s) as Hc.
  unfold serp_debug_rows, rows_of, debug_record.
  destruct (excel_file s) as [wb|] eqn:Hf;
    [|rewrite Hc; intros H; injection H as <- <-; discriminate].
  destruct (check_row (debug_cells url serp_links serp_text)) as [cells|e] eqn:Hk;
    [|rewrite Hc; intros H; injection H as <- <-; discriminate].
  rewrite Hc. apply check_row_Ok in Hk. subst cells.
  intros H _. injection H as _ <-. exists wb. split; [reflexivity|]. simpl.
  rewrite mem_sheetnames.
  destruct (wb_getitem SERP_DEBUG wb) as [rows|] eqn:Hd; simpl.
  - rewrite wb_getitem_ws_append_other by apply LINKEDIN_neq_SERP_DEBUG.
    rewrite wb_getitem_ws_append_same, Hd. auto.
  - rewrite !wb_getitem_ws_append_other by apply LINKEDIN_neq_SERP_DEBUG.
    rewrite !wb_getitem_ws_append_same, !wb_getitem_create_sheet, Hd.
    destruct (wb_getitem LINKEDIN wb); auto.
Qed.

Lemma append_to_excel_row_spec row s r s' :
  append_to_excel_row row s = (r, s') ->
  r = Ok tt ->
  linkedin_rows s' = linkedin_rows s ++ [map cell_text (linkedin_cells row)]
  /\ rows_of SERP_DEBUG s' = rows_of SERP_DEBUG s
  /\ (exists wb, excel_file s' = Some wb)
  /\ calls s' = calls s.
Proof.
  pose proof (append_to_excel_row_cases row s) as Hc.
  unfold linkedin_rows, rows_of.
  destruct (excel_file s) as [wb|] eqn:Hf;
    [|rewrite Hc; intros H; injection H as <- <-; discriminate].
  destruct (wb_getitem LINKEDIN wb) as [rows|] eqn:Hl;
    [|rewrite Hc; intros H; injection H as <- <-; discriminate].
  destruct (check_row (linkedin_cells row)) as [cells|e] eqn:Hk;
    [|rewrite Hc; intros H; injection H as <- <-; discriminate].
  rewrite Hc. apply check_row_Ok in Hk. subst cells.
  intros H _. injection H as _ <-. simpl.
  rewrite wb_getitem_ws_append_same, Hl.
  rewrite wb_getitem_ws_append_other by (intros E; symmetry in E; revert E; apply LINKEDIN_neq_SERP_DEBUG).
  repeat split; eauto.
Qed.

Lemma linkedin_rows_file s s' :
  excel_file s' = excel_file s -> linkedin_rows s' = linkedin_rows s.
Proof. unfold linkedin_rows, rows_of. now intros ->. Qed.

Lemma serp_debug_rows_file s s' :
  excel_file s' = excel_file s -> serp_debug_rows s' = serp_debug_rows s.
Proof. unfold serp_debug_rows, rows_of. now intros ->. Qed.

Lemma serp_debug_rows_rows_of s s' :
  rows_of SERP_DEBUG s' = rows_of SERP_DEBUG s -> serp_debug_rows s' = serp_debug_rows s.
Proof. unfold serp_debug_rows. now intros ->. Qed.

Lemma linkedin_rows_rows_of s s' :
  rows_of LINKEDIN s' = rows_of LINKEDIN s -> linkedin_rows s' = linkedin_rows s.
Proof. unfold linkedin_rows. now intros ->. Qed.

Lemma for_each_cons {A} (x : A) (r : list A) (body : A -> M unit) :
  for_each (x :: r) body = bind (body x) (fun _ => for_each r body).
Proof. reflexivity. Qed.

(** The loop over the variants appends one row per variant. *)
Lemma variants_loop_spec W llm url blog serp links ents :
  forall vs s s',
    for_each vs (generate_and_save W llm url blog serp links ents) s = (Ok tt, s') ->
    exists posts,
      length posts = length vs
      /\ linkedin_rows s' =
           linkedin_rows s ++ map (output_record url links ents) (combine vs posts)
      /\ serp_debug_rows s' = serp_debug_rows s.
Proof.
  induction vs as [|[label instr] vs IH]; intros s s' H.
  - simpl in H. unfold ret in H. injection H as <-. exists []. simpl. now rewrite app_nil_r.
  - rewrite for_each_cons in H. unfold bind at 1 in H.
    destruct (generate_and_save W llm url blog serp links ents (label, instr) s)
      as [[[]|e] s1] eqn:Hg; cbv beta iota in H; [|discriminate].
    unfold generate_and_save, bind in Hg.
    pose proof (generate_one_variant_file W llm label instr blog serp s) as Hfile.
    destruct (generate_one_variant W llm label instr blog serp s) as [[p|e] s0];
      cbv beta iota in Hg; [|discriminate].
    simpl in Hfile.
    destruct (append_to_excel_row_spec _ _ _ _ Hg eq_refl) as [Hl [Hd _]].
    destruct (IH _ _ H) as [posts [Hlen [Hl' Hd']]].
    exists (p :: posts). split; [simpl; now rewrite Hlen|]. split.
    + rewrite Hl', Hl, (linkedin_rows_file _ _ Hfile), <- app_assoc. reflexivity.
    + rewrite Hd', (serp_debug_rows_rows_of _ _ Hd). now apply serp_debug_rows_file.
Qed.

Lemma process_blog_skip W E llm url s :
  fst (scrape_url W url s) = Ok [] ->
  process_blog W E llm url s = (Ok tt, snd (scrape_url W url s))
  /\ excel_file (snd (scrape_url W url s)) = excel_file s.
Proof.
  intros H. split; [|apply scrape_url_file].
  unfold process_blog, bind. destruct (scrape_url W url s) as [r s1]. simpl in H.
  subst r. reflexivity.
Qed.

Lemma process_blog_spec W E llm url s s' :
  process_blog W E llm url s = (Ok tt, s') -> item_rows W E llm url s s'.
Proof.
  intros H. unfold process_blog in H. unfold bind at 1 in H.
  pose proof (scrape_url_file W url s) as Hf1.
  unfold item_rows.
  destruct (scrape_url W url s) as [[text|e] s1]; cbv beta iota in H; [|discriminate].
  simpl in Hf1.
  exists text. split; [reflexivity|].
  destruct text as [|c text]; cbv beta iota delta [negb truthy_str] in H.
  - unfold ret in H. injection H as <-. split; [|congruence]. intros _.
    split; [now apply linkedin_rows_file|]. split; [now apply serp_debug_rows_file | exact Hf1].
  - split; [discriminate|]. intros _.
    unfold bind at 1 in H.
    pose proof (serpapi_search_file W E (slice_to (c :: text) 80) 5 s1) as Hf2.
    destruct (serpapi_search W E (slice_to (c :: text) 80) 5 s1) as [[links|e] s2];
      cbv beta iota in H; [|discriminate]. simpl in Hf2.
    unfold bind at 1 in H.
    pose proof (scrape_links_file W links [] s2) as Hf3.
    destruct (scrape_links W links [] s2) as [[stext|e] s3];
      cbv beta iota in H; [|discriminate]. simpl in Hf3.
    unfold bind at 1 in H.
    destruct (save_serp_debug url links stext s3) as [[[]|e] s4] eqn:Hs;
      cbv beta iota in H; [|discriminate].
    destruct (save_serp_debug_spec _ _ _ _ _ _ Hs eq_refl) as [wb [_ [Hl [Hd _]]]].
    destruct (variants_loop_spec _ _ _ _ _ _ _ _ _ _ H) as [posts [Hlen [Hl' Hd']]].
    assert (Hfile : excel_file s3 = excel_file s) by congruence.
    exists links, stext, posts. split; [exact Hlen|]. split.
    + rewrite Hl', (linkedin_rows_rows_of _ _ Hl), (linkedin_rows_file _ _ Hfile). reflexivity.
    + rewrite Hd', Hd, (serp_debug_rows_file _ _ Hfile). reflexivity.
Qed.

Lemma item_rows_counts W E llm url s s' :
  item_rows W E llm url s s' ->
  let n := if fetched_text (fst (scrape_url W url s)) then 1 else 0 in
  exists new_linkedin new_debug,
    linkedin_rows s' = linkedin_rows s ++ new_linkedin
    /\ length new_linkedin = length VARIANTS * n
    /\ serp_debug_rows s' = serp_debug_rows s ++ new_debug
    /\ length new_debug = n.
Proof.
  intros [text [Hf [He Hn]]]. rewrite Hf. simpl. destruct text as [|c text].
  - destruct (He eq_refl) as [Hl [Hd _]]. exists [], [].
    rewrite !app_nil_r. auto.
  - destruct Hn as [links [stext [posts [Hlen [Hl Hd]]]]]; [discriminate|].
    eexists _, _. split; [exact Hl|]. split; [|split; [exact Hd | reflexivity]].
    rewrite length_map, length_combine, Hlen. simpl. reflexivity.
Qed.

Lemma blog_loop_spec W E llm :
  forall urls s s',
    for_each urls (process_blog W E llm) s = (Ok tt, s') ->
    loop_rows W E llm urls s s'.
Proof.
  unfold loop_rows.
  induction urls as [|url urls IH]; intros s s' H.
  - simpl in H. unfold ret in H. injection H as <-. split; [reflexivity|].
    exists [], []. rewrite !app_nil_r. auto.
  - rewrite for_each_cons in H. unfold bind at 1 in H. simpl blog_fetches.
    destruct (process_blog W E llm url s) as [[[]|e] s1] eqn:Hp;
      cbv beta iota in H; [|discriminate].
    destruct (item_rows_counts _ _ _ _ _ _ (process_blog_spec _ _ _ _ _ _ Hp))
      as [nl [nd [Hl [Hln [Hd Hdn]]]]].
    destruct (IH _ _ H) as [Hlen [nl' [nd' [Hl' [Hln' [Hd' Hdn']]]]]].
    split; [simpl; now rewrite Hlen|].
    exists (nl ++ nl'), (nd ++ nd').
    unfold count_fetched in *. simpl filter.
    rewrite Hl', Hl, Hd', Hd, <- !app_assoc, !length_app, Hln, Hln', Hdn, Hdn'.
    destruct (fetched_text (fst (scrape_url W url s))); simpl length; repeat split; lia.
Qed.

Lemma load_llm_file W E s : excel_file (snd (load_llm W E s)) = excel_file s.
Proof.
  unfold load_llm. destruct (LLAMA_MODEL_PATH E) as [path|]; [|reflexivity].
  destruct (negb (truthy_str path) || negb (path_exists E path)); [reflexivity|].
  destruct (negb (llama_cpp_imported E)); [reflexivity|].
  unfold bind, external, lift, ret. destruct (llama_new W (calls s) path); reflexivity.
Qed.

Lemma main_spec W E s0 s_end :
  main W E s0 = (Ok tt, s_end) -> run_rows W E s0 s_end.
Proof.
  intros H. unfold main in H. unfold bind at 1 in H.
  destruct (init_excel s0) as [[[]|e] s1] eqn:Hi; cbv beta iota in H; [|discriminate].
  exists s1. split; [exact Hi|].
  unfold bind at 1 in H. pose proof (load_llm_file W E s1) as Hf.
  destruct (load_llm W E s1) as [[[llm|]|e] s2]; cbv beta iota in H;
    [| |discriminate]; simpl in Hf.
  - right. exists llm, s2. split; [reflexivity|]. split; [exact Hf|].
    now apply blog_loop_spec.
  - left. exists s2. unfold ret in H. injection H as <-. auto.
Qed.

(** ** Sample runs *)

(** A run in which every fetch succeeds: nine rows after the header of
    "linkedin", three rows in "serp_debug". *)
Example main_all_fetched :
  let s := snd (main good_world (sample_env None) fresh_state) in
  fst (main good_world (sample_env None) fresh_state) = Ok tt
  /\ length (linkedin_rows s) = 1 + 9
  /\ rows_of SERP_DEBUG s
     = Some [debug_record (nth 0 BLOG_URLS []) [] [];
             debug_record (nth 1 BLOG_URLS []) [] [];
             debug_record (nth 2 BLOG_URLS []) [] []]
  /\ json_dumps [] = u "[]".
Proof. vm_compute. repeat split. Qed.

(** A run in which the first fetch fails: the item is skipped, the other
    two are processed. *)
Example main_first_skipped :
  let s := snd (main flaky_world (sample_env None) fresh_state) in
  fst (main flaky_world (sample_env None) fresh_state) = Ok tt
  /\ count_fetched
       (blog_fetches flaky_world (sample_env None) LlamaHandle BLOG_URLS
          (snd ((init_excel ;;; load_llm flaky_world (sample_env None)) fresh_state))) = 2
  /\ length (linkedin_rows s) = 1 + 6
  /\ length (serp_debug_rows s) = 2.
Proof. vm_compute. repeat split. Qed.

(** A run that a [RuntimeError] of the model stops at the first variant. *)
Example main_stopped :
  let s := snd (main decode_error_world (sample_env None) fresh_state) in
  fst (main decode_error_world (sample_env None) fresh_state) = Raise RuntimeError
  /\ length (linkedin_rows s) = 1
  /\ length (serp_debug_rows s) = 1.
Proof. vm_compute. repeat split. Qed.

(** A run in which every model call overflows the context: the rows are
    written all the same, with the headline "ERROR". *)
Example main_all_overflow :
  let s := snd (main overflow_world (sample_env None) fresh_state) in
  fst (main overflow_world (sample_env None) fresh_state) = Ok tt
  /\ length (linkedin_rows s) = 1 + 9
  /\ map (fun r => nth 2 r []) (skipn 1 (linkedin_rows s)) = repeat (u "ERROR") 9
  /\ length (serp_debug_rows s) = 3.
Proof. vm_compute. repeat split. Qed.

(* ================================================================= *)
(** * Further properties of the script *)
(* ================================================================= *)

(** ** The spreadsheet functions: failures and growth *)

(** X1.  A failed write leaves the file as it was.  [append_to_excel_row]
    raises exactly when the file is missing ([FileNotFoundError]), when it
    has no "linkedin" sheet ([KeyError]), or when the library refuses the
    row ([IllegalCharacterError]: one of the cells, cut to 32767
    characters, holds a control character other than tab, line feed and
    carriage return); [save_serp_debug] raises exactly when the file is
    missing or the library refuses the row; in each case the state is
    unchanged. *)
Theorem store_errors_leave_file :
  forall (row : output_row) (url : str) (links : list str) (text : str) (s : state),
    (forall e s',
        append_to_excel_row row s = (Raise e, s') ->
        s' = s
        /\ ((e = FileNotFoundError /\ excel_file s = None)
            \/ (e = KeyError /\ excel_file s <> None /\ rows_of LINKEDIN s = None)
            \/ (e = IllegalCharacterError /\ has_linkedin s
                /\ refused (linkedin_cells row))))
    /\ (has_linkedin s -> ~ refused (linkedin_cells row) ->
        exists s', append_to_excel_row row s = (Ok tt, s'))
    /\ (forall e s',
           save_serp_debug url links text s = (Raise e, s') ->
           s' = s
           /\ ((e = FileNotFoundError /\ excel_file s = None)
               \/ (e = IllegalCharacterError /\ excel_file s <> None
                   /\ refused (debug_cells url links text))))
    /\ (excel_file s <> None -> ~ refused (debug_cells url links text) ->
        exists s', save_serp_debug url links text s = (Ok tt, s')).
Proof.
  intros row url links text s.
  pose proof (append_to_excel_row_cases row s) as Ha.
  pose proof (save_serp_debug_cases url links text s) as Hs.
  unfold has_linkedin, rows_of.
  destruct (excel_file s) as [wb|] eqn:Hf.
  - split; [|split; [|split]].
    + destruct (wb_getitem LINKEDIN wb) as [rows|] eqn:Hl.
      * destruct (check_row (linkedin_cells row)) as [cells|e0] eqn:Hk;
          rewrite Ha; intros e s' H; [discriminate|].
        injection H as <- <-. split; [reflexivity|].
        pose proof (check_row_Raise _ _ Hk) as ->.
        right. right. split; [reflexivity|]. split; [eauto|].
        now apply check_row_refused.
      * rewrite Ha. intros e s' H. injection H as <- <-. split; [reflexivity|].
        right. left. repeat split; congruence.
    + intros [rows Hl] Hn. rewrite Hl in Ha.
      apply check_row_accepted in Hn. rewrite Hn in Ha. rewrite Ha. eauto.
    + destruct (check_row (debug_cells url links text)) as [cells|e0] eqn:Hk;
        rewrite Hs; intros e s' H; [discriminate|].
      injection H as <- <-. split; [reflexivity|].
      pose proof (check_row_Raise _ _ Hk) as ->.
      right. split; [reflexivity|]. split; [congruence|].
      now apply check_row_refused.
    + intros _ Hn. apply check_row_accepted in Hn. rewrite Hn in Hs. rewrite Hs. eauto.
  - rewrite Ha, Hs. split; [|split; [|split]].
    + intros e s' H. injection H as <- <-. split; [reflexivity|]. now left.
    + intros [rows H]. discriminate.
    + intros e s' H. injection H as <- <-. auto.
    + congruence.
Qed.

Lemma store_errors_leave_file_witness :
  legacy_state = legacy_state
  /\ ((IllegalCharacterError = FileNotFoundError /\ excel_file legacy_state = None)
      \/ (IllegalCharacterError = KeyError /\ excel_file legacy_state <> None
          /\ rows_of LINKEDIN legacy_state = None)
      \/ (IllegalCharacterError = IllegalCharacterError /\ has_linkedin legacy_state
          /\ refused (linkedin_cells form_feed_row))).
Proof.
  apply (proj1 (store_errors_leave_file form_feed_row sample_url [] [] legacy_state)
           IllegalCharacterError legacy_state).
  vm_compute. reflexivity.
Defined.

(** ** Relations kept by every step of a computation *)

Section Kept.

Context {R : state -> state -> Prop}.
Hypothesis R_refl : forall s, R s s.
Hypothesis R_trans : forall s1 s2 s3, R s1 s2 -> R s2 s3 -> R s1 s3.

Lemma bind_kept {A B} (c : M A) (f : A -> M B) (s : state) :
  R s (snd (c s)) -> (forall a s1, R s1 (snd (f a s1))) -> R s (snd (bind c f s)).
Proof.
  intros Hc Hf. unfold bind. destruct (c s) as [[a|e] s1]; simpl in *.
  - apply (R_trans _ _ _ Hc). apply Hf.
  - exact Hc.
Qed.

Lemma try_except_kept {A} (c : M A) (h : exn -> M A) (s : state) :
  R s (snd (c s)) -> (forall e s1, R s1 (snd (h e s1))) -> R s (snd (try_except c h s)).
Proof.
  intros Hc Hh. unfold try_except. destruct (c s) as [[a|e] s1]; simpl in *.
  - exact Hc.
  - apply (R_trans _ _ _ Hc). apply Hh.
Qed.

Lemma for_each_kept {A} (body : A -> M unit) :
  (forall x s, R s (snd (body x s))) ->
  forall l s, R s (snd (for_each l body s)).
Proof.
  intros Hb. induction l as [|x l IH]; intros s.
  - apply R_refl.
  - rewrite for_each_cons. apply bind_kept; [apply Hb | intros _ s1; apply IH].
Qed.

End Kept.

Lemma grows_refl s : grows s s.
Proof.
  intros name rows H. exists []. rewrite app_nil_r. split; [exact H | constructor].
Qed.

Lemma grows_trans s1 s2 s3 : grows s1 s2 -> grows s2 s3 -> grows s1 s3.
Proof.
  intros H12 H23 name rows H.
  destruct (H12 _ _ H) as [e1 [H2 F1]]. destruct (H23 _ _ H2) as [e2 [H3 F2]].
  exists (e1 ++ e2). rewrite app_assoc. split; [exact H3 | now apply Forall_app].
Qed.

Lemma grows_file s s' : excel_file s' = excel_file s -> grows s s'.
Proof.
  intros Hf name rows H. exists []. rewrite app_nil_r. split; [|constructor].
  unfold rows_of in *. now rewrite Hf.
Qed.

Lemma ok_row_linkedin r : ok_row LINKEDIN (map cell_text (linkedin_cells r)).
Proof. reflexivity. Qed.

Lemma ok_row_debug url links text : ok_row SERP_DEBUG (debug_record url links text).
Proof.
  unfold ok_row. change (Py.eqb SERP_DEBUG LINKEDIN) with false.
  change (Py.eqb SERP_DEBUG SERP_DEBUG) with true. cbv beta iota.
  split; [reflexivity|]. unfold debug_record, debug_cells, map, nth, cell_text.
  rewrite !len_slice_to by lia. lia.
Qed.

Lemma ws_append_grows name r wb n n' :
  ok_row name r ->
  grows {| calls := n; excel_file := Some wb |}
        {| calls := n'; excel_file := Some (ws_append name r wb) |}.
Proof.
  intros Hok other rows H. unfold rows_of in *. simpl in *.
  destruct (list_eq_dec N.eq_dec name other) as [<- | Hne].
  - rewrite wb_getitem_ws_append_same, H. simpl.
    exists [r]. split; [reflexivity | now constructor].
  - rewrite wb_getitem_ws_append_other by assumption.
    exists []. rewrite app_nil_r. split; [exact H | constructor].
Qed.

Lemma create_sheet_grows name wb n n' :
  grows {| calls := n; excel_file := Some wb |}
        {| calls := n'; excel_file := Some (create_sheet name wb) |}.
Proof.
  intros other rows H. unfold rows_of in *. simpl in *.
  rewrite wb_getitem_create_sheet, H.
  exists []. rewrite app_nil_r. split; [reflexivity | constructor].
Qed.

Lemma append_to_excel_row_grows row s : grows s (snd (append_to_excel_row row s)).
Proof.
  pose proof (append_to_excel_row_cases row s) as H.
  destruct (excel_file s) as [wb|] eqn:Hf; [|rewrite H; apply grows_refl].
  destruct (wb_getitem LINKEDIN wb); [|rewrite H; apply grows_refl].
  destruct (check_row (linkedin_cells row)) as [cells|e] eqn:Hk;
    rewrite H; [|apply grows_refl].
  apply check_row_Ok in Hk. subst cells.
  simpl. destruct s as [n f]. simpl in Hf. subst f.
  apply ws_append_grows, ok_row_linkedin.
Qed.

Lemma save_serp_debug_grows url links text s :
  grows s (snd (save_serp_debug url links text s)).
Proof.
  pose proof (save_serp_debug_cases url links text s) as H.
  destruct (excel_file s) as [wb|] eqn:Hf; [|rewrite H; apply grows_refl].
  destruct (check_row (debug_cells url links text)) as [cells|e] eqn:Hk;
    rewrite H; [|apply grows_refl].
  apply check_row_Ok in Hk. subst cells. fold (debug_record url links text).
  simpl. destruct s as [n f]. simpl in Hf. subst f.
  destruct (negb (PySort.mem SERP_DEBUG (sheetnames wb))) eqn:Hm.
  - apply (grows_trans _ {| calls := n; excel_file := Some (create_sheet SERP_DEBUG wb) |});
      [apply create_sheet_grows|].
    apply (grows_trans _ {| calls := n;
                            excel_file := Some (ws_append SERP_DEBUG SERP_DEBUG_HEADER
                                                  (create_sheet SERP_DEBUG wb)) |}).
    + apply ws_append_grows.
      unfold ok_row. change (Py.eqb SERP_DEBUG LINKEDIN) with false.
      change (Py.eqb SERP_DEBUG SERP_DEBUG) with true. cbv beta iota.
      split; [reflexivity | vm_compute; discriminate].
    + apply ws_append_grows, ok_row_debug.
  - apply ws_append_grows, ok_row_debug.
Qed.

Lemma init_excel_grows s : grows s (snd (init_excel s)).
Proof.
  unfold init_excel, bind, read_file, save, ret.
  destruct (excel_file s) as [wb|] eqn:Hf; simpl; [apply grows_refl|].
  intros name rows H. unfold rows_of in H. rewrite Hf in H. discriminate.
Qed.

Lemma generate_and_save_grows W llm url blog serp links ents v s :
  grows s (snd (generate_and_save W llm url blog serp links ents v s)).
Proof.
  destruct v as [label instr]. unfold generate_and_save.
  apply (bind_kept grows_trans).
  - apply grows_file, generate_one_variant_file.
  - intros p s1. apply append_to_excel_row_grows.
Qed.

Lemma process_blog_grows W E llm url s : grows s (snd (process_blog W E llm url s)).
Proof.
  unfold process_blog. apply (bind_kept grows_trans).
  - apply grows_file, scrape_url_file.
  - intros text s1. destruct (negb (truthy_str text)); [apply grows_refl|].
    apply (bind_kept grows_trans); [apply grows_file, serpapi_search_file|].
    intros links s2. apply (bind_kept grows_trans); [apply grows_file, scrape_links_file|].
    intros stext s3. apply (bind_kept grows_trans); [apply save_serp_debug_grows|].
    intros _ s4. apply (for_each_kept grows_refl grows_trans).
    intros v s5. apply generate_and_save_grows.
Qed.

Lemma main_grows W E s : grows s (snd (main W E s)).
Proof.
  unfold main. apply (bind_kept grows_trans); [apply init_excel_grows|].
  intros _ s1. apply (bind_kept grows_trans); [apply grows_file, load_llm_file|].
  intros [llm|] s2; [|apply grows_refl].
  apply (for_each_kept grows_refl grows_trans). intros url s3. apply process_blog_grows.
Qed.

(** X2.  Whatever happens in a run of [main], also one that an exception
    stops, the spreadsheet only grows: every sheet that was there keeps its
    rows in their order, "linkedin" gains only rows of seven cells,
    "serp_debug" only rows of three cells whose text cell has at most 5000
    characters, and any other sheet gains nothing. *)
Theorem main_only_appends :
  forall (W : World) (E : Env) (s : state) (name : str) (rows : list row),
    rows_of name s = Some rows ->
    exists extra,
      rows_of name (snd (main W E s)) = Some (rows ++ extra)
      /\ (name = LINKEDIN -> Forall (fun r => length r = 7) extra)
      /\ (name = SERP_DEBUG ->
          Forall (fun r => length r = 3 /\ (len (nth 2 r []) <= 5000)%Z) extra)
      /\ (name <> LINKEDIN -> name <> SERP_DEBUG -> extra = []).
Proof.
  intros W E s name rows H.
  destruct (main_grows W E s name rows H) as [extra [He Hok]].
  exists extra. split; [exact He|]. unfold ok_row in Hok. repeat split.
  - intros ->. exact Hok.
  - intros ->. exact Hok.
  - intros H1 H2. apply eqb_neq in H1, H2. rewrite H1, H2 in Hok.
    destruct extra as [|r extra]; [reflexivity|]. inversion Hok as [|? ? []].
Qed.

Lemma main_only_appends_witness :
  exists extra,
    rows_of (u "notes") (snd (main good_world (sample_env None) legacy_state))
      = Some ([[u "keep me"]] ++ extra)
    /\ (u "notes" = LINKEDIN -> Forall (fun r => length r = 7) extra)
    /\ (u "notes" = SERP_DEBUG ->
        Forall (fun r => length r = 3 /\ (len (nth 2 r []) <= 5000)%Z) extra)
    /\ (u "notes" <> LINKEDIN -> u "notes" <> SERP_DEBUG -> extra = []).
Proof.
  apply (main_only_appends good_world (sample_env None) legacy_state (u "notes")
           [[u "keep me"]]).
  reflexivity.
Defined.

(** ** Counting rows and external calls *)

Section Within.

Variable m : state -> nat.

Lemma within_refl s : within m 0 s s.
Proof. unfold within; lia. Qed.

Lemma within_weaken k k' s s' : k <= k' -> within m k s s' -> within m k' s s'.
Proof. unfold within; lia. Qed.

Lemma bind_within {A B} (c : M A) (f : A -> M B) (k1 k2 : nat) (s : state) :
  within m k1 s (snd (c s)) ->
  (forall a s1, c s = (Ok a, s1) -> within m k2 s1 (snd (f a s1))) ->
  within m (k1 + k2) s (snd (bind c f s)).
Proof.
  intros Hc Hf. unfold bind. destruct (c s) as [[a|e] s1]; simpl in *.
  - specialize (Hf a s1 eq_refl). unfold within in *. lia.
  - unfold within in *. lia.
Qed.

Lemma for_each_within {A} (body : A -> M unit) (k : nat) :
  (forall x s, within m k s (snd (body x s))) ->
  forall l s, within m (k * length l) s (snd (for_each l body s)).
Proof.
  intros Hb. induction l as [|x l IH]; intros s.
  - simpl. unfold within; lia.
  - rewrite for_each_cons. simpl length.
    replace (k * S (length l)) with (k + k * length l) by lia.
    apply bind_within; [apply Hb | intros _ s1 _; apply IH].
Qed.

End Within.

Lemma scrape_url_state W url s : snd (scrape_url W url s) = tick s.
Proof.
  rewrite scrape_url_eq.
  destruct (http_get W (calls s) url) as [e | code page]; [reflexivity|].
  destruct ((400 <=? code) && (code <? 600))%Z; [reflexivity|].
  destruct page; reflexivity.
Qed.

Lemma generate_one_variant_state W llm label instr blog serp s :
  snd (generate_one_variant W llm label instr blog serp s) = tick s.
Proof.
  unfold generate_one_variant, bind, external, lift, ret, raise.
  destruct (llm_error _) as [e|]; [destruct (is_ValueError e)|]; reflexivity.
Qed.

Lemma serpapi_search_calls W E query num s :
  within calls 1 s (snd (serpapi_search W E query num s)).
Proof.
  unfold serpapi_search, within.
  destruct (serpapi_key E) as [key|]; [|simpl; lia].
  unfold try_except, bind, external, raise, lift, ret.
  destruct (serp_get W (calls s) query key num) as [e | [data|]]; try (simpl; lia).
  destruct (json_get data (u "organic_results") (JArr [])) as [organic|e]; try (simpl; lia).
  destruct (json_slice_to organic num) as [items|e]; try (simpl; lia).
  destruct (collect_links W items []); simpl; lia.
Qed.

Lemma serpapi_search_length W E query num s links s' :
  (0 <= num)%Z ->
  serpapi_search W E query num s = (Ok links, s') ->
  (Z.of_nat (length links) <= num)%Z.
Proof.
  intros Hn. unfold serpapi_search.
  destruct (serpapi_key E) as [key|];
    [|intros H; injection H as <- _; simpl; lia].
  unfold try_except, bind, external, raise, lift, ret.
  destruct (serp_get W (calls s) query key num) as [e | [data|]];
    try (intros H; injection H as <- _; simpl; lia).
  destruct (json_get data (u "organic_results") (JArr [])) as [organic|e];
    try (intros H; injection H as <- _; simpl; lia).
  destruct (json_slice_to organic num) as [items|e] eqn:Hs;
    try (intros H; injection H as <- _; simpl; lia).
  destruct (collect_links W items []) as [r|e] eqn:Hc;
    try (intros H; injection H as <- _; simpl; lia).
  intros H; injection H as <- _.
  destruct (collect_links_spec _ _ _ _ Hc) as [extra [-> [L _]]].
  pose proof (json_slice_to_length _ _ _ Hn Hs). simpl. lia.
Qed.

Lemma scrape_links_calls W links :
  forall text s, within calls (length links) s (snd (scrape_links W links text s)).
Proof.
  induction links as [|link rest IH]; intros text s.
  - simpl. unfold within; lia.
  - simpl scrape_links. change (length (link :: rest)) with (1 + length rest).
    apply bind_within.
    + rewrite scrape_url_state. unfold within, tick; simpl; lia.
    + intros t s1 _. apply IH.
Qed.

Lemma append_to_excel_row_calls row s : calls (snd (append_to_excel_row row s)) = calls s.
Proof.
  pose proof (append_to_excel_row_cases row s) as H.
  destruct (excel_file s) as [wb|];
    [destruct (wb_getitem LINKEDIN wb); [destruct (check_row (linkedin_cells row))|]|];
    now rewrite H.
Qed.

Lemma save_serp_debug_calls url links text s :
  calls (snd (save_serp_debug url links text s)) = calls s.
Proof.
  pose proof (save_serp_debug_cases url links text s) as H.
  destruct (excel_file s) as [wb|]; [destruct (check_row (debug_cells url links text))|];
    now rewrite H.
Qed.

Lemma generate_and_save_calls W llm url blog serp links ents v s :
  within calls 1 s (snd (generate_and_save W llm url blog serp links ents v s)).
Proof.
  destruct v as [label instr]. unfold generate_and_save.
  change 1 with (1 + 0). apply bind_within.
  - rewrite generate_one_variant_state. unfold within, tick; simpl; lia.
  - intros p s1 _. unfold within. rewrite append_to_excel_row_calls. lia.
Qed.

Lemma process_blog_calls W E llm url s :
  within calls 10 s (snd (process_blog W E llm url s)).
Proof.
  unfold process_blog. change 10 with (1 + (1 + (5 + (0 + 3)))).
  apply bind_within.
  - rewrite scrape_url_state. unfold within, tick; simpl; lia.
  - intros text s1 _. destruct (negb (truthy_str text)); [unfold within; simpl; lia|].
    apply bind_within; [apply serpapi_search_calls|].
    intros links s2 Hs. apply bind_within.
    + apply (within_weaken calls (length links)); [|apply scrape_links_calls].
      assert (Z.of_nat (length links) <= 5)%Z
        by (eapply serpapi_search_length; [|exact Hs]; lia).
      lia.
    + intros stext s3 _. apply bind_within.
      * unfold within. rewrite save_serp_debug_calls. lia.
      * intros _ s4 _. change 3 with (1 * length VARIANTS).
        apply for_each_within. intros v s5. apply generate_and_save_calls.
Qed.

Lemma load_llm_calls W E s : within calls 1 s (snd (load_llm W E s)).
Proof.
  unfold load_llm, within.
  destruct (LLAMA_MODEL_PATH E) as [path|]; [|simpl; lia].
  destruct (negb (truthy_str path) || negb (path_exists E path)); [simpl; lia|].
  destruct (negb (llama_cpp_imported E)); [simpl; lia|].
  unfold bind, external, lift, ret. destruct (llama_new W (calls s) path); simpl; lia.
Qed.

Lemma init_excel_calls s : calls (snd (init_excel s)) = calls s.
Proof.
  unfold init_excel, bind, read_file, save, ret. destruct (excel_file s); reflexivity.
Qed.

(** X4.  A run of [main] makes at most 31 external calls, however it ends:
    one to load the model and, per blog, one fetch, one search request, at
    most five fetches of result pages and three model calls.  There are no
    retries. *)
Theorem main_call_budget :
  forall (W : World) (E : Env) (s : state),
    calls s <= calls (snd (main W E s)) <= calls s + 31.
Proof.
  intros W E s. change 31 with (0 + (1 + 10 * length BLOG_URLS)).
  change (within calls (0 + (1 + 10 * length BLOG_URLS)) s (snd (main W E s))).
  unfold main. apply bind_within.
  - unfold within. rewrite init_excel_calls. lia.
  - intros _ s1 _. apply bind_within; [apply load_llm_calls|].
    intros [llm|] s2 _; [|unfold within; simpl; lia].
    apply for_each_within. intros url s3. apply process_blog_calls.
Qed.

Lemma debug_first_refl s : debug_first s s.
Proof. unfold debug_first; lia. Qed.

Lemma debug_first_trans s1 s2 s3 :
  debug_first s1 s2 -> debug_first s2 s3 -> debug_first s1 s3.
Proof. unfold debug_first; lia. Qed.

Lemma debug_first_file s s' : excel_file s' = excel_file s -> debug_first s s'.
Proof.
  intros H. unfold debug_first, n_linkedin, n_serp_debug.
  rewrite (linkedin_rows_file _ _ H), (serp_debug_rows_file _ _ H). lia.
Qed.

Lemma append_to_excel_row_rows row s :
  within n_linkedin 1 s (snd (append_to_excel_row row s))
  /\ serp_debug_rows (snd (append_to_excel_row row s)) = serp_debug_rows s.
Proof.
  destruct (append_to_excel_row row s) as [[[]|e] s'] eqn:H; simpl.
  - destruct (append_to_excel_row_spec _ _ _ _ H eq_refl) as [Hl [Hd _]].
    unfold within, n_linkedin. rewrite Hl, length_app. simpl.
    split; [lia | now apply serp_debug_rows_rows_of].
  - apply append_to_excel_row_Raise in H.
    subst s'. unfold within. split; [lia | reflexivity].
Qed.

Lemma generate_and_save_rows W llm url blog serp links ents v s :
  within n_linkedin 1 s (snd (generate_and_save W llm url blog serp links ents v s))
  /\ serp_debug_rows (snd (generate_and_save W llm url blog serp links ents v s))
     = serp_debug_rows s.
Proof.
  destruct v as [label instr]. unfold generate_and_save, bind.
  pose proof (generate_one_variant_file W llm label instr blog serp s) as Hf.
  destruct (generate_one_variant W llm label instr blog serp s) as [[p|e] s1]; simpl in *.
  - match goal with |- context [append_to_excel_row ?r s1] =>
      destruct (append_to_excel_row_rows r s1) as [Hw Hd] end.
    unfold within, n_linkedin in *.
    rewrite <- (linkedin_rows_file _ _ Hf), <- (serp_debug_rows_file _ _ Hf).
    split; [exact Hw | exact Hd].
  - unfold within, n_linkedin.
    rewrite (linkedin_rows_file _ _ Hf), (serp_debug_rows_file _ _ Hf). split; [lia | reflexivity].
Qed.

Lemma variants_loop_rows W llm url blog serp links ents vs s :
  let s' := snd (for_each vs (generate_and_save W llm url blog serp links ents) s) in
  within n_linkedin (length vs) s s' /\ serp_debug_rows s' = serp_debug_rows s.
Proof.
  split.
  - replace (length vs) with (1 * length vs) by lia.
    apply for_each_within. intros v s1. apply generate_and_save_rows.
  - apply (@for_each_kept (fun a b => serp_debug_rows b = serp_debug_rows a)).
    + reflexivity.
    + intros s1 s2 s3 H12 H23. congruence.
    + intros v s1. apply generate_and_save_rows.
Qed.

Lemma process_blog_debug_first W E llm url s :
  debug_first s (snd (process_blog W E llm url s))
  /\ within n_serp_debug 1 s (snd (process_blog W E llm url s)).
Proof.
  assert (Hsame : forall s', excel_file s' = excel_file s ->
                   debug_first s s' /\ within n_serp_debug 1 s s').
  { intros s' H. split; [now apply debug_first_file|].
    unfold within, n_serp_debug. rewrite (serp_debug_rows_file _ _ H). lia. }
  destruct (process_blog W E llm url s) as [r s'] eqn:H. simpl.
  unfold process_blog in H. unfold bind at 1 in H.
  pose proof (scrape_url_file W url s) as Hf1.
  destruct (scrape_url W url s) as [[text|e] s1]; simpl in Hf1; cbv beta iota in H;
    [|injection H as _ <-; now apply Hsame].
  destruct (negb (truthy_str text));
    [unfold ret in H; injection H as _ <-; now apply Hsame|].
  unfold bind at 1 in H.
  pose proof (serpapi_search_file W E (slice_to text 80) 5 s1) as Hf2.
  destruct (serpapi_search W E (slice_to text 80) 5 s1) as [[links|e] s2]; simpl in Hf2;
    cbv beta iota in H; [|injection H as _ <-; apply Hsame; congruence].
  unfold bind at 1 in H.
  pose proof (scrape_links_file W links [] s2) as Hf3.
  destruct (scrape_links W links [] s2) as [[stext|e] s3]; simpl in Hf3;
    cbv beta iota in H; [|injection H as _ <-; apply Hsame; congruence].
  assert (Hf : excel_file s3 = excel_file s) by congruence.
  unfold bind at 1 in H.
  destruct (save_serp_debug url links stext s3) as [[[]|e] s4] eqn:Hs; cbv beta iota in H.
  - destruct (save_serp_debug_spec _ _ _ _ _ _ Hs eq_refl) as [wb [_ [Hl [Hd _]]]].
    destruct (variants_loop_rows W llm url text stext links
                (extract_entities (unicode_alnum W) stext) VARIANTS s4) as [Hw Hd'].
    rewrite H in Hw, Hd'. simpl in Hw, Hd'.
    unfold debug_first, within, n_linkedin, n_serp_debug in *.
    rewrite Hd', Hd, length_app, (serp_debug_rows_file _ _ Hf).
    rewrite (linkedin_rows_rows_of _ _ Hl), (linkedin_rows_file _ _ Hf) in Hw.
    simpl in *. lia.
  - injection H as _ <-. apply save_serp_debug_Raise in Hs.
    subst s4. now apply Hsame.
Qed.

(** ** The rows of an item and of a run (C1) *)

(** C1 (amended).  In a run that no exception stops, every item of the URL
    list is reached.  An item whose fetch returns the empty text is
    skipped: the iteration ends normally and leaves the spreadsheet as it
    was.  An item whose fetch returns a non-empty text and whose iteration
    ends normally gets exactly one new row in "serp_debug" and exactly
    three new rows in "linkedin", one per entry of [VARIANTS] and in their
    order.  So a run that no exception stops appends to "serp_debug" as
    many rows as fetches returned text, and three times as many to
    "linkedin".  An exception may stop a run in the middle of an item;
    however an iteration ends, it has taken no row away, has added at most
    one row to "serp_debug", and at most three rows to "linkedin" for a
    new row of "serp_debug". *)
Theorem C1_rows_per_item :
  forall (W : World) (E : Env),
    length VARIANTS = 3
    /\ (forall llm url s,
           fst (scrape_url W url s) = Ok [] ->
           process_blog W E llm url s = (Ok tt, snd (scrape_url W url s))
           /\ excel_file (snd (scrape_url W url s)) = excel_file s)
    /\ (forall llm url s s',
           process_blog W E llm url s = (Ok tt, s') -> item_rows W E llm url s s')
    /\ (forall llm urls s s',
           for_each urls (process_blog W E llm) s = (Ok tt, s') ->
           loop_rows W E llm urls s s')
    /\ (forall s0 s_end, main W E s0 = (Ok tt, s_end) -> run_rows W E s0 s_end)
    /\ (forall llm url s,
           n_serp_debug s <= n_serp_debug (snd (process_blog W E llm url s))
             <= n_serp_debug s + 1
           /\ n_linkedin s <= n_linkedin (snd (process_blog W E llm url s))
           /\ n_linkedin (snd (process_blog W E llm url s)) - n_linkedin s
              <= 3 * (n_serp_debug (snd (process_blog W E llm url s)) - n_serp_debug s)).
Proof.
  intros W E. split; [reflexivity|].
  split; [apply process_blog_skip|].
  split; [apply process_blog_spec|].
  split; [apply blog_loop_spec|].
  split; [apply main_spec|].
  intros llm url s.
  destruct (process_blog_debug_first W E llm url s) as [[_ [Hl Hd]] Hw].
  split; [exact Hw|]. split; [exact Hl | exact Hd].
Qed.

Lemma C1_rows_per_item_witness :
  run_rows good_world (sample_env (Some (u "secret"))) fresh_state
    (snd (main good_world (sample_env (Some (u "secret"))) fresh_state)).
Proof.
  apply (proj1 (proj2 (proj2 (proj2 (proj2
           (C1_rows_per_item good_world (sample_env (Some (u "secret"))))))))).
  vm_compute. reflexivity.
Defined.

(** The claim fails for a run that a refused write stops.  The model's
    answer holds a form feed; the first blog is fetched with the text
    "Hello" and gets its row of "serp_debug", the first row of "linkedin"
    is refused, [IllegalCharacterError] ends the run, and "linkedin" has
    its header only. *)
Lemma C1_counterexample :
  fst (scrape_url form_feed_world (nth 0 BLOG_URLS [])
         (snd ((init_excel ;;; load_llm form_feed_world (sample_env None)) fresh_state)))
    = Ok (u "Hello")
  /\ fst (main form_feed_world (sample_env None) fresh_state) = Raise IllegalCharacterError
  /\ rows_of SERP_DEBUG (snd (main form_feed_world (sample_env None) fresh_state))
     = Some [debug_record (nth 0 BLOG_URLS []) [] []]
  /\ rows_of LINKEDIN (snd (main form_feed_world (sample_env None) fresh_state))
     = Some [LINKEDIN_HEADER].
Proof. vm_compute. repeat split. Qed.

(** X3.  However the loop over the blogs ends, also when an exception stops
    it in the middle of an item, "serp_debug" has gained at most one row
    per blog, and "linkedin" at most three rows per new row of
    "serp_debug": no output row is written before the debug row of its
    item, and no row is lost. *)
Theorem loop_debug_rows_first :
  forall (W : World) (E : Env) (llm : Llama) (urls : list str) (s : state),
    let s' := snd (for_each urls (process_blog W E llm) s) in
    n_serp_debug s <= n_serp_debug s' <= n_serp_debug s + length urls
    /\ n_linkedin s <= n_linkedin s'
    /\ n_linkedin s' - n_linkedin s <= 3 * (n_serp_debug s' - n_serp_debug s).
Proof.
  intros W E llm urls s s'. split.
  - replace (length urls) with (1 * length urls) by lia.
    apply (for_each_within n_serp_debug). intros url s1. apply process_blog_debug_first.
  - apply (for_each_kept debug_first_refl debug_first_trans).
    intros url s1. apply process_blog_debug_first.
Qed.

Lemma loop_debug_rows_first_witness :
  let s := legacy_state in
  let s' := snd (for_each BLOG_URLS
                   (process_blog decode_error_world (sample_env None) LlamaHandle) s) in
  n_serp_debug s <= n_serp_debug s' <= n_serp_debug s + length BLOG_URLS
  /\ n_linkedin s <= n_linkedin s'
  /\ n_linkedin s' - n_linkedin s <= 3 * (n_serp_debug s' - n_serp_debug s).
Proof.
  exact (loop_debug_rows_first decode_error_world (sample_env None) LlamaHandle BLOG_URLS
           legacy_state).
Defined.

(** ** Without a model *)

Lemma load_llm_no_model W E s : no_model E -> load_llm W E s = (Ok None, s).
Proof.
  unfold no_model, load_llm. destruct (LLAMA_MODEL_PATH E) as [path|]; [|reflexivity].
  intros [-> | [H | H]].
  - reflexivity.
  - rewrite H. simpl. now rewrite orb_true_r.
  - rewrite H. simpl. destruct (negb (truthy_str path) || negb (path_exists E path));
      reflexivity.
Qed.

(** X5.  When the model cannot be loaded (no path, empty path, missing file
    or no [llama_cpp]), [main] only initializes the spreadsheet and
    returns: it makes no external call, so no page is fetched and no model
    is constructed, and it appends no row. *)
Theorem main_without_model :
  forall (W : World) (E : Env) (s : state),
    no_model E ->
    main W E s = (Ok tt, snd (init_excel s))
    /\ calls (snd (main W E s)) = calls s
    /\ (excel_file s <> None -> snd (main W E s) = s).
Proof.
  intros W E s H.
  assert (Hm : main W E s = (Ok tt, snd (init_excel s))).
  { unfold main. unfold bind at 1.
    assert (Hi : fst (init_excel s) = Ok tt).
    { unfold init_excel, bind, read_file, save, ret. destruct (excel_file s); reflexivity. }
    destruct (init_excel s) as [r s1]. simpl in Hi. subst r. simpl.
    unfold bind. rewrite (load_llm_no_model W E s1 H). reflexivity. }
  split; [exact Hm|]. rewrite Hm. simpl. split; [apply init_excel_calls|].
  intros Hf. unfold init_excel, bind, read_file, ret.
  destruct (excel_file s); [reflexivity | congruence].
Qed.

Lemma main_without_model_witness :
  main good_world env_without_model fresh_state = (Ok tt, snd (init_excel fresh_state))
  /\ calls (snd (main good_world env_without_model fresh_state)) = calls fresh_state
  /\ (excel_file fresh_state <> None ->
      snd (main good_world env_without_model fresh_state) = fresh_state).
Proof.
  apply (main_without_model good_world env_without_model fresh_state).
  exact I.
Defined.

(** ** Without a search credential *)

Lemma variants_loop_calls W llm url blog serp links ents :
  forall vs s s',
    for_each vs (generate_and_save W llm url blog serp links ents) s = (Ok tt, s') ->
    calls s' = calls s + length vs.
Proof.
  induction vs as [|[label instr] vs IH]; intros s s' H.
  - simpl in H. unfold ret in H. injection H as <-. simpl; lia.
  - rewrite for_each_cons in H. unfold bind at 1 in H.
    destruct (generate_and_save W llm url blog serp links ents (label, instr) s)
      as [[[]|e] s1] eqn:Hg; cbv beta iota in H; [|discriminate].
    unfold generate_and_save, bind in Hg.
    pose proof (generate_one_variant_state W llm label instr blog serp s) as Hst.
    destruct (generate_one_variant W llm label instr blog serp s) as [[p|e] s0];
      cbv beta iota in Hg; [|discriminate].
    simpl in Hst. subst s0.
    destruct (append_to_excel_row_spec _ _ _ _ Hg eq_refl) as [_ [_ [_ Hc]]].
    rewrite (IH _ _ H), Hc. simpl. lia.
Qed.

Lemma extract_entities_empty ua :
  extract_entities ua [] = {| emails := []; proper_nouns := [] |}.
Proof. reflexivity. Qed.

(** X6.  Without a search credential an item with text is processed with
    no enrichment: no search request and no further fetch is made (four
    external calls in all: the blog fetch and the three model calls), the
    row of "serp_debug" is the URL, the JSON text of the empty list and the
    empty text, and the three rows of "linkedin" have empty e-mail,
    proper-noun and link cells.  The other cells are the URL, the label,
    the headline and the body as a cell keeps them, that is, cut to 32767
    characters. *)
Theorem process_blog_without_key :
  forall (W : World) (E : Env) (llm : Llama) (url : str) (s s' : state),
    serpapi_key E = None ->
    fst (scrape_url W url s) <> Ok [] ->
    process_blog W E llm url s = (Ok tt, s') ->
    serp_debug_rows s' = serp_debug_rows s ++ [[cell_text url; u "[]"; []]]
    /\ (exists posts,
           length posts = 3
           /\ linkedin_rows s' =
                linkedin_rows s
                  ++ map (fun vp : (str * str) * post =>
                            [cell_text url; cell_text (fst (fst vp));
                             cell_text (headline (snd vp)); cell_text (body (snd vp));
                             []; []; []])
                         (combine VARIANTS posts))
    /\ calls s' = calls s + 4.
Proof.
  intros W E llm url s s' Hk Hne H.
  unfold process_blog in H. unfold bind at 1 in H.
  pose proof (scrape_url_state W url s) as Hst.
  destruct (scrape_url W url s) as [[text|e] s1]; cbv beta iota in H; [|discriminate].
  simpl in Hst, Hne. subst s1.
  destruct text as [|c text]; [exfalso; apply Hne; reflexivity|].
  cbv beta iota delta [negb truthy_str] in H.
  unfold bind at 1 in H. unfold serpapi_search in H. rewrite Hk in H.
  unfold ret at 1 in H. cbv beta iota in H.
  unfold bind at 1 in H. simpl scrape_links in H. unfold ret at 1 in H. cbv beta iota in H.
  rewrite extract_entities_empty in H.
  unfold bind at 1 in H.
  destruct (save_serp_debug url [] [] (tick s)) as [[[]|e] s4] eqn:Hs;
    cbv beta iota in H; [|discriminate].
  destruct (save_serp_debug_spec _ _ _ _ _ _ Hs eq_refl) as [wb [_ [Hl [Hd Hc]]]].
  destruct (variants_loop_spec _ _ _ _ _ _ _ _ _ _ H) as [posts [Hlen [Hl' Hd']]].
  pose proof (variants_loop_calls _ _ _ _ _ _ _ _ _ _ H) as Hc'.
  assert (Hfile : excel_file (tick s) = excel_file s) by reflexivity.
  split; [|split].
  - rewrite Hd', Hd, (serp_debug_rows_file _ _ Hfile). reflexivity.
  - exists posts. split; [exact Hlen|].
    rewrite Hl', (linkedin_rows_rows_of _ _ Hl), (linkedin_rows_file _ _ Hfile).
    reflexivity.
  - rewrite Hc', Hc. simpl. lia.
Qed.

Lemma process_blog_without_key_witness :
  serp_debug_rows
    (snd (process_blog good_world (sample_env None) LlamaHandle sample_url legacy_state))
  = serp_debug_rows legacy_state ++ [[cell_text sample_url; u "[]"; []]]
  /\ (exists posts,
         length posts = 3
         /\ linkedin_rows
              (snd (process_blog good_world (sample_env None) LlamaHandle sample_url
                      legacy_state))
            = linkedin_rows legacy_state
                ++ map (fun vp : (str * str) * post =>
                          [cell_text sample_url; cell_text (fst (fst vp));
                           cell_text (headline (snd vp)); cell_text (body (snd vp));
                           []; []; []])
                       (combine VARIANTS posts))
  /\ calls (snd (process_blog good_world (sample_env None) LlamaHandle sample_url
                   legacy_state))
     = calls legacy_state + 4.
Proof.
  apply (process_blog_without_key good_world (sample_env None) LlamaHandle sample_url
           legacy_state).
  - reflexivity.
  - discriminate.
  - vm_compute. reflexivity.
Defined.

(** ** The matcher only reports texts of the pattern *)

Lemma rmatch_sound ua r :
  forall prev s k res,
    Re.rmatch ua r prev s k = Some res ->
    exists m s' p', s = m ++ s' /\ denotes r m /\ k p' s' = Some res.
Proof.
  induction r as [ranges | a | r1 IH1 r2 IH2 | r1 IH1 | ]; intros prev s k res H; simpl in H.
  - destruct s as [|c t]; [discriminate|].
    destruct (Re.in_class ranges c) eqn:Hc; [|discriminate].
    exists [c], t, (Some c). repeat split; [now constructor | exact H].
  - destruct s as [|c t]; [discriminate|].
    destruct (N.eqb_spec c a) as [-> | _]; [|discriminate].
    exists [a], t, (Some a). repeat split; [constructor | exact H].
  - destruct (IH1 _ _ _ _ H) as [m1 [s1 [p1 [E1 [D1 H1]]]]].
    destruct (IH2 _ _ _ _ H1) as [m2 [s2 [p2 [E2 [D2 H2]]]]].
    exists (m1 ++ m2), s2, p2. rewrite <- app_assoc, <- E2.
    repeat split; [exact E1 | now constructor | exact H2].
  - remember (length s) as n eqn:Hn. clear Hn.
    revert prev s H. induction n as [|n IHn]; intros prev s H.
    + exists [], s, prev. repeat split; [constructor | exact H].
    + destruct (Re.rmatch ua r1 prev s _) as [res'|] eqn:Hm.
      * injection H as ->.
        destruct (IH1 _ _ _ _ Hm) as [m1 [s1 [p1 [E1 [D1 H1]]]]].
        destruct (length s1 <? length s); [|discriminate].
        destruct (IHn _ _ H1) as [m2 [s2 [p2 [E2 [D2 H2]]]]].
        exists (m1 ++ m2), s2, p2. rewrite <- app_assoc, <- E2.
        repeat split; [exact E1 | now constructor | exact H2].
      * exists [], s, prev. repeat split; [constructor | exact H].
  - destruct (xorb _ _); [|discriminate].
    exists [], s, prev. repeat split; [constructor | exact H].
Qed.

Lemma match_here_sound ua r prev s rest :
  Re.match_here ua r prev s = Some rest -> exists m, s = m ++ rest /\ denotes r m.
Proof.
  intros H. destruct (rmatch_sound ua r _ _ _ _ H) as [m [s' [p' [E [D Hk]]]]].
  injection Hk as ->. now exists m.
Qed.

Lemma findall_aux_cons ua r skip prev c t :
  Re.findall_aux ua r skip prev (c :: t) =
  match skip with
  | S k => Re.findall_aux ua r k (Some c) t
  | O =>
      match Re.match_here ua r prev (c :: t) with
      | Some rest =>
          firstn (length (c :: t) - length rest) (c :: t)
            :: Re.findall_aux ua r (length (c :: t) - length rest - 1) (Some c) t
      | None => Re.findall_aux ua r 0 (Some c) t
      end
  end.
Proof. reflexivity. Qed.

Lemma findall_aux_sound ua r :
  forall s skip prev x,
    In x (Re.findall_aux ua r skip prev s) ->
    occurs x s /\ denotes r x.
Proof.
  induction s as [|c t IH]; intros skip prev x H;
    [simpl in H | rewrite findall_aux_cons in H].
  - destruct (Re.match_here ua r prev []) as [rest|] eqn:Hm; [|contradiction].
    destruct H as [<- | []].
    destruct (match_here_sound _ _ _ _ _ Hm) as [m [E D]].
    symmetry in E. apply app_eq_nil in E. destruct E as [-> ->].
    split; [now exists [], [] | exact D].
  - assert (Htail : forall skip' prev',
               In x (Re.findall_aux ua r skip' prev' t) -> occurs x (c :: t) /\ denotes r x).
    { intros skip' prev' Hin. destruct (IH _ _ _ Hin) as [[a [b E]] D].
      split; [|exact D]. exists (c :: a), b. now rewrite E. }
    destruct skip as [|k]; [|now apply (Htail k (Some c))].
    destruct (Re.match_here ua r prev (c :: t)) as [rest|] eqn:Hm;
      [|now apply (Htail 0 (Some c))].
    destruct H as [<- | H]; [|now apply (Htail _ (Some c) H)].
    destruct (match_here_sound _ _ _ _ _ Hm) as [m [E D]].
    assert (Hx : firstn (length (c :: t) - length rest) (c :: t) = m).
    { rewrite E. rewrite length_app.
      replace (length m + length rest - length rest) with (length m) by lia.
      now rewrite firstn_app, firstn_all, Nat.sub_diag, firstn_O, app_nil_r. }
    rewrite Hx. split; [|exact D]. exists [], rest. exact E.
Qed.

Lemma findall_sound ua r text x :
  In x (Re.findall ua r text) -> occurs x text /\ denotes r x.
Proof. apply findall_aux_sound. Qed.

Lemma denotes_class_inv ranges m :
  denotes (Re.Class ranges) m -> exists c, m = [c] /\ Re.in_class ranges c = true.
Proof. intros H. inversion H; subst. now exists c. Qed.

Lemma denotes_lit_inv a m : denotes (Re.Lit a) m -> m = [a].
Proof. intros H. now inversion H. Qed.

Lemma denotes_seq_inv r1 r2 m :
  denotes (Re.Seq r1 r2) m -> exists m1 m2, m = m1 ++ m2 /\ denotes r1 m1 /\ denotes r2 m2.
Proof. intros H. inversion H; subst. now exists m1, m2. Qed.

Lemma denotes_wordb_inv m : denotes Re.WordB m -> m = [].
Proof. intros H. now inversion H. Qed.

Lemma denotes_star_class ranges m :
  denotes (Re.Star (Re.Class ranges)) m ->
  Forall (fun c => Re.in_class ranges c = true) m.
Proof.
  intros H. remember (Re.Star (Re.Class ranges)) as r eqn:Hr.
  induction H as [ | | | r0 | r0 m ms H1 _ H2 IH2 | ]; try discriminate.
  - constructor.
  - injection Hr as ->. destruct (denotes_class_inv _ _ H1) as [c [-> Hc]].
    simpl. constructor; [exact Hc | now apply IH2].
Qed.

Lemma denotes_plus_class ranges m :
  denotes (Re.Plus (Re.Class ranges)) m ->
  m <> [] /\ Forall (fun c => Re.in_class ranges c = true) m.
Proof.
  intros H. destruct (denotes_seq_inv _ _ _ H) as [m1 [m2 [-> [H1 H2]]]].
  destruct (denotes_class_inv _ _ H1) as [c [-> Hc]].
  split; [discriminate|]. simpl. constructor; [exact Hc | now apply denotes_star_class].
Qed.

Ltac class_bool :=
  unfold Re.in_class, is_local_char, is_domain_char, is_letter, is_upper, is_lower,
    is_digit; simpl existsb; intros H;
  repeat rewrite ?orb_true_iff, ?andb_true_iff, ?N.leb_le, ?N.eqb_eq in *;
  intuition (try discriminate; try lia).

Lemma local_class c :
  Re.in_class [(65, 90); (97, 122); (48, 57); (46, 46); (95, 95); (37, 37); (43, 43);
               (45, 45)]%N c = true -> is_local_char c = true.
Proof. class_bool. Qed.

Lemma domain_class c :
  Re.in_class [(65, 90); (97, 122); (48, 57); (46, 46); (45, 45)]%N c = true ->
  is_domain_char c = true.
Proof. class_bool. Qed.

Lemma letter_class c :
  Re.in_class [(65, 90); (97, 122)]%N c = true -> is_letter c = true.
Proof. class_bool. Qed.

Lemma upper_class c : Re.in_class [(65, 90)]%N c = true -> is_upper c = true.
Proof. class_bool. Qed.

Lemma lower_class c : Re.in_class [(97, 122)]%N c = true -> is_lower c = true.
Proof. class_bool. Qed.

Lemma denotes_email m : denotes EMAIL_RE m -> email_shape m.
Proof.
  intros H. unfold EMAIL_RE in H.
  destruct (denotes_seq_inv _ _ _ H) as [local [m1 [-> [Hl H1]]]].
  destruct (denotes_seq_inv _ _ _ H1) as [at_ [m2 [-> [Ha H2]]]].
  destruct (denotes_seq_inv _ _ _ H2) as [domain [m3 [-> [Hd H3]]]].
  destruct (denotes_seq_inv _ _ _ H3) as [dot [tld [-> [Hdot Ht]]]].
  apply denotes_lit_inv in Ha, Hdot. subst at_ dot.
  destruct (denotes_plus_class _ _ Hl) as [Hl1 Hl2].
  destruct (denotes_plus_class _ _ Hd) as [Hd1 Hd2].
  unfold Re.AtLeast2 in Ht.
  destruct (denotes_seq_inv _ _ _ Ht) as [t1 [m4 [-> [Ht1 H4]]]].
  destruct (denotes_seq_inv _ _ _ H4) as [t2 [t3 [-> [Ht2 Ht3]]]].
  destruct (denotes_class_inv _ _ Ht1) as [c1 [-> Hc1]].
  destruct (denotes_class_inv _ _ Ht2) as [c2 [-> Hc2]].
  apply denotes_star_class in Ht3.
  exists local, domain, ([c1] ++ [c2] ++ t3). split; [reflexivity|].
  split; [exact Hl1|]. split; [eapply Forall_impl; [apply local_class | exact Hl2]|].
  split; [exact Hd1|]. split; [eapply Forall_impl; [apply domain_class | exact Hd2]|].
  split; [simpl; lia|].
  simpl. constructor; [now apply letter_class|]. constructor; [now apply letter_class|].
  eapply Forall_impl; [apply letter_class | exact Ht3].
Qed.

Lemma denotes_cap_word w : denotes CAP_WORD w -> cap_word w.
Proof.
  intros H. unfold CAP_WORD in H.
  destruct (denotes_seq_inv _ _ _ H) as [m1 [rest [-> [H1 H2]]]].
  destruct (denotes_class_inv _ _ H1) as [c [-> Hc]].
  destruct (denotes_plus_class _ _ H2) as [Hne Hall].
  exists c, rest. split; [reflexivity|]. split; [now apply upper_class|].
  split; [exact Hne|]. eapply Forall_impl; [apply lower_class | exact Hall].
Qed.

Lemma denotes_more_words ms :
  denotes (Re.Star (Re.Seq (Re.Lit 32%N) CAP_WORD)) ms ->
  exists ws, ms = concat (map (cons 32%N) ws) /\ Forall cap_word ws.
Proof.
  intros H. remember (Re.Star (Re.Seq (Re.Lit 32%N) CAP_WORD)) as r eqn:Hr.
  induction H as [ | | | r0 | r0 m ms H1 _ H2 IH2 | ]; try discriminate.
  - exists []. split; [reflexivity | constructor].
  - injection Hr as ->. destruct (IH2 eq_refl) as [ws [-> Hws]].
    destruct (denotes_seq_inv _ _ _ H1) as [sp [w [-> [Hsp Hw]]]].
    apply denotes_lit_inv in Hsp. subst sp.
    exists (w :: ws). split; [reflexivity|]. constructor; [now apply denotes_cap_word | exact Hws].
Qed.

Lemma join_space w ws : join [32%N] (w :: ws) = w ++ concat (map (cons 32%N) ws).
Proof.
  revert w. induction ws as [|w' ws IH]; intros w.
  - simpl. now rewrite app_nil_r.
  - rewrite join_cons by discriminate. rewrite IH. reflexivity.
Qed.

Lemma denotes_proper_noun m : denotes PROPER_NOUN_RE m -> proper_noun_shape m.
Proof.
  intros H. unfold PROPER_NOUN_RE in H.
  destruct (denotes_seq_inv _ _ _ H) as [b1 [m1 [-> [Hb1 H1]]]].
  destruct (denotes_seq_inv _ _ _ H1) as [w [m2 [-> [Hw H2]]]].
  destruct (denotes_seq_inv _ _ _ H2) as [more [b2 [-> [Hmore Hb2]]]].
  apply denotes_wordb_inv in Hb1, Hb2. subst b1 b2.
  destruct (denotes_more_words _ Hmore) as [ws [-> Hws]].
  exists w, ws. rewrite join_space, app_nil_r. split; [reflexivity|].
  constructor; [now apply denotes_cap_word | exact Hws].
Qed.

Lemma occurs_In sub t c : occurs sub t -> In c sub -> In c t.
Proof. intros [a [b ->]] H. apply in_or_app. right. apply in_or_app. now left. Qed.

(** X7.  Whatever the text, every e-mail the extractor returns occurs in
    the text and has the shape local@domain.tld (non-empty local part of
    letters, digits and [._%+-], non-empty domain of letters, digits, dots
    and hyphens, then a dot and at least two letters), and every proper
    noun it returns occurs in the text and is one or more words, each an
    upper-case letter followed by lower-case letters, separated by single
    spaces.  So a text without "@" gives no e-mail and a text without an
    upper-case letter gives no proper noun. *)
Theorem extract_entities_sound :
  forall (ua : char -> bool) (text : str),
    (forall x, In x (emails (extract_entities ua text)) ->
               occurs x text /\ email_shape x)
    /\ (forall x, In x (proper_nouns (extract_entities ua text)) ->
                  occurs x text /\ proper_noun_shape x)
    /\ (~ In 64%N text -> emails (extract_entities ua text) = [])
    /\ (Forall (fun c => is_upper c = false) text ->
        proper_nouns (extract_entities ua text) = []).
Proof.
  intros ua text.
  assert (He : forall x, In x (emails (extract_entities ua text)) ->
                         occurs x text /\ email_shape x).
  { intros x H. unfold extract_entities in H. simpl emails in H.
    rewrite sorted_In, set_In in H.
    destruct (findall_sound _ _ _ _ H) as [Ho Hd]. split; [exact Ho | now apply denotes_email]. }
  assert (Hp : forall x, In x (proper_nouns (extract_entities ua text)) ->
                         occurs x text /\ proper_noun_shape x).
  { intros x H. unfold extract_entities in H. simpl proper_nouns in H.
    rewrite sorted_In, set_In in H.
    destruct (findall_sound _ _ _ _ H) as [Ho Hd].
    split; [exact Ho | now apply denotes_proper_noun]. }
  split; [exact He|]. split; [exact Hp|]. split.
  - intros Hno. destruct (emails (extract_entities ua text)) as [|x l]; [reflexivity|].
    exfalso. destruct (He x (or_introl eq_refl)) as [Ho [local [domain [tld [-> _]]]]].
    apply Hno. apply (occurs_In _ _ _ Ho). apply in_or_app. right. now left.
  - intros Hno. destruct (proper_nouns (extract_entities ua text)) as [|x l]; [reflexivity|].
    exfalso. destruct (Hp x (or_introl eq_refl)) as [Ho [w [ws [-> Hall]]]].
    inversion Hall as [|? ? [c [rest [-> [Hc _]]]] _]; subst.
    rewrite Forall_forall in Hno.
    assert (Hin : In c text).
    { apply (occurs_In _ _ _ Ho). rewrite join_space. now left. }
    rewrite (Hno _ Hin) in Hc. discriminate.
Qed.

Lemma extract_entities_sound_witness :
  occurs (u "jane.doe@example.com") (u "Mail jane.doe@example.com today")
  /\ email_shape (u "jane.doe@example.com").
Proof.
  apply (proj1 (extract_entities_sound (fun _ => false)
                  (u "Mail jane.doe@example.com today"))).
  vm_compute. left. reflexivity.
Defined.

(** ** The links of a search answer *)

Lemma collect_links_harmless W item rest links :
  harmless W item = true ->
  collect_links W (item :: rest) links =
  collect_links W rest
    (links ++ filter (fun x => truthy_str x && validators_url W x) (link_of item)).
Proof.
  intros H. destruct item as [| b | z | x | l | members]; try discriminate.
  simpl in *. destruct (assoc (u "link") members) as [v|]; simpl;
    [|now rewrite app_nil_r].
  destruct v as [| b | z | x | l | m]; simpl in *;
    try (apply negb_true_iff in H; rewrite H); try now rewrite app_nil_r.
  destruct (truthy_str x && validators_url W x); [reflexivity | now rewrite app_nil_r].
Qed.

Lemma collect_links_harmful W item rest links :
  harmless W item = false -> exists e, collect_links W (item :: rest) links = Raise e.
Proof.
  intros H. destruct item as [| b | z | x | l | members];
    try (eexists; reflexivity).
  simpl in *. destruct (assoc (u "link") members) as [v|]; [|discriminate].
  destruct v as [| b | z | x | l | m]; simpl in *; try discriminate;
    apply negb_false_iff in H; rewrite H; eexists; reflexivity.
Qed.

Lemma collect_links_exact W items :
  forall links,
    (forallb (harmless W) items = true ->
     collect_links W items links =
     Ok (links ++ filter (fun x => truthy_str x && validators_url W x)
                    (flat_map link_of items)))
    /\ (forallb (harmless W) items = false ->
        exists e, collect_links W items links = Raise e).
Proof.
  induction items as [|item rest IH]; intros links.
  - split; [|discriminate]. intros _. simpl. now rewrite app_nil_r.
  - simpl forallb. destruct (harmless W item) eqn:Hi; simpl andb.
    + rewrite (collect_links_harmless _ _ _ _ Hi). split; intros Hr.
      * rewrite (proj1 (IH _) Hr). simpl flat_map. now rewrite filter_app, app_assoc.
      * apply (proj2 (IH _) Hr).
    + split; [discriminate|]. intros _. now apply collect_links_harmful.
Qed.

Lemma serpapi_search_answer W E key query num s members l :
  serpapi_key E = Some key ->
  serp_get W (calls s) query key num = SerpResponse (Some (JObj members)) ->
  assoc (u "organic_results") members = Some (JArr l) ->
  serpapi_search W E query num s =
  (Ok (if forallb (harmless W) (slice_to l num)
       then filter (fun x => truthy_str x && validators_url W x)
              (flat_map link_of (slice_to l num))
       else []),
   tick s).
Proof.
  intros Hk Hg Ha. unfold serpapi_search. rewrite Hk.
  unfold try_except, bind, external, raise, lift, ret. rewrite Hg.
  unfold json_get. rewrite Ha. unfold json_slice_to.
  destruct (collect_links_exact W (slice_to l num) []) as [Hok Hbad].
  destruct (forallb (harmless W) (slice_to l num)).
  - rewrite (Hok eq_refl). reflexivity.
  - destruct (Hbad eq_refl) as [e ->]. reflexivity.
Qed.

(** X8.  When the search answers with an object whose "organic_results" is
    a list, and each of its first [num] results is an object whose link is
    a string or absent, the search step returns, in the order of the
    answer and with repetitions kept, the non-empty links among these that
    [validators.url] accepts; a later result is never looked at. *)
Theorem serpapi_search_links :
  forall (W : World) (E : Env) (key query : str) (num : Z) (s : state)
         (members : list (str * json)) (l : list json),
    serpapi_key E = Some key ->
    serp_get W (calls s) query key num = SerpResponse (Some (JObj members)) ->
    assoc (u "organic_results") members = Some (JArr l) ->
    forallb (harmless W) (slice_to l num) = true ->
    serpapi_search W E query num s =
    (Ok (filter (fun x => truthy_str x && validators_url W x)
           (flat_map link_of (slice_to l num))),
     tick s).
Proof.
  intros W E key query num s members l Hk Hg Ha Hh.
  rewrite (serpapi_search_answer W E key query num s members l Hk Hg Ha), Hh. reflexivity.
Qed.

Lemma serpapi_search_links_witness :
  serpapi_search tidy_world (sample_env (Some (u "secret"))) (u "Hello") 5 fresh_state =
  (Ok (filter (fun x => truthy_str x && validators_url tidy_world x)
         (flat_map link_of (slice_to tidy_list 5))),
   tick fresh_state).
Proof.
  apply (serpapi_search_links tidy_world (sample_env (Some (u "secret"))) (u "secret")
           (u "Hello") 5 fresh_state [(u "organic_results", JArr tidy_list)] tidy_list);
    reflexivity.
Defined.

Example serpapi_search_tidy :
  serpapi_search tidy_world (sample_env (Some (u "secret"))) (u "Hello") 5 fresh_state =
  (Ok [u "https://a.example/1"; u "https://a.example/1"], tick fresh_state).
Proof. vm_compute. reflexivity. Qed.

(** X9.  One malformed result spoils the whole answer: when one of the first
    [num] results is not an object (or has a truthy link that is no string
    and on which [validators.url] raises), the search step returns the
    empty list, also when results before it had valid links. *)
Theorem serpapi_search_all_or_nothing :
  forall (W : World) (E : Env) (key query : str) (num : Z) (s : state)
         (members : list (str * json)) (l : list json),
    serpapi_key E = Some key ->
    serp_get W (calls s) query key num = SerpResponse (Some (JObj members)) ->
    assoc (u "organic_results") members = Some (JArr l) ->
    forallb (harmless W) (slice_to l num) = false ->
    serpapi_search W E query num s = (Ok [], tick s).
Proof.
  intros W E key query num s members l Hk Hg Ha Hh.
  rewrite (serpapi_search_answer W E key query num s members l Hk Hg Ha), Hh. reflexivity.
Qed.

Lemma serpapi_search_all_or_nothing_witness :
  serpapi_search broken_world (sample_env (Some (u "secret"))) (u "Hello") 5 fresh_state
  = (Ok [], tick fresh_state).
Proof.
  apply (serpapi_search_all_or_nothing broken_world (sample_env (Some (u "secret")))
           (u "secret") (u "Hello") 5 fresh_state
           [(u "organic_results", JArr broken_list)] broken_list);
    reflexivity.
Defined.

(** ** When a page has no text *)

Lemma lstrip_nil_iff s : lstrip s = [] <-> all_space s.
Proof.
  induction s as [|c t IH]; simpl.
  - split; [constructor | reflexivity].
  - destruct (isspace c) eqn:Hc.
    + rewrite IH. split; [now constructor | now inversion 1].
    + split; [discriminate|]. inversion 1; congruence.
Qed.

Lemma strip_nil_iff s : strip s = [] <-> all_space s.
Proof.
  split.
  - intros H. destruct (strip_spec s) as [l [r [E [Hl [Hr _]]]]].
    rewrite H in E. rewrite E. simpl. now apply Forall_app.
  - intros H. unfold strip. apply lstrip_nil_iff in H. rewrite H. reflexivity.
Qed.

Lemma get_text_nil_iff sep p : get_text sep p = [] <-> Forall all_space p.
Proof.
  unfold get_text. split.
  - intros H.
    assert (Hf : filter truthy_str (map strip p) = []).
    { destruct (filter truthy_str (map strip p)) as [|x l] eqn:E; [reflexivity|].
      exfalso. destruct (join_trimmed sep (x :: l)) as [Hne _];
        [discriminate | rewrite <- E; apply stripped_strings | now apply Hne]. }
    apply Forall_forall. intros t Ht. apply strip_nil_iff.
    destruct (strip t) as [|c r] eqn:Es; [reflexivity|].
    exfalso. assert (Hin : In (c :: r) (filter truthy_str (map strip p))).
    { apply filter_In. split; [|reflexivity]. rewrite <- Es. now apply in_map. }
    rewrite Hf in Hin. contradiction.
  - intros H. replace (filter truthy_str (map strip p)) with (@nil str); [reflexivity|].
    symmetry. induction H as [|t p Ht _ IH]; [reflexivity|].
    simpl. apply strip_nil_iff in Ht. rewrite Ht. exact IH.
Qed.

Lemma paras_nil_iff ps :
  join NLNL (map (get_text (u " ")) (filter (fun p => truthy_str (get_text [] p)) ps)) = []
  <-> Forall (fun p => Forall all_space p) ps.
Proof.
  set (paras := map (get_text (u " ")) (filter (fun p => truthy_str (get_text [] p)) ps)).
  assert (Hall : Forall (fun t => t <> [] /\ trimmed t) paras).
  { apply Forall_forall. intros t Ht. apply in_map_iff in Ht.
    destruct Ht as [p [<- Hp]]. apply filter_In in Hp. destruct Hp as [_ Hp].
    now apply get_text_trimmed. }
  split.
  - intros H.
    assert (Hp : paras = []).
    { destruct paras as [|x l] eqn:E; [reflexivity|].
      exfalso. destruct (join_trimmed NLNL (x :: l)) as [Hne _];
        [discriminate | exact Hall | now apply Hne]. }
    apply Forall_forall. intros p Hin. apply (get_text_nil_iff []).
    destruct (get_text [] p) as [|c r] eqn:Eg; [reflexivity|].
    exfalso. assert (Hin' : In (get_text (u " ") p) paras).
    { apply in_map. apply filter_In. split; [exact Hin | now rewrite Eg]. }
    rewrite Hp in Hin'. contradiction.
  - intros H. replace paras with (@nil str); [reflexivity|].
    symmetry. unfold paras. clear paras Hall.
    induction H as [|p ps Hp _ IH]; [reflexivity|].
    simpl. apply (get_text_nil_iff []) in Hp. rewrite Hp. exact IH.
Qed.

(** X10.  For a response that is parsed (status outside 400-599, markup
    read), the fetcher returns the empty string exactly when no [<p>]
    element of the page has a non-whitespace string; so [main] skips an
    item that was fetched exactly when the page has no paragraph text.  A
    non-empty result has no whitespace at its ends. *)
Theorem scrape_url_empty_iff :
  forall (W : World) (url : str) (s : state) (code : Z) (soup_p : list ptag),
    http_get W (calls s) url = HttpResponse code (Some soup_p) ->
    ~ (400 <= code < 600)%Z ->
    exists text,
      scrape_url W url s = (Ok text, tick s)
      /\ (text = [] <-> Forall (fun p => Forall all_space p) soup_p)
      /\ trimmed text.
Proof.
  intros W url s code soup_p Hg Hc. rewrite scrape_url_eq, Hg.
  destruct (Z.leb_spec 400 code), (Z.ltb_spec code 600); try lia; simpl andb; cbv iota;
    (eexists; split; [reflexivity|]; split; [apply paras_nil_iff|]).
  all: match goal with |- trimmed (join NLNL ?l) =>
         destruct l as [|x r] eqn:E;
           [split; exact I
           | rewrite <- E; apply (join_trimmed NLNL); [rewrite E; discriminate|];
             apply Forall_forall; intros t Ht; apply in_map_iff in Ht;
             destruct Ht as [p [<- Hp]]; apply filter_In in Hp; destruct Hp as [_ Hp];
             now apply get_text_trimmed]
       end.
Qed.

Lemma scrape_url_empty_iff_witness :
  exists text,
    scrape_url good_world sample_url fresh_state = (Ok text, tick fresh_state)
    /\ (text = [] <-> Forall (fun p => Forall all_space p) [[u "Hello"]])
    /\ trimmed text.
Proof.
  apply (scrape_url_empty_iff good_world sample_url fresh_state 200 [[u "Hello"]]).
  - reflexivity.
  - lia.
Defined.

(** ** When the prompt is sent whole *)

Lemma slice_to_app_long (a b : str) (n : Z) :
  (len a <= n)%Z -> slice_to (a ++ b) n = a ++ slice_to b (n - len a).
Proof.
  intros H. pose proof (len_nonneg a) as Ha.
  rewrite !slice_to_nonneg by lia. rewrite firstn_app.
  rewrite firstn_all2 by (unfold len in H; lia).
  f_equal. f_equal. unfold len. lia.
Qed.

(** X11.  The prompt sent to the model is the composed prompt, envelope
    instruction included, exactly when label, style instruction and
    background have together at most 5499 characters; its length is the
    smaller of 7000 and the composed length.  The cut is at the end: as long
    as label and instruction have at most 5809 characters, the whole
    preamble up to the background is sent. *)
Theorem prompt_sent_whole_iff :
  forall label instr blog serp : str,
    let combined := slice_to blog 5000 ++ NLNL ++ slice_to serp 7000 in
    (build_prompt label instr blog serp = compose_prompt label instr blog serp
     <-> (len label + len instr + len combined <= 5499)%Z)
    /\ len (build_prompt label instr blog serp)
       = Z.min 7000 (1501 + len label + len instr + len combined)
    /\ ((len label + len instr <= 5809)%Z ->
        prefix_of (PROMPT_1 ++ label ++ PROMPT_2 ++ instr ++ PROMPT_3)
          (build_prompt label instr blog serp)).
Proof.
  intros label instr blog serp combined.
  pose proof (len_compose_prompt label instr blog serp) as Hlen. fold combined in Hlen.
  assert (Hb : len (build_prompt label instr blog serp)
               = Z.min 7000 (1501 + len label + len instr + len combined)).
  { unfold build_prompt.
    destruct (Z.le_gt_cases (len (compose_prompt label instr blog serp)) 7000) as [Hs | Hl].
    - rewrite final_trim_prompt_short by exact Hs. lia.
    - destruct (final_trim_prompt_long (compose_prompt label instr blog serp) 7000)
        as [_ [Hl' _]]; [lia | lia |]. rewrite Hl'. lia. }
  split; [|split; [exact Hb|]].
  - split.
    + intros H. rewrite H in Hb. lia.
    + intros H. unfold build_prompt. apply final_trim_prompt_short. lia.
  - intros Hp. unfold build_prompt.
    assert (Hc : compose_prompt label instr blog serp
                 = (PROMPT_1 ++ label ++ PROMPT_2 ++ instr ++ PROMPT_3)
                     ++ (combined ++ PROMPT_4)).
    { rewrite compose_prompt_eq. fold combined. now rewrite <- !app_assoc. }
    destruct (Z.le_gt_cases (len (compose_prompt label instr blog serp)) 7000) as [Hs | Hl].
    + rewrite final_trim_prompt_short by exact Hs. rewrite Hc. now eexists.
    + destruct (final_trim_prompt_long (compose_prompt label instr blog serp) 7000)
        as [-> _]; [lia | lia |].
      rewrite Hc, slice_to_app_long; [now eexists|]. prompt_len.
Qed.

Lemma prompt_sent_whole_iff_witness :
  prefix_of (PROMPT_1 ++ sample_label ++ PROMPT_2 ++ sample_instr ++ PROMPT_3)
    (build_prompt sample_label sample_instr (long_text 6000) (long_text 8000)).
Proof.
  apply (proj2 (proj2 (prompt_sent_whole_iff sample_label sample_instr
                         (long_text 6000) (long_text 8000)))).
  vm_compute. discriminate.
Defined.

(** ** What the parser returns *)

(** X12.  The parser never fails, whatever the generated text; the headline
    and the body it returns have no whitespace at their ends, and the body
    is a part of the generated text. *)
Theorem parse_generation_trimmed :
  forall full_text : str,
    exists p,
      parse_generation full_text = Ok p
      /\ trimmed (headline p) /\ trimmed (body p)
      /\ occurs (body p) full_text.
Proof.
  intros full_text.
  destruct (find POST_MARK full_text) as [i|] eqn:Hf.
  - pose proof (find_first_split _ _ _ Hf) as Hs.
    rewrite (parse_generation_split _ _ _ Hs). eexists. split; [reflexivity|]. simpl.
    split; [apply trimmed_strip|]. split; [apply trimmed_strip|].
    destruct Hs as [E _].
    destruct (strip_spec (skipn (i + length POST_MARK) full_text)) as [l [r [Es _]]].
    exists (firstn i full_text ++ POST_MARK ++ l), r.
    rewrite E at 1. rewrite Es at 1. now rewrite <- !app_assoc.
  - rewrite parse_generation_fallback by now apply find_None.
    eexists. split; [reflexivity|]. simpl.
    split; [split; vm_compute; reflexivity|]. split; [apply trimmed_strip|].
    destruct (strip_spec full_text) as [l [r [Es _]]]. now exists l, r.
Qed.

(** ** How the stream is cut into chunks does not matter *)

Lemma fold_left_tokens (chunks : list chunk) :
  forall acc,
    fold_left (fun a c => a ++ chunk_token c) chunks acc
    = acc ++ concat (map chunk_token chunks).
Proof.
  induction chunks as [|c chunks IH]; intros acc; simpl.
  - now rewrite app_nil_r.
  - now rewrite IH, app_assoc.
Qed.

(** X13.  The generated post depends only on the concatenation of the
    texts of the first choices of the chunks: two streams that end
    normally and carry the same text give the same post, however the text
    is cut into chunks (a marker may be split between two chunks) and
    whatever chunks without text lie in between. *)
Theorem generate_one_variant_chunking :
  forall (W1 W2 : World) (llm : Llama) (label instr blog serp : str) (s1 s2 : state),
    let out1 := llm_call W1 (calls s1) (build_prompt label instr blog serp) in
    let out2 := llm_call W2 (calls s2) (build_prompt label instr blog serp) in
    llm_error out1 = None ->
    llm_error out2 = None ->
    concat (map chunk_token (llm_chunks out1)) = concat (map chunk_token (llm_chunks out2)) ->
    fst (generate_one_variant W1 llm label instr blog serp s1)
    = parse_generation (concat (map chunk_token (llm_chunks out1)))
    /\ fst (generate_one_variant W1 llm label instr blog serp s1)
       = fst (generate_one_variant W2 llm label instr blog serp s2).
Proof.
  intros W1 W2 llm label instr blog serp s1 s2 out1 out2 H1 H2 Heq.
  rewrite (generate_one_variant_parses W1 llm label instr blog serp s1 H1).
  rewrite (generate_one_variant_parses W2 llm label instr blog serp s2 H2).
  simpl. fold out1 out2. rewrite !fold_left_tokens. simpl. now rewrite Heq.
Qed.

Lemma generate_one_variant_chunking_witness :
  fst (generate_one_variant good_world LlamaHandle sample_label sample_instr
         (u "blog") (u "serp") fresh_state)
  = parse_generation
      (concat (map chunk_token
                 (llm_chunks (llm_call good_world (calls fresh_state)
                                (build_prompt sample_label sample_instr
                                   (u "blog") (u "serp"))))))
  /\ fst (generate_one_variant good_world LlamaHandle sample_label sample_instr
            (u "blog") (u "serp") fresh_state)
     = fst (generate_one_variant noisy_world LlamaHandle sample_label sample_instr
              (u "blog") (u "serp") legacy_state).
Proof.
  apply (generate_one_variant_chunking good_world noisy_world LlamaHandle sample_label
           sample_instr (u "blog") (u "serp") fresh_state legacy_state);
    reflexivity.
Defined.

(** ** The sheets of the workbook *)

Lemma sheetnames_ws_append name r wb : sheetnames (ws_append name r wb) = sheetnames wb.
Proof.
  unfold sheetnames. induction wb as [|[n rows] wb IH]; simpl; [reflexivity|].
  destruct (Py.eqb n name); simpl; [reflexivity | now rewrite IH].
Qed.

Lemma ws_append_last name r rows wb :
  wb_getitem name wb = None ->
  ws_append name r (wb ++ [(name, rows)]) = wb ++ [(name, rows ++ [r])].
Proof.
  induction wb as [|[n rs] wb IH]; simpl; intros H.
  - rewrite (proj2 (eqb_eq name name) eq_refl). reflexivity.
  - destruct (Py.eqb n name); [discriminate|]. now rewrite IH.
Qed.

(** X14.  On an existing file, when the library takes the row: on a
    workbook without a "serp_debug" sheet [save_serp_debug] adds the sheet
    after the existing ones, with the three-column header as first row and
    the record as second; on a workbook that has the sheet it keeps the
    sheets and their order.  When the library refuses the row,
    [save_serp_debug] raises [IllegalCharacterError] and the file is as it
    was: no sheet and no header is added. *)
Theorem save_serp_debug_sheets :
  forall (url : str) (links : list str) (text : str) (s : state) (wb : workbook),
    excel_file s = Some wb ->
    (~ refused (debug_cells url links text) ->
     exists wb',
       save_serp_debug url links text s =
         (Ok tt, {| calls := calls s; excel_file := Some wb' |})
       /\ (wb_getitem SERP_DEBUG wb = None ->
           wb' = wb ++ [(SERP_DEBUG, [SERP_DEBUG_HEADER; debug_record url links text])])
       /\ (wb_getitem SERP_DEBUG wb <> None -> sheetnames wb' = sheetnames wb))
    /\ (refused (debug_cells url links text) ->
        save_serp_debug url links text s = (Raise IllegalCharacterError, s)).
Proof.
  intros url links text s wb Hf.
  pose proof (save_serp_debug_cases url links text s) as H. rewrite Hf in H.
  split; intros Hr.
  - apply check_row_accepted in Hr. rewrite Hr in H. fold (debug_record url links text) in H.
    eexists. split; [exact H|]. rewrite mem_sheetnames.
    destruct (wb_getitem SERP_DEBUG wb) as [rows|] eqn:Hd; simpl; split; try congruence.
    + intros _. apply sheetnames_ws_append.
    + intros _. unfold create_sheet.
      rewrite (ws_append_last _ _ _ _ Hd). simpl app.
      now rewrite (ws_append_last _ _ _ _ Hd).
  - apply check_row_refused in Hr. rewrite Hr in H. exact H.
Qed.

Lemma save_serp_debug_sheets_witness :
  (exists wb',
      save_serp_debug sample_url [] [] legacy_state =
        (Ok tt, {| calls := calls legacy_state; excel_file := Some wb' |})
      /\ (wb_getitem SERP_DEBUG legacy_workbook = None ->
          wb' = legacy_workbook
                  ++ [(SERP_DEBUG, [SERP_DEBUG_HEADER; debug_record sample_url [] []])])
      /\ (wb_getitem SERP_DEBUG legacy_workbook <> None ->
          sheetnames wb' = sheetnames legacy_workbook))
  /\ save_serp_debug sample_url [] (row_body form_feed_row) legacy_state =
       (Raise IllegalCharacterError, legacy_state).
Proof.
  split.
  - apply (proj1 (save_serp_debug_sheets sample_url [] [] legacy_state legacy_workbook
                    eq_refl)).
    apply check_row_accepted. vm_compute. reflexivity.
  - apply (proj2 (save_serp_debug_sheets sample_url [] (row_body form_feed_row)
                    legacy_state legacy_workbook eq_refl)).
    apply check_row_refused. vm_compute. reflexivity.
Defined.

Lemma same_sheets_refl s : same_sheets s s.
Proof. intros wb H _. now exists wb. Qed.

Lemma same_sheets_trans s1 s2 s3 :
  same_sheets s1 s2 -> same_sheets s2 s3 -> same_sheets s1 s3.
Proof.
  intros H12 H23 wb H Hm. destruct (H12 wb H Hm) as [wb2 [H2 E2]].
  destruct (H23 wb2 H2) as [wb3 [H3 E3]]; [now rewrite E2|].
  exists wb3. split; [exact H3 | congruence].
Qed.

Lemma same_sheets_file s s' : excel_file s' = excel_file s -> same_sheets s s'.
Proof. intros Hf wb H _. exists wb. split; [congruence | reflexivity]. Qed.

Lemma append_to_excel_row_same_sheets row s :
  same_sheets s (snd (append_to_excel_row row s)).
Proof.
  pose proof (append_to_excel_row_cases row s) as H.
  destruct (excel_file s) as [wb|] eqn:Hf; [|rewrite H; apply same_sheets_refl].
  destruct (wb_getitem LINKEDIN wb); [|rewrite H; apply same_sheets_refl].
  destruct (check_row (linkedin_cells row)); rewrite H; [|apply same_sheets_refl].
  intros wb0 H0 _. simpl. eexists. split; [reflexivity|].
  rewrite sheetnames_ws_append. congruence.
Qed.

Lemma save_serp_debug_same_sheets url links text s :
  same_sheets s (snd (save_serp_debug url links text s)).
Proof.
  pose proof (save_serp_debug_cases url links text s) as H.
  destruct (excel_file s) as [wb|] eqn:Hf; [|rewrite H; apply same_sheets_refl].
  destruct (check_row (debug_cells url links text)); rewrite H; [|apply same_sheets_refl].
  intros wb0 H0 Hm. rewrite Hf in H0. injection H0 as <-. simpl.
  eexists. split; [reflexivity|].
  rewrite Hm. simpl. apply sheetnames_ws_append.
Qed.

Lemma process_blog_same_sheets W E llm url s :
  same_sheets s (snd (process_blog W E llm url s)).
Proof.
  unfold process_blog. apply (bind_kept same_sheets_trans).
  - apply same_sheets_file, scrape_url_file.
  - intros text s1. destruct (negb (truthy_str text)); [apply same_sheets_refl|].
    apply (bind_kept same_sheets_trans); [apply same_sheets_file, serpapi_search_file|].
    intros links s2.
    apply (bind_kept same_sheets_trans); [apply same_sheets_file, scrape_links_file|].
    intros stext s3.
    apply (bind_kept same_sheets_trans); [apply save_serp_debug_same_sheets|].
    intros _ s4. apply (for_each_kept same_sheets_refl same_sheets_trans).
    intros [label instr] s5. unfold generate_and_save.
    apply (bind_kept same_sheets_trans).
    + apply same_sheets_file, generate_one_variant_file.
    + intros p s6. apply append_to_excel_row_same_sheets.
Qed.

Lemma main_same_sheets W E s : same_sheets s (snd (main W E s)).
Proof.
  unfold main. apply (bind_kept same_sheets_trans).
  - unfold init_excel, bind, read_file, save, ret.
    destruct (excel_file s) eqn:Hf; simpl; [apply same_sheets_refl|].
    intros wb H. congruence.
  - intros _ s1. apply (bind_kept same_sheets_trans); [apply same_sheets_file, load_llm_file|].
    intros [llm|] s2; [|apply same_sheets_refl].
    apply (for_each_kept same_sheets_refl same_sheets_trans).
    intros url s3. apply process_blog_same_sheets.
Qed.

Lemma main_from_missing_file W E s :
  excel_file s = None ->
  main W E s = main W E {| calls := calls s; excel_file := Some new_workbook |}.
Proof.
  intros H. unfold main. unfold bind at 1. unfold bind at 3.
  unfold init_excel, bind, read_file, save, ret. rewrite H. reflexivity.
Qed.

(** X15.  However a run of [main] that starts without a spreadsheet file
    ends, the file exists afterwards, its sheets are "linkedin" and
    "serp_debug" in this order, and the first row of "linkedin" is the
    seven-column header, followed only by rows of seven cells. *)
Theorem main_creates_workbook :
  forall (W : World) (E : Env) (s : state),
    excel_file s = None ->
    exists wb rows,
      excel_file (snd (main W E s)) = Some wb
      /\ sheetnames wb = [LINKEDIN; SERP_DEBUG]
      /\ wb_getitem LINKEDIN wb = Some (LINKEDIN_HEADER :: rows)
      /\ Forall (fun r => length r = 7) rows.
Proof.
  intros W E s H. rewrite (main_from_missing_file W E s H).
  set (s1 := {| calls := calls s; excel_file := Some new_workbook |}).
  destruct (main_same_sheets W E s1 new_workbook eq_refl eq_refl) as [wb [Hwb Hn]].
  destruct (main_grows W E s1 LINKEDIN [LINKEDIN_HEADER] eq_refl) as [extra [Hr Hok]].
  exists wb, extra. split; [exact Hwb|]. split; [exact Hn|].
  unfold rows_of in Hr. rewrite Hwb in Hr. split; [exact Hr | exact Hok].
Qed.

Lemma main_creates_workbook_witness :
  exists wb rows,
    excel_file (snd (main decode_error_world (sample_env None) fresh_state)) = Some wb
    /\ sheetnames wb = [LINKEDIN; SERP_DEBUG]
    /\ wb_getitem LINKEDIN wb = Some (LINKEDIN_HEADER :: rows)
    /\ Forall (fun r => length r = 7) rows.
Proof.
  apply (main_creates_workbook decode_error_world (sample_env None) fresh_state).
  reflexivity.
Defined.

(** ** The enrichment text *)

(** X16.  When the fetches of the result pages raise nothing, the
    enrichment text is the text of each page, in the order of the links,
    each followed by a blank line; the blank line is added also after the
    last page and after a page that gave no text.  Each link is fetched
    once: the i-th text is the result of the fetch of the i-th link as the
    i-th request. *)
Theorem scrape_links_text :
  forall (W : World) (links : list str) (text : str) (s s' : state) (t : str),
    scrape_links W links text s = (Ok t, s') ->
    exists texts,
      length texts = length links
      /\ t = text ++ concat (map (fun x => x ++ NLNL) texts)
      /\ s' = {| calls := calls s + length links; excel_file := excel_file s |}
      /\ forall i link,
           nth_error links i = Some link ->
           exists x,
             nth_error texts i = Some x
             /\ fst (scrape_url W link {| calls := calls s + i; excel_file := excel_file s |})
                = Ok x.
Proof.
  intros W links. induction links as [|link rest IH]; intros text s s' t H.
  - simpl in H. unfold ret in H. injection H as <- <-. exists []. simpl.
    rewrite app_nil_r, Nat.add_0_r. destruct s. repeat split.
    intros [|i] l Hl; discriminate.
  - simpl scrape_links in H. unfold bind in H.
    pose proof (scrape_url_state W link s) as Hst.
    destruct (scrape_url W link s) as [[x|e] s1] eqn:Hx; [|discriminate].
    simpl in Hst. subst s1.
    destruct (IH _ _ _ _ H) as [texts [Hlen [Ht [Hs Hn]]]].
    exists (x :: texts). split; [simpl; now rewrite Hlen|]. split.
    { rewrite Ht. simpl. now rewrite <- !app_assoc. }
    split.
    { rewrite Hs. simpl. f_equal. lia. }
    intros [|i] l Hl; simpl in Hl.
    + injection Hl as <-. exists x. split; [reflexivity|].
      replace {| calls := calls s + 0; excel_file := excel_file s |} with s
        by (destruct s; simpl; now rewrite Nat.add_0_r).
      now rewrite Hx.
    + destruct (Hn i l Hl) as [y [Hy Hf]]. exists y. split; [exact Hy|].
      simpl in Hf. now rewrite Nat.add_succ_r.
Qed.

Lemma scrape_links_text_witness :
  exists texts,
    length texts = length [sample_url; sample_url]
    /\ u "Hello

Hello

" = [] ++ concat (map (fun x => x ++ NLNL) texts)
    /\ {| calls := 2; excel_file := None |}
       = {| calls := calls fresh_state + length [sample_url; sample_url];
            excel_file := excel_file fresh_state |}
    /\ forall i link,
         nth_error [sample_url; sample_url] i = Some link ->
         exists x,
           nth_error texts i = Some x
           /\ fst (scrape_url good_world link
                     {| calls := calls fresh_state + i;
                        excel_file := excel_file fresh_state |})
              = Ok x.
Proof.
  apply (scrape_links_text good_world [sample_url; sample_url] [] fresh_state).
  reflexivity.
Defined.
